(** * Verification of the network/subnet address-allocation engine

    A shallow embedding of [pkg/csi/network.go] (package [csi]): networks,
    subnets, reservations, and the operations that create subnets, assign
    reservations and compute DHCP ranges.

    Layout:
    - [uint8] helpers and Go's [net] types as far as [network.go] uses them;
    - package [ipam] (imported by [network.go], its source is not part of the
      tree at hand): modelled from the specification's sections 4.1 and 4.2;
    - package [csi]: the types and the functions of [network.go] and of
      [cabinets.go], each translated from its Go text;
    - packages [pit] and [cmd]: the helpers that work on subnets and
      reservations ([stringInSlice], [appendIfMissing],
      [updateReservations], [extractSwitchesfromReservations]);
    - the vocabulary of the statements, then the lemmas and theorems. *)

From Stdlib Require Import String Ascii ZArith List Bool Lia Sorted.
From Stdlib Require Strings.Byte DecimalString DecimalZ DecimalPos.
Import ListNotations.
Local Open Scope Z_scope.

(* ================================================================== *)
(** ** Bytes (Go's [uint8]) *)

Definition uint8 : Set := Byte.byte.

Definition uint8_to_Z (b : uint8) : Z := Z.of_N (Byte.to_N b).

(** Conversion to [uint8] keeps the low eight bits. *)
Definition uint8_of_Z (z : Z) : uint8 :=
  match Byte.of_N (Z.to_N (z mod 256)) with
  | Some b => b
  | None => Byte.x00
  end.

Fixpoint bytes_eqb (a b : list uint8) : bool :=
  match a, b with
  | [], [] => true
  | x :: a', y :: b' => Byte.eqb x y && bytes_eqb a' b'
  | _, _ => false
  end.

(* ================================================================== *)
(** ** Go's [net] package: [IP], [IPMask], [IPNet] *)

Module net.

(** [type IP []byte]; a nil slice and an empty one are both [[]]. *)
Definition IP := list uint8.

Definition IPv4len : nat := 4.
Definition IPv6len : nat := 16.

Definition v4InV6Prefix : list uint8 :=
  [Byte.x00; Byte.x00; Byte.x00; Byte.x00; Byte.x00; Byte.x00;
   Byte.x00; Byte.x00; Byte.x00; Byte.x00; Byte.xff; Byte.xff].

(** [func (ip IP) To4() IP]: the 4-byte form of an IPv4 address, [None]
    for Go's nil result. *)
Definition To4 (ip : IP) : option IP :=
  if Nat.eqb (length ip) IPv4len then Some ip
  else if Nat.eqb (length ip) IPv6len
            && bytes_eqb (firstn 12 ip) v4InV6Prefix
       then Some (skipn 12 ip)
       else None.

(** [func (ip IP) Equal(x IP) bool]: an IPv4 address and the same address
    in IPv6 form are equal. *)
Definition Equal (ip x : IP) : bool :=
  if Nat.eqb (length ip) (length x) then bytes_eqb ip x
  else if Nat.eqb (length ip) IPv4len && Nat.eqb (length x) IPv6len
       then bytes_eqb (firstn 12 x) v4InV6Prefix && bytes_eqb ip (skipn 12 x)
       else if Nat.eqb (length ip) IPv6len && Nat.eqb (length x) IPv4len
            then bytes_eqb (firstn 12 ip) v4InV6Prefix
                 && bytes_eqb (skipn 12 ip) x
            else false.

(** [type IPMask []byte].  [network.go] reads a mask only through
    [Size()] and otherwise hands it to [ipam]; a mask is represented by
    the pair [Size()] returns: the number of leading ones and the number
    of bits ((0, 0) for nil and for a mask that is not canonical). *)
Module IPMask.
Record t := mk { ones : nat; bits : nat }.
Definition nil : t := mk 0 0.
Definition Size (m : t) : Z * Z := (Z.of_nat (ones m), Z.of_nat (bits m)).
End IPMask.

(** [func CIDRMask(ones, bits int) IPMask]. *)
Definition CIDRMask (ones bits : Z) : IPMask.t :=
  if negb (bits =? 8 * Z.of_nat IPv4len) && negb (bits =? 8 * Z.of_nat IPv6len)
  then IPMask.nil
  else if (ones <? 0) || (bits <? ones) then IPMask.nil
       else IPMask.mk (Z.to_nat ones) (Z.to_nat bits).

(** [type IPNet struct { IP IP; Mask IPMask }]. *)
Module IPNet.
Record t := mk { IP : IP; Mask : IPMask.t }.
Definition zero : t := mk [] IPMask.nil.
End IPNet.

End net.

(* ================================================================== *)
(** ** Package [ipam]

    [network.go] imports [ipam] for its address arithmetic and its
    free-block search.  Every definition of this module follows the
    specification (sections 4.1 and 4.2). *)

Module ipam.
Import net.

(** Modelled from the spec: the missing IP-as-integer conversion of
    [ipam] ("treating addresses as ordered integers").  The four address
    bytes are read big-endian; an address in 16-byte form carries them in
    its last four bytes. *)
Definition be_uint32 (bs : list uint8) : Z :=
  fold_left (fun acc b => acc * 256 + uint8_to_Z b) bs 0.

Definition ipToDecimal (ip : IP) : Z :=
  be_uint32
    (firstn 4 (if Nat.eqb (length ip) IPv6len then skipn 12 ip else ip)).

(** Modelled from the spec: the missing integer-to-address conversion of
    [ipam]; the result is the 4-byte dotted quad, and only the low 32 bits
    of the integer are kept. *)
Definition decimalToIP (z : Z) : IP :=
  [uint8_of_Z (Z.shiftr z 24); uint8_of_Z (Z.shiftr z 16);
   uint8_of_Z (Z.shiftr z 8); uint8_of_Z z].

(** Modelled from the spec: the missing [ipam.Add], "returns the address
    [n] positions after [ip] in address-space order; [n] may be negative".
    The spec leaves a result outside the address range out of scope; here
    it wraps, as the 32-bit conversion does. *)
Definition Add (ip : IP) (n : Z) : IP := decimalToIP (ipToDecimal ip + n).

(** Modelled from the spec: the missing mask arithmetic of [ipam]; the
    inverted mask and the mask of a prefix length, as 32-bit integers. *)
Definition prefixLen (m : IPMask.t) : Z := fst (IPMask.Size m).
Definition hostmask (m : IPMask.t) : Z := Z.ones (32 - prefixLen m).
Definition netmask (m : IPMask.t) : Z := Z.ldiff (Z.ones 32) (hostmask m).

(** Modelled from the spec: the network address of a block (its base
    address masked) and its last address, as integers. *)
Definition first (n : IPNet.t) : Z :=
  Z.land (ipToDecimal (IPNet.IP n)) (netmask (IPNet.Mask n)).
Definition last (n : IPNet.t) : Z :=
  Z.lor (ipToDecimal (IPNet.IP n)) (hostmask (IPNet.Mask n)).

(** Modelled from the spec: the missing [ipam.Broadcast], "returns the
    last address of the block (bitwise address OR'd with the inverted
    mask)". *)
Definition Broadcast (n : IPNet.t) : IP := decimalToIP (last n).

(** Modelled from the spec: the missing [ipam.Contains], "true iff
    [inner]'s network address, masked by [outer]'s mask, equals [outer]'s
    network address, and [inner]'s prefix length >= [outer]'s". *)
Definition Contains (outer inner : IPNet.t) : bool :=
  (Z.land (first inner) (netmask (IPNet.Mask outer)) =? first outer)
  && (prefixLen (IPNet.Mask outer) <=? prefixLen (IPNet.Mask inner)).

(** Modelled from the spec: the missing [ipam.NetIPInSlice], "returns
    count/position of [addr] within an unordered list of addresses; used
    for membership checks": the number of entries equal to [a]. *)
Definition NetIPInSlice (a : IP) (list : list IP) : Z :=
  Z.of_nat (length (filter (fun b => Equal b a) list)).

(** Modelled from the spec: two blocks overlap, partially or fully, when
    their address ranges meet. *)
Definition overlaps (a b : IPNet.t) : bool :=
  (first a <=? last b) && (first b <=? last a).

Definition blockSize (m : IPMask.t) : Z := 2 ^ (32 - prefixLen m).

Inductive error := NoSpaceAvailable.

(** Modelled from the spec: the candidate loop of the missing
    [ipam.Free].  [base] is the candidate's base address; a candidate is
    rejected when it is not contained in the parent or overlaps a sibling;
    the base then steps forward by the block's size.  The search has
    failed once the base is past the parent's last address; [n] counts
    the candidates that remain before that. *)
Fixpoint search (n : nat) (parent : IPNet.t) (mask : IPMask.t)
         (siblings : list IPNet.t) (base : Z) : option IPNet.t :=
  match n with
  | O => None
  | S n' =>
      if last parent <? base then None
      else
        let candidate := IPNet.mk (decimalToIP base) mask in
        if Contains parent candidate
           && negb (existsb (overlaps candidate) siblings)
        then Some candidate
        else search n' parent mask siblings (base + blockSize mask)
  end.

(** The number of candidate bases from the parent's network address up to
    its last address. *)
Definition candidates (parent : IPNet.t) (mask : IPMask.t) : nat :=
  Z.to_nat ((last parent - first parent) / blockSize mask + 1).

(** Modelled from the spec: the missing [ipam.Free],
    [FindFreeBlock(parent, desiredMask, allocatedSiblings)]: the first
    candidate, from the parent's network address on, that passes both
    checks; [NoSpaceAvailable] when there is none. *)
Definition Free (network : IPNet.t) (mask : IPMask.t)
           (subnets : list IPNet.t) : IPNet.t * option error :=
  match search (candidates network mask) network mask subnets
               (first network) with
  | Some found => (found, None)
  | None => (IPNet.zero, Some NoSpaceAvailable)
  end.

End ipam.

(* ================================================================== *)
(** ** Go's [strings] package, as far as [network.go] uses it *)

Module strings.
Local Open Scope string_scope.

(** [strings.Split(s, ",")]: the pieces of [s] between commas; the empty
    string gives one empty piece. *)
Fixpoint Split_comma (s : string) : list string :=
  match s with
  | EmptyString => [EmptyString]
  | String c rest =>
      if Ascii.eqb c ","%char then EmptyString :: Split_comma rest
      else match Split_comma rest with
           | piece :: pieces => String c piece :: pieces
           | [] => [String c EmptyString]
           end
  end.

Definition lower (c : ascii) : ascii :=
  let n := nat_of_ascii c in
  if Nat.leb 65 n && Nat.leb n 90 then ascii_of_nat (n + 32) else c.

Fixpoint fold (s : string) : string :=
  match s with
  | EmptyString => EmptyString
  | String c rest => String (lower c) (fold rest)
  end.

(** [strings.EqualFold] on text written in ASCII, where Go compares byte
    by byte and folds the letters A-Z only.  On text with a byte of 128
    or more Go compares runes under Unicode simple folding (the Kelvin
    sign U+212A equals k); that path is not modelled.  The statements
    below compare names written in ASCII, or compare with a name
    cabinet_<number>, which has no letter that folds outside ASCII. *)
Definition EqualFold (s t : string) : bool := String.eqb (fold s) (fold t).

(** [strings.ToLower] on text written in ASCII; Go also lowers the
    letters outside ASCII.  No statement below depends on the value of
    [ToLower]. *)
Definition ToLower (s : string) : string := fold s.

(** [strings.HasPrefix(s, prefix)]. *)
Definition HasPrefix (s prefix : string) : bool := String.prefix prefix s.

(** [strings.Join(pieces, ",")]. *)
Definition Join_comma (pieces : list string) : string :=
  String.concat "," pieces.

End strings.

(* ================================================================== *)
(** ** Go's [fmt] package: the two integer verbs that the code uses *)

Module fmt.

(** [%d]: the decimal digits, after a minus sign for a negative number. *)
Definition d (n : Z) : string :=
  DecimalString.NilZero.string_of_int (Z.to_int n).

Fixpoint zeros (k : nat) : string :=
  match k with
  | O => EmptyString
  | S k' => String "0"%char (zeros k')
  end.

(** [%03d]: as [%d], with zeros after the sign until the whole is three
    characters wide. *)
Definition d03 (n : Z) : string :=
  if n <? 0
  then String "-"%char
              (String.append (zeros (2 - String.length (d (- n)))) (d (- n)))
  else String.append (zeros (3 - String.length (d n))) (d n).

End fmt.

(* ================================================================== *)
(** ** A Go [map[string]V]

    The keys and their values; the order in which a [range] visits them,
    which Go leaves open, is not part of the model. *)

Module gomap.
Section Map.
Variable V : Type.

Definition t := list (string * V).

Definition make : t := [].

(** [m[k] = v]. *)
Fixpoint set (m : t) (k : string) (v : V) : t :=
  match m with
  | [] => [(k, v)]
  | (k', v') :: m' =>
      if String.eqb k' k then (k, v) :: m' else (k', v') :: set m' k v
  end.

(** [v, ok := m[k]]. *)
Fixpoint get (m : t) (k : string) : option V :=
  match m with
  | [] => None
  | (k', v') :: m' => if String.eqb k' k then Some v' else get m' k
  end.

(** [m[k]] as a value: the zero value of [V] for a key that is absent. *)
Definition index (zero : V) (m : t) (k : string) : V :=
  match get m k with
  | Some v => v
  | None => zero
  end.

End Map.
Arguments make {V}.
Arguments set {V} m k v.
Arguments get {V} m k.
Arguments index {V} zero m k.
End gomap.

(* ================================================================== *)
(** ** Package [csi]: [network.go] *)

Module csi.
Import net.

(** [type IPReservation struct]. *)
Module IPReservation.
Record t := mk {
  IPAddress : IP;
  Name : string;
  Comment : string;
  Aliases : list string
}.

(** The zero value [IPReservation{}]. *)
Definition zero : t := mk [] EmptyString EmptyString [].

Definition set_Name (r : t) (name : string) : t :=
  mk (IPAddress r) name (Comment r) (Aliases r).

Definition set_Comment (r : t) (comment : string) : t :=
  mk (IPAddress r) (Name r) comment (Aliases r).

Definition set_Aliases (r : t) (aliases : list string) : t :=
  mk (IPAddress r) (Name r) (Comment r) aliases.
End IPReservation.

(** [type IPV4Subnet struct]; [VlanID] is an [int16]. *)
Module IPV4Subnet.
Record t := mk {
  FullName : string;
  CIDR : IPNet.t;
  IPReservations : list IPReservation.t;
  Name : string;
  NetName : string;
  VlanID : Z;
  Comment : string;
  Gateway : IP;
  SupernetRouter : IP;
  DNSServer : IP;
  DHCPStart : IP;
  DHCPEnd : IP
}.

(** The zero value [IPV4Subnet{}]. *)
Definition zero : t :=
  mk EmptyString IPNet.zero [] EmptyString EmptyString 0 EmptyString
     [] [] [] [] [].

Definition set_IPReservations (s : t) (rs : list IPReservation.t) : t :=
  mk (FullName s) (CIDR s) rs (Name s) (NetName s) (VlanID s) (Comment s)
     (Gateway s) (SupernetRouter s) (DNSServer s) (DHCPStart s) (DHCPEnd s).

Definition set_DHCP (s : t) (start stop : IP) : t :=
  mk (FullName s) (CIDR s) (IPReservations s) (Name s) (NetName s)
     (VlanID s) (Comment s) (Gateway s) (SupernetRouter s) (DNSServer s)
     start stop.
End IPV4Subnet.

(** [type IPV4Network struct].  The Go field [CIDR] is the text
    "address/ones"; the model keeps the address and the mask that the
    text denotes, and [ParseCIDR] below turns them into the block.
    [Subnets] is a slice of pointers: a pointer to one of the network's
    subnets is its position in the slice. *)
Module IPV4Network.
Record t := mk {
  FullName : string;
  CIDR : IPNet.t;
  Subnets : list IPV4Subnet.t;
  Name : string;
  VlanRange : list Z;
  MTU : Z;
  NetType : string;
  Comment : string
}.

Definition set_Subnets (n : t) (subnets : list IPV4Subnet.t) : t :=
  mk (FullName n) (CIDR n) subnets (Name n) (VlanRange n) (MTU n)
     (NetType n) (Comment n).
End IPV4Network.

(** A [*IPV4Subnet] result: either one of the network's own subnets or a
    subnet allocated for the occasion ([&IPV4Subnet{}], [&tempSubnet]). *)
Inductive SubnetPtr :=
| InSubnets (i : nat)
| Fresh (s : IPV4Subnet.t).

Definition deref (iNet : IPV4Network.t) (p : SubnetPtr) : IPV4Subnet.t :=
  match p with
  | InSubnets i => nth i (IPV4Network.Subnets iNet) IPV4Subnet.zero
  | Fresh s => s
  end.

(** The [error] values of this file, one constructor per message, with
    the values the message is formatted from. *)
Inductive error :=
| ErrFree (e : ipam.error)
| ErrNotPartOf (desiredNet myNet : IPNet.t)
| ErrNoRoom (name netName : string) (maskSize : Z)
| ErrSubnetNotFound (name : string)
| ErrFoundSubnets (count : nat).

(** [_, myNet, _ := net.ParseCIDR(iNet.CIDR)]: the block of the text, its
    address masked to the prefix and in 4-byte form.  (A text that does
    not parse, on which the Go code dereferences nil, has no counterpart
    here.) *)
Definition ParseCIDR (cidr : IPNet.t) : IPNet.t :=
  IPNet.mk (ipam.decimalToIP (ipam.first cidr)) (IPNet.Mask cidr).

(** [func (iNet IPV4Network) AllocatedSubnets() []net.IPNet]. *)
Definition AllocatedSubnets (iNet : IPV4Network.t) : list IPNet.t :=
  map IPV4Subnet.CIDR (IPV4Network.Subnets iNet).

Definition last_index (iNet : IPV4Network.t) : nat :=
  length (IPV4Network.Subnets iNet) - 1.

(** [func (iNet *IPV4Network) AddSubnetbyCIDR]: the network after the
    call, and the two results. *)
Definition AddSubnetbyCIDR (iNet : IPV4Network.t) (desiredNet : IPNet.t)
           (name : string) (vlanID : Z)
  : IPV4Network.t * (SubnetPtr * option error) :=
  let myNet := ParseCIDR (IPV4Network.CIDR iNet) in
  if ipam.Contains myNet desiredNet then
    let iNet' :=
      IPV4Network.set_Subnets iNet
        (IPV4Network.Subnets iNet ++
           [IPV4Subnet.mk EmptyString desiredNet [] name EmptyString vlanID
              EmptyString
              (ipam.Add (IPNet.IP desiredNet) 1) [] [] [] []]) in
    (iNet', (InSubnets (last_index iNet'), None))
  else (iNet, (Fresh IPV4Subnet.zero, Some (ErrNotPartOf desiredNet myNet))).

(** [func (iNet *IPV4Network) AddSubnet]. *)
Definition AddSubnet (iNet : IPV4Network.t) (mask : IPMask.t)
           (name : string) (vlanID : Z)
  : IPV4Network.t * (SubnetPtr * option error) :=
  let tempSubnet := IPV4Subnet.zero in
  let myNet := ParseCIDR (IPV4Network.CIDR iNet) in
  match ipam.Free myNet mask (AllocatedSubnets iNet) with
  | (_, Some err) => (iNet, (Fresh tempSubnet, Some (ErrFree err)))
  | (newSubnet, None) =>
      let iNet' :=
        IPV4Network.set_Subnets iNet
          (IPV4Network.Subnets iNet ++
             [IPV4Subnet.mk EmptyString newSubnet [] name
                (IPV4Network.Name iNet) vlanID EmptyString
                (ipam.Add (IPNet.IP newSubnet) 1) [] [] [] []]) in
      (iNet', (InSubnets (last_index iNet'), None))
  end.

(** The loop of [AddBiggestSubnet], [for i := maskSize; i < 29; i++]:
    [n] is the number of values of [i] still to try. *)
Fixpoint AddBiggestSubnet_loop (n : nat) (i : Z) (iNet : IPV4Network.t)
         (name : string) (vlanID : Z)
  : IPV4Network.t * option SubnetPtr :=
  match n with
  | O => (iNet, None)
  | S n' =>
      match AddSubnet iNet (CIDRMask i 32) name vlanID with
      | (iNet', (newSubnet, None)) => (iNet', Some newSubnet)
      | (iNet', (_, Some _)) =>
          AddBiggestSubnet_loop n' (i + 1) iNet' name vlanID
      end
  end.

(** [func (iNet *IPV4Network) AddBiggestSubnet]. *)
Definition AddBiggestSubnet (iNet : IPV4Network.t) (mask : IPMask.t)
           (name : string) (vlanID : Z)
  : IPV4Network.t * (SubnetPtr * option error) :=
  let maskSize := fst (IPMask.Size mask) in
  match AddBiggestSubnet_loop (Z.to_nat (29 - maskSize)) maskSize iNet
                              name vlanID with
  | (iNet', Some newSubnet) => (iNet', (newSubnet, None))
  | (iNet', None) =>
      (iNet', (Fresh IPV4Subnet.zero,
               Some (ErrNoRoom name (IPV4Network.Name iNet') maskSize)))
  end.

(** The [range] loop of [LookUpSubnet]: [i] is the position of the first
    subnet of [subnets] in the network, [found] the pointers collected so
    far. *)
Fixpoint LookUpSubnet_loop (name : string) (i : nat)
         (subnets : list IPV4Subnet.t) (found : list nat) : list nat :=
  match subnets with
  | [] => found
  | v :: rest =>
      LookUpSubnet_loop name (S i) rest
        (if String.eqb (IPV4Subnet.Name v) name then found ++ [i]
         else found)
  end.

(** [func (iNet *IPV4Network) LookUpSubnet]. *)
Definition LookUpSubnet (iNet : IPV4Network.t) (name : string)
  : SubnetPtr * option error :=
  if Nat.eqb (length (IPV4Network.Subnets iNet)) 0
  then (Fresh IPV4Subnet.zero, Some (ErrSubnetNotFound name))
  else
    let found := LookUpSubnet_loop name 0 (IPV4Network.Subnets iNet) [] in
    if Nat.eqb (length found) 1
    then (InSubnets (nth 0 found 0%nat), None)
    else if Nat.ltb 1 (length found)
         then (InSubnets (nth 0 found 0%nat),
               Some (ErrFoundSubnets (length found)))
         else (Fresh IPV4Subnet.zero, Some (ErrSubnetNotFound name)).

(** [func (iNet IPV4Network) SubnetbyName]: a copy, not a pointer. *)
Fixpoint SubnetbyName_loop (name : string) (subnets : list IPV4Subnet.t)
  : IPV4Subnet.t :=
  match subnets with
  | [] => IPV4Subnet.zero
  | v :: rest =>
      if strings.EqualFold (IPV4Subnet.Name v) name then v
      else SubnetbyName_loop name rest
  end.

Definition SubnetbyName (iNet : IPV4Network.t) (name : string)
  : IPV4Subnet.t :=
  SubnetbyName_loop name (IPV4Network.Subnets iNet).

(** [func (iSubnet *IPV4Subnet) ReservedIPs() []net.IP]. *)
Definition ReservedIPs (iSubnet : IPV4Subnet.t) : list IP :=
  map IPReservation.IPAddress (IPV4Subnet.IPReservations iSubnet).

(** Go's [int] is 64 bits wide and wraps. *)
Definition int_wrap (z : Z) : Z := (z + 2 ^ 63) mod 2 ^ 64 - 2 ^ 63.

(** [func (iSubnet *IPV4Subnet) TotalIPAddresses() int]:
    [2 << uint(31-maskSize)].  The conversion to [uint] wraps a negative
    count to a large one, and a shift by 64 or more gives 0. *)
Definition TotalIPAddresses (iSubnet : IPV4Subnet.t) : Z :=
  let maskSize := fst (IPMask.Size (IPNet.Mask (IPV4Subnet.CIDR iSubnet))) in
  let count := (31 - maskSize) mod 2 ^ 64 in
  if 64 <=? count then 0 else int_wrap (Z.shiftl 2 count).

(** [func (iSubnet *IPV4Subnet) UsableHostAddresses() int]. *)
Definition UsableHostAddresses (iSubnet : IPV4Subnet.t) : Z :=
  let maskSize := fst (IPMask.Size (IPNet.Mask (IPV4Subnet.CIDR iSubnet))) in
  if maskSize =? 32 then 1
  else if maskSize =? 31 then 2
       else int_wrap (TotalIPAddresses iSubnet - 2).

(** How a call that may stop the process ends: it returns, [log.Fatalf]
    exits the process, or the bound put on a loop was too small. *)
Inductive outcome (A : Type) :=
| Returns (a : A)
| Fatal
| OutOfSteps.
Arguments Returns {A} a.
Arguments Fatal {A}.
Arguments OutOfSteps {A}.

(** The loop of [UpdateDHCPRange],
    [for ipam.NetIPInSlice(ip, myReservedIPs) > 0], on the pair of [ip] and
    [iSubnet.DHCPStart]; [steps] bounds the number of iterations. *)
Fixpoint UpdateDHCPRange_loop (steps : nat) (myReservedIPs : list IP)
         (ip DHCPStart : IP) : option (IP * IP) :=
  if 0 <? ipam.NetIPInSlice ip myReservedIPs then
    match steps with
    | O => None
    | S steps' =>
        UpdateDHCPRange_loop steps' myReservedIPs (ipam.Add ip 1)
                             (ipam.Add ip 2)
    end
  else Some (ip, DHCPStart).

(** [func (iSubnet *IPV4Subnet) UpdateDHCPRange(applySupernetHack bool)].
    The loop is given one iteration per reservation, which is enough
    ([UpdateDHCPRange_Fatal_iff] below: the call never ends in
    [OutOfSteps]). *)
Definition UpdateDHCPRange (iSubnet : IPV4Subnet.t) (applySupernetHack : bool)
  : outcome IPV4Subnet.t :=
  let myReservedIPs := ReservedIPs iSubnet in
  if UsableHostAddresses iSubnet <? Z.of_nat (length myReservedIPs) then Fatal
  else
    let ip := ipam.Add (IPNet.IP (IPV4Subnet.CIDR iSubnet))
                       (Z.of_nat (length myReservedIPs) + 2) in
    match UpdateDHCPRange_loop (length myReservedIPs) myReservedIPs ip ip with
    | None => OutOfSteps
    | Some (_, DHCPStart) =>
        Returns
          (IPV4Subnet.set_DHCP iSubnet DHCPStart
             (if applySupernetHack then ipam.Add DHCPStart 200
              else ipam.Add (ipam.Broadcast (IPV4Subnet.CIDR iSubnet)) (-1)))
    end.

(** [func (iSubnet *IPV4Subnet) AddReservationWithPin]: the subnet after
    the call and the position of the reservation the result points to. *)
Definition AddReservationWithPin (iSubnet : IPV4Subnet.t)
           (name comment : string) (pin : uint8) : IPV4Subnet.t * nat :=
  let ip := IPNet.IP (IPV4Subnet.CIDR iSubnet) in
  let newIP := [Byte.x00; Byte.x00; Byte.x00; Byte.x00] in
  let newIP :=
    if Nat.eqb (length ip) 4
    then [nth 0 ip Byte.x00; nth 1 ip Byte.x00; nth 2 ip Byte.x00; pin]
    else newIP in
  let newIP :=
    if Nat.eqb (length ip) 16
    then [nth 12 ip Byte.x00; nth 13 ip Byte.x00; nth 14 ip Byte.x00; pin]
    else newIP in
  let reservations :=
    IPV4Subnet.IPReservations iSubnet ++
      [IPReservation.mk newIP name comment (strings.Split_comma comment)] in
  (IPV4Subnet.set_IPReservations iSubnet reservations,
   (length reservations - 1)%nat).

(** The inner loop of [AddReservation], over [myReservedIPs] in order:
    [if tempIP.Equal(v) { tempIP = ipam.Add(tempIP, 1) }]. *)
Fixpoint AddReservation_loop (myReservedIPs : list IP) (tempIP : IP) : IP :=
  match myReservedIPs with
  | [] => tempIP
  | v :: rest =>
      AddReservation_loop rest
        (if Equal tempIP v then ipam.Add tempIP 1 else tempIP)
  end.

(** [func (iSubnet *IPV4Subnet) AddReservation]: the body of the outer
    [for] runs once, since it ends in [return]. *)
Definition AddReservation (iSubnet : IPV4Subnet.t) (name comment : string)
  : IPV4Subnet.t * nat :=
  let myReservedIPs := ReservedIPs iSubnet in
  let tempIP := ipam.Add (IPNet.IP (IPV4Subnet.CIDR iSubnet)) 2 in
  let tempIP := AddReservation_loop myReservedIPs tempIP in
  let reservations :=
    IPV4Subnet.IPReservations iSubnet ++
      [IPReservation.mk tempIP name comment []] in
  (IPV4Subnet.set_IPReservations iSubnet reservations,
   (length reservations - 1)%nat).

(* ------------------------------------------------------------------ *)
(** *** [cabinets.go] *)

(** [type CabinetDetail struct]; [ID] is an [int], [VlanID] an [int16]. *)
Module CabinetDetail.
Record t := mk {
  ID : Z;
  Subnet : string;
  VlanID : Z
}.
End CabinetDetail.

(** [type CabinetGroupDetail struct]; [Cabinets] and [StartingCabinet]
    are [int]s. *)
Module CabinetGroupDetail.
Record t := mk {
  Kind : string;
  Cabinets : Z;
  StartingCabinet : Z;
  CabinetDetails : list CabinetDetail.t
}.

Definition set_CabinetDetails (cgd : t) (details : list CabinetDetail.t) : t :=
  mk (Kind cgd) (Cabinets cgd) (StartingCabinet cgd) details.
End CabinetGroupDetail.

(** [type CabinetDetailFile struct]. *)
Module CabinetDetailFile.
Record t := mk { Cabinets : list CabinetGroupDetail.t }.
End CabinetDetailFile.

(** [func (cgd *CabinetGroupDetail) CabinetIDs() []int]. *)
Definition CabinetIDs (cgd : CabinetGroupDetail.t) : list Z :=
  map CabinetDetail.ID (CabinetGroupDetail.CabinetDetails cgd).

(** The loop of [PopulateIds],
    [for cabID := StartingCabinet; cabID < StartingCabinet+Cabinets; cabID++],
    with [n] values of [cabID] still to come. *)
Fixpoint PopulateIds_loop (n : nat) (cabID : Z)
         (details : list CabinetDetail.t) : list CabinetDetail.t :=
  match n with
  | O => details
  | S n' =>
      PopulateIds_loop n' (cabID + 1)
        (details ++ [CabinetDetail.mk cabID EmptyString 0])
  end.

(** [func (cgd *CabinetGroupDetail) PopulateIds()]: the group after the
    call.  The bound of the loop is an [int] sum, which wraps. *)
Definition PopulateIds (cgd : CabinetGroupDetail.t) : CabinetGroupDetail.t :=
  let details := CabinetGroupDetail.CabinetDetails cgd in
  if Z.of_nat (length details) <? CabinetGroupDetail.Cabinets cgd then
    let start := CabinetGroupDetail.StartingCabinet cgd in
    let bound := int_wrap (start + CabinetGroupDetail.Cabinets cgd) in
    CabinetGroupDetail.set_CabinetDetails cgd
      (PopulateIds_loop (Z.to_nat (bound - start)) start details)
  else cgd.

(** [func (cgd *CabinetGroupDetail) Length() int]. *)
Definition Length (cgd : CabinetGroupDetail.t) : Z :=
  if Nat.eqb (length (CabinetGroupDetail.CabinetDetails cgd)) 0
  then CabinetGroupDetail.Cabinets cgd
  else Z.of_nat (length (CabinetGroupDetail.CabinetDetails cgd)).

(** [func (cdf *CabinetDetailFile) CabinetTypes() []string]. *)
Definition CabinetTypes (cdf : CabinetDetailFile.t) : list string :=
  map CabinetGroupDetail.Kind (CabinetDetailFile.Cabinets cdf).

(* ------------------------------------------------------------------ *)
(** *** [network.go], the remaining functions *)

(** Conversion to [int16] keeps the low sixteen bits. *)
Definition int16_wrap (z : Z) : Z := (z + 2 ^ 15) mod 2 ^ 16 - 2 ^ 15.

(** How [GenSubnets] ends: it returns, or the index expression
    [iNet.VlanRange[0]] panics.  The other panic of the Go function, the
    dereference of the nil [*myNet] when [iNet.CIDR] is a text that does
    not parse, has no counterpart: a network of the model carries the
    block that its text denotes. *)
Inductive run (A : Type) :=
| Done (a : A)
| Panics.
Arguments Done {A} a.
Arguments Panics {A}.

(** [tmpVlanID] of [GenSubnets]: the cabinet's own VLAN id, or, when that
    is 0, [int16(j) + iNet.VlanRange[0]]; indexing an empty [VlanRange]
    panics. *)
Definition GenSubnets_vlan (iNet : IPV4Network.t) (j : Z)
           (i : CabinetDetail.t) : option Z :=
  if CabinetDetail.VlanID i =? 0 then
    match IPV4Network.VlanRange iNet with
    | [] => None
    | first :: _ => Some (int16_wrap (int16_wrap j + first))
    end
  else Some (CabinetDetail.VlanID i).

(** The inner loop of [GenSubnets], [for j, i := range
    cabinetDetail.CabinetDetails], on the two slices it grows:
    [mySubnets] and [myIPv4Subnets].  It ends with the error of
    [ipam.Free], if any, and the slices. *)
Fixpoint GenSubnets_cabinets (iNet : IPV4Network.t) (myNet : IPNet.t)
         (mask : IPMask.t) (j : Z) (cabinets : list CabinetDetail.t)
         (mySubnets : list IPNet.t) (myIPv4Subnets : list IPV4Subnet.t)
  : run (option error * (list IPNet.t * list IPV4Subnet.t)) :=
  match cabinets with
  | [] => Done (None, (mySubnets, myIPv4Subnets))
  | i :: rest =>
      let (newSubnet, err) := ipam.Free myNet mask mySubnets in
      let mySubnets := mySubnets ++ [newSubnet] in
      match err with
      | Some e => Done (Some (ErrFree e), (mySubnets, myIPv4Subnets))
      | None =>
          match GenSubnets_vlan iNet j i with
          | None => Panics
          | Some tmpVlanID =>
              let tempSubnet :=
                IPV4Subnet.mk EmptyString newSubnet []
                  (String.append "cabinet_" (fmt.d (CabinetDetail.ID i)))
                  EmptyString tmpVlanID EmptyString
                  (ipam.Add (IPNet.IP newSubnet) 1) [] []
                  (ipam.Add (IPNet.IP newSubnet)
                            (Z.of_nat (length (@nil IPReservation.t)) + 2))
                  (ipam.Add (ipam.Broadcast newSubnet) (-1)) in
              GenSubnets_cabinets iNet myNet mask (j + 1) rest mySubnets
                                  (myIPv4Subnets ++ [tempSubnet])
          end
      end
  end.

(** The outer loop of [GenSubnets], over the cabinet groups. *)
Fixpoint GenSubnets_groups (iNet : IPV4Network.t) (myNet : IPNet.t)
         (mask : IPMask.t) (cabinetType : string)
         (cabinetDetails : list CabinetGroupDetail.t)
         (mySubnets : list IPNet.t) (myIPv4Subnets : list IPV4Subnet.t)
  : run (option error * (list IPNet.t * list IPV4Subnet.t)) :=
  match cabinetDetails with
  | [] => Done (None, (mySubnets, myIPv4Subnets))
  | cabinetDetail :: rest =>
      if String.eqb cabinetType (CabinetGroupDetail.Kind cabinetDetail) then
        match GenSubnets_cabinets iNet myNet mask 0
                (CabinetGroupDetail.CabinetDetails cabinetDetail)
                mySubnets myIPv4Subnets with
        | Done (None, (mySubnets', myIPv4Subnets')) =>
            GenSubnets_groups iNet myNet mask cabinetType rest
                              mySubnets' myIPv4Subnets'
        | stopped => stopped
        end
      else GenSubnets_groups iNet myNet mask cabinetType rest
                             mySubnets myIPv4Subnets
  end.

(** [func (iNet *IPV4Network) GenSubnets]: the network after the call and
    the error.  [iNet.Subnets] is assigned only after the loops. *)
Definition GenSubnets (iNet : IPV4Network.t)
           (cabinetDetails : list CabinetGroupDetail.t) (mask : IPMask.t)
           (cabinetType : string) : run (IPV4Network.t * option error) :=
  let myNet := ParseCIDR (IPV4Network.CIDR iNet) in
  match GenSubnets_groups iNet myNet mask cabinetType cabinetDetails
          (AllocatedSubnets iNet) (IPV4Network.Subnets iNet) with
  | Done (None, (_, myIPv4Subnets)) =>
      Done (IPV4Network.set_Subnets iNet myIPv4Subnets, None)
  | Done (Some err, _) => Done (iNet, Some err)
  | Panics => Panics
  end.

(** One of the first four loops of [ReserveNetMgmtIPs]: [comments] are the
    entries of the slice from position [i] on, and the name of entry [i]
    is the prefix followed by [i+1] in the format [%03d]. *)
Fixpoint ReserveNetMgmtIPs_loop (prefix : string) (i : Z)
         (comments : list string) (iSubnet : IPV4Subnet.t) : IPV4Subnet.t :=
  match comments with
  | [] => iSubnet
  | comment :: rest =>
      ReserveNetMgmtIPs_loop prefix (i + 1) rest
        (fst (AddReservation iSubnet
                (String.append prefix (fmt.d03 (i + 1))) comment))
  end.

(** The last loop of [ReserveNetMgmtIPs], [for i := 0; i < additional;
    i++], with [n] values of [i] still to come. *)
Fixpoint ReserveNetMgmtIPs_stubs (n : nat) (i : Z) (iSubnet : IPV4Subnet.t)
  : IPV4Subnet.t :=
  match n with
  | O => iSubnet
  | S n' =>
      ReserveNetMgmtIPs_stubs n' (i + 1)
        (fst (AddReservation iSubnet
                (String.append "mgmt-net-stub-" (fmt.d03 (i + 1)))
                EmptyString))
  end.

(** [func (iSubnet *IPV4Subnet) ReserveNetMgmtIPs]. *)
Definition ReserveNetMgmtIPs (iSubnet : IPV4Subnet.t)
           (spines leafs aggs cdus : list string) (additional : Z)
  : IPV4Subnet.t :=
  let iSubnet := ReserveNetMgmtIPs_loop "sw-spine-" 0 spines iSubnet in
  let iSubnet := ReserveNetMgmtIPs_loop "sw-leaf-" 0 leafs iSubnet in
  let iSubnet := ReserveNetMgmtIPs_loop "sw-agg-" 0 aggs iSubnet in
  let iSubnet := ReserveNetMgmtIPs_loop "sw-cdu-" 0 cdus iSubnet in
  ReserveNetMgmtIPs_stubs (Z.to_nat additional) 0 iSubnet.

(** [func (iSubnet *IPV4Subnet) ReservationsByName()
    map[string]IPReservation]. *)
Definition ReservationsByName (iSubnet : IPV4Subnet.t)
  : gomap.t IPReservation.t :=
  fold_left (fun reservations v => gomap.set reservations
                                     (IPReservation.Name v) v)
            (IPV4Subnet.IPReservations iSubnet) gomap.make.

(** The loop of [LookupReservation]. *)
Fixpoint LookupReservation_loop (resName : string)
         (reservations : list IPReservation.t) : IPReservation.t :=
  match reservations with
  | [] => IPReservation.zero
  | v :: rest =>
      if String.eqb resName (IPReservation.Name v) then v
      else LookupReservation_loop resName rest
  end.

(** [func (iSubnet *IPV4Subnet) LookupReservation]. *)
Definition LookupReservation (iSubnet : IPV4Subnet.t) (resName : string)
  : IPReservation.t :=
  LookupReservation_loop resName (IPV4Subnet.IPReservations iSubnet).

Section Alias.
(** [stringInSlice] of package [csi] is declared in a file that is not in
    the tree; [AddReservationAlias] takes it as a parameter. *)
Variable stringInSlice : string -> list string -> bool.

(** [func (iReserv *IPReservation) AddReservationAlias]: the reservation
    after the call. *)
Definition AddReservationAlias (iReserv : IPReservation.t) (alias : string)
  : IPReservation.t :=
  if negb (stringInSlice alias (IPReservation.Aliases iReserv))
  then IPReservation.set_Aliases iReserv
         (IPReservation.Aliases iReserv ++ [alias])
  else iReserv.
End Alias.

End csi.

(* ================================================================== *)
(** ** Package [pit]: [basecamp.go] *)

Module pit.

(** [func stringInSlice(a string, list []string) bool]. *)
Fixpoint stringInSlice (a : string) (list : list string) : bool :=
  match list with
  | [] => false
  | b :: rest => if String.eqb b a then true else stringInSlice a rest
  end.

End pit.

(* ================================================================== *)
(** ** Package [cmd]: the helpers of [init.go] and of the SLS generation
    that work on subnets and reservations *)

Module cmd.
Import net csi.

(** [func appendIfMissing(slice []string, item string) []string]. *)
Fixpoint appendIfMissing_loop (slice rest : list string) (item : string)
  : list string :=
  match rest with
  | [] => slice ++ [item]
  | ele :: rest' =>
      if String.eqb ele item then slice
      else appendIfMissing_loop slice rest' item
  end.

Definition appendIfMissing (slice : list string) (item : string)
  : list string :=
  appendIfMissing_loop slice slice item.

Section NCN.
(** [LogicalNCN] is declared in a file of package [csi] that is not in the
    tree; [updateReservations] reads three of its fields, taken here as
    parameters. *)
Variable LogicalNCN : Type.
Variables Xname Hostname Subrole : LogicalNCN -> string.

Definition append_alias (r : IPReservation.t) (alias : string)
  : IPReservation.t :=
  IPReservation.set_Aliases r (IPReservation.Aliases r ++ [alias]).

(** The body of the inner loop of [updateReservations], on the loop's
    copy [reservation] of the entry, for one [ncn]. *)
Definition updateReservations_ncn (NetName : string)
           (reservation : IPReservation.t) (ncn : LogicalNCN)
  : IPReservation.t :=
  let lower := strings.ToLower NetName in
  let reservation :=
    if String.eqb (IPReservation.Comment reservation) (Xname ncn) then
      let r := IPReservation.set_Name reservation (Hostname ncn) in
      let r := append_alias r
                 (String.append (Hostname ncn) (String "-"%char lower)) in
      let r := append_alias r (String.append "time-" lower) in
      let r := append_alias r
                 (String.append "time-" (String.append lower ".local")) in
      let r :=
        if String.eqb (strings.ToLower (Subrole ncn)) "storage"
           && String.eqb lower "hmn"
        then append_alias r "rgw-vip.hmn"
        else r in
      if String.eqb lower "nmn" then append_alias r (Xname ncn) else r
    else reservation in
  if String.eqb (IPReservation.Comment reservation)
                (String.append (Xname ncn) "-mgmt")
  then
    append_alias
      (IPReservation.set_Comment reservation (IPReservation.Name reservation))
      (String.append (Hostname ncn) "-mgmt")
  else reservation.

(** The body of the outer loop: what the entry is after all the NCNs, and
    after the alias that the NMN adds. *)
Definition updateReservations_entry (NetName : string)
           (logicalNcns : list LogicalNCN) (reservation : IPReservation.t)
  : IPReservation.t :=
  let reservation :=
    fold_left (updateReservations_ncn NetName) logicalNcns reservation in
  if String.eqb NetName "NMN"
  then append_alias reservation
         (String.append (IPReservation.Name reservation) ".local")
  else reservation.

(** [func updateReservations(tempSubnet *IPV4Subnet, logicalNcns
    []*LogicalNCN)]: the subnet after the call.  Every change to the copy
    is written back to [tempSubnet.IPReservations[index]]. *)
Definition updateReservations (tempSubnet : IPV4Subnet.t)
           (logicalNcns : list LogicalNCN) : IPV4Subnet.t :=
  IPV4Subnet.set_IPReservations tempSubnet
    (map (updateReservations_entry (IPV4Subnet.NetName tempSubnet)
                                   logicalNcns)
         (IPV4Subnet.IPReservations tempSubnet)).
End NCN.

Section Switches.
(** [ManagementSwitch] and its switch types are declared in a file of
    package [csi] that is not in the tree.  [new_switch xname name
    switchType managementInterface] stands for the struct literal with
    those four fields set. *)
Variables ManagementSwitch ManagementSwitchType : Type.
Variables ManagementSwitchTypeSpine ManagementSwitchTypeAggregation
          ManagementSwitchTypeLeaf ManagementSwitchTypeCDU
  : ManagementSwitchType.
Variable new_switch :
  string -> string -> ManagementSwitchType -> IP -> ManagementSwitch.

(** The body of the loop of [extractSwitchesfromReservations]: the
    switches that one reservation adds. *)
Definition extractSwitches_entry (reservation : IPReservation.t)
  : list ManagementSwitch :=
  let switch_of switchType :=
    new_switch (IPReservation.Comment reservation)
               (IPReservation.Name reservation) switchType
               (IPReservation.IPAddress reservation) in
  let name := IPReservation.Name reservation in
  (if strings.HasPrefix name "sw-spine"
   then [switch_of ManagementSwitchTypeSpine] else [])
  ++ (if strings.HasPrefix name "sw-agg"
      then [switch_of ManagementSwitchTypeAggregation] else [])
  ++ (if strings.HasPrefix name "sw-leaf"
      then [switch_of ManagementSwitchTypeLeaf] else [])
  ++ (if strings.HasPrefix name "sw-cdu"
      then [switch_of ManagementSwitchTypeCDU] else []).

(** [func extractSwitchesfromReservations(subnet *IPV4Subnet)]: the first
    result; the error is always nil. *)
Definition extractSwitchesfromReservations (subnet : IPV4Subnet.t)
  : list ManagementSwitch :=
  flat_map extractSwitches_entry (IPV4Subnet.IPReservations subnet).
End Switches.

End cmd.

(* ================================================================== *)
(** * Vocabulary of the statements *)

Import net csi.

(** Dotted-quad notation for the examples. *)
Definition ip4 (a b c d : Z) : IP :=
  [uint8_of_Z a; uint8_of_Z b; uint8_of_Z c; uint8_of_Z d].

(** A subnet of the examples: its name and its block. *)
Definition subnet (name : string) (cidr : IPNet.t) : IPV4Subnet.t :=
  IPV4Subnet.mk EmptyString cidr [] name EmptyString 0 EmptyString
    [] [] [] [] [].

(** A network of the examples: its block and its subnets. *)
Definition network (cidr : IPNet.t) (subnets : list IPV4Subnet.t)
  : IPV4Network.t :=
  IPV4Network.mk EmptyString cidr subnets "NMN" [] 0 EmptyString EmptyString.

(** The subnet 10.0.0.0/24 with the reservations [rs]. *)
Definition subnet_10_0_0_0_24 (rs : list IPReservation.t) : IPV4Subnet.t :=
  IPV4Subnet.mk EmptyString (IPNet.mk (ip4 10 0 0 0) (CIDRMask 24 32)) rs
    EmptyString EmptyString 0 EmptyString [] [] [] [] [].

(** The addresses [z], [z+1], ..., [z+k-1]. *)
Definition consecutive (z : Z) (k : nat) : list IP :=
  map (fun i => ipam.decimalToIP (z + Z.of_nat i)) (seq 0 k).

(** A batch of [AddReservation] calls on one subnet, one per (name,
    comment) pair, in order. *)
Definition AddReservations (iSubnet : IPV4Subnet.t)
           (requests : list (string * string)) : IPV4Subnet.t :=
  fold_left (fun s r => fst (AddReservation s (fst r) (snd r)))
            requests iSubnet.

(** The number of subnets of the network whose name is exactly [name]. *)
Definition matches (iNet : IPV4Network.t) (name : string) : nat :=
  length (filter (fun v => String.eqb (IPV4Subnet.Name v) name)
                 (IPV4Network.Subnets iNet)).

(** [v], at position [i], is the first subnet of the network, in insertion
    order, whose name the relation [same] accepts. *)
Definition first_with (same : string -> bool) (iNet : IPV4Network.t)
           (i : nat) (v : IPV4Subnet.t) : Prop :=
  nth_error (IPV4Network.Subnets iNet) i = Some v
  /\ same (IPV4Subnet.Name v) = true
  /\ forall j w, (j < i)%nat ->
                 nth_error (IPV4Network.Subnets iNet) j = Some w ->
                 same (IPV4Subnet.Name w) = false.

(** The positions, from [i] on, of the subnets named [name]. *)
Fixpoint positions (name : string) (i : nat) (subnets : list IPV4Subnet.t)
  : list nat :=
  match subnets with
  | [] => []
  | v :: rest =>
      if String.eqb (IPV4Subnet.Name v) name
      then i :: positions name (S i) rest
      else positions name (S i) rest
  end.

(** Rounding down to a multiple of [2 ^ h]. *)
Definition align (h x : Z) : Z := 2 ^ h * (x / 2 ^ h).

(* ------------------------------------------------------------------ *)
(** Vocabulary of the properties of the remaining functions *)

(** [f i x] for every entry [x] of a list, [i] being its position counted
    from [i0]. *)
Fixpoint mapi {A B : Type} (f : nat -> A -> B) (i0 : nat) (l : list A)
  : list B :=
  match l with
  | [] => []
  | x :: rest => f i0 x :: mapi f (S i0) rest
  end.

(** The requests of one loop of [ReserveNetMgmtIPs]: entry [i] of
    [comments], counted from 0, under the name [prefix] followed by [i+1]
    in three digits. *)
Definition numbered (prefix : string) (comments : list string)
  : list (string * string) :=
  mapi (fun i comment =>
          (String.append prefix (fmt.d03 (Z.of_nat i + 1)), comment))
       0 comments.

(** The requests of [ReserveNetMgmtIPs], in the order of its five loops. *)
Definition mgmt_requests (spines leafs aggs cdus : list string)
           (additional : Z) : list (string * string) :=
  numbered "sw-spine-" spines ++ numbered "sw-leaf-" leafs
  ++ numbered "sw-agg-" aggs ++ numbered "sw-cdu-" cdus
  ++ numbered "mgmt-net-stub-" (repeat EmptyString (Z.to_nat additional)).

(** One reservation per request, request [i] at the address [z + i], with
    no alias. *)
Definition entries (z : Z) (i0 : nat) (requests : list (string * string))
  : list IPReservation.t :=
  mapi (fun i r => IPReservation.mk (ipam.decimalToIP (z + Z.of_nat i))
                                    (fst r) (snd r) [])
       i0 requests.

(** The switches of one kind that [extractSwitchesfromReservations] reads
    back: entry [i] of [xnames] under its numbered name, at the address
    [z + i]. *)
Definition switches {S T : Type} (new_switch : string -> string -> T -> IP -> S)
           (switchType : T) (prefix : string) (z : Z) (xnames : list string)
  : list S :=
  mapi (fun i xname =>
          new_switch xname (String.append prefix (fmt.d03 (Z.of_nat i + 1)))
                     switchType (ipam.decimalToIP (z + Z.of_nat i)))
       0 xnames.

(** One step of [ReservationsByName]: the entry of the reservation's name is
    set to the reservation. *)
Definition by_name (m : gomap.t IPReservation.t) (v : IPReservation.t)
  : gomap.t IPReservation.t :=
  gomap.set m (IPReservation.Name v) v.

(** The cabinets that [GenSubnets] visits for a cabinet type, in order:
    those of the groups of that kind, each with its position in its
    group. *)
Definition cabinets_of (cabinetType : string)
           (cabinetDetails : list CabinetGroupDetail.t)
  : list (Z * CabinetDetail.t) :=
  flat_map (fun group =>
              if String.eqb cabinetType (CabinetGroupDetail.Kind group)
              then mapi (fun j i => (Z.of_nat j, i)) 0
                        (CabinetGroupDetail.CabinetDetails group)
              else [])
           cabinetDetails.

(** [v] is the subnet of the cabinet [snd ji], at position [fst ji] of its
    group, in the network [iNet]. *)
Definition cabinet_subnet (iNet : IPV4Network.t) (ji : Z * CabinetDetail.t)
           (v : IPV4Subnet.t) : Prop :=
  IPV4Subnet.Name v
  = String.append "cabinet_" (fmt.d (CabinetDetail.ID (snd ji)))
  /\ Some (IPV4Subnet.VlanID v)
     = (if CabinetDetail.VlanID (snd ji) =? 0
        then option_map (fun first => int16_wrap (int16_wrap (fst ji) + first))
                        (hd_error (IPV4Network.VlanRange iNet))
        else Some (CabinetDetail.VlanID (snd ji)))
  /\ IPV4Subnet.Gateway v = ipam.Add (IPNet.IP (IPV4Subnet.CIDR v)) 1
  /\ IPV4Subnet.DHCPStart v = ipam.Add (IPNet.IP (IPV4Subnet.CIDR v)) 2
  /\ IPV4Subnet.DHCPEnd v
     = ipam.Add (ipam.Broadcast (IPV4Subnet.CIDR v)) (-1)
  /\ IPV4Subnet.IPReservations v = []
  /\ IPV4Subnet.NetName v = EmptyString.

(** The blocks [cidrs] are what [ipam.Free] gives one after the other in
    [myNet], each one with [taken] and the earlier ones allocated. *)
Fixpoint freed (myNet : IPNet.t) (mask : IPMask.t) (taken cidrs : list IPNet.t)
  : Prop :=
  match cidrs with
  | [] => True
  | cidr :: rest =>
      ipam.Free myNet mask taken = (cidr, None)
      /\ freed myNet mask (taken ++ [cidr]) rest
  end.

(** A network of the examples with a VLAN range: 10.100.0.0/22, VLANs
    from 2000 on. *)
Definition hmn_10_100_0_0_22 : IPV4Network.t :=
  IPV4Network.mk EmptyString (IPNet.mk (ip4 10 100 0 0) (CIDRMask 22 32)) []
                 "HMN" [2000; 2999] 9000 EmptyString EmptyString.

(** One group of two river cabinets, 3000 and 3001, with no VLAN id of
    their own. *)
Definition river_3000_3001 : list CabinetGroupDetail.t :=
  [CabinetGroupDetail.mk "river" 2 3000
     [CabinetDetail.mk 3000 EmptyString 0;
      CabinetDetail.mk 3001 EmptyString 0]].

(** The network that [GenSubnets] leaves; the network itself when the
    call does not succeed. *)
Definition generated (iNet : IPV4Network.t)
           (cabinetDetails : list CabinetGroupDetail.t) (mask : IPMask.t)
           (cabinetType : string) : IPV4Network.t :=
  match GenSubnets iNet cabinetDetails mask cabinetType with
  | Done (iNet', None) => iNet'
  | _ => iNet
  end.

(** Text written in ASCII: every byte is below 128. *)
Definition ascii_text (s : string) : bool :=
  forallb (fun c => Nat.ltb (nat_of_ascii c) 128) (list_ascii_of_string s).

(** Every subnet of the network has a name written in ASCII. *)
Definition ascii_names (iNet : IPV4Network.t) : bool :=
  forallb (fun v => ascii_text (IPV4Subnet.Name v)) (IPV4Network.Subnets iNet).

(** Closes goals about remainders modulo the size of the address range. *)
Ltac range32 :=
  change (2 ^ 32) with 4294967296 in *; Z.div_mod_to_equations; lia.

(* ================================================================== *)
(** * Facts about bytes and addresses *)

Lemma uint8_to_Z_range (b : uint8) : 0 <= uint8_to_Z b < 256.
Proof.
  unfold uint8_to_Z. pose proof (Byte.to_N_bounded b). lia.
Qed.

Lemma uint8_to_of_Z (z : Z) : uint8_to_Z (uint8_of_Z z) = z mod 256.
Proof.
  unfold uint8_to_Z, uint8_of_Z.
  pose proof (Z.mod_pos_bound z 256 eq_refl) as Hr.
  destruct (Byte.of_N (Z.to_N (z mod 256))) as [b|] eqn:E.
  - apply Byte.to_of_N in E. rewrite E. apply Z2N.id. lia.
  - apply Byte.of_N_None_iff in E. lia.
Qed.

Lemma uint8_of_to_Z (b : uint8) : uint8_of_Z (uint8_to_Z b) = b.
Proof.
  pose proof (uint8_to_Z_range b) as Hr.
  unfold uint8_of_Z. rewrite Z.mod_small by exact Hr.
  unfold uint8_to_Z. rewrite N2Z.id, Byte.of_to_N. reflexivity.
Qed.

Lemma uint8_of_Z_mod (x y : Z) :
  x mod 256 = y mod 256 -> uint8_of_Z x = uint8_of_Z y.
Proof. unfold uint8_of_Z. intros ->. reflexivity. Qed.

Lemma bytes_eqb_eq (a b : list uint8) : bytes_eqb a b = true <-> a = b.
Proof.
  revert b. induction a as [|x a IH]; intros [|y b]; simpl;
    try (split; [discriminate | discriminate]); try tauto.
  rewrite andb_true_iff, IH. split.
  - intros [Hxy ->]. apply Byte.byte_dec_bl in Hxy. now subst.
  - intros [= -> ->]. split; [apply Byte.byte_dec_lb|]; reflexivity.
Qed.

Lemma bytes_eqb_refl (a : list uint8) : bytes_eqb a a = true.
Proof. now apply bytes_eqb_eq. Qed.

Lemma Equal_refl (ip : IP) : Equal ip ip = true.
Proof. unfold Equal. rewrite Nat.eqb_refl. apply bytes_eqb_refl. Qed.

Lemma decimalToIP_length (z : Z) : length (ipam.decimalToIP z) = 4%nat.
Proof. reflexivity. Qed.

Lemma ipToDecimal_range (ip : IP) : 0 <= ipam.ipToDecimal ip < 2 ^ 32.
Proof.
  unfold ipam.ipToDecimal.
  set (bs := firstn 4 _).
  assert (Hlen : (length bs <= 4)%nat) by apply firstn_le_length.
  clearbody bs. unfold ipam.be_uint32.
  destruct bs as [|b0 [|b1 [|b2 [|b3 [|b4 bs]]]]]; simpl in *; try lia;
    repeat match goal with
           | |- context [uint8_to_Z ?b] =>
               lazymatch goal with
               | _ : 0 <= uint8_to_Z b < 256 |- _ => fail
               | _ => pose proof (uint8_to_Z_range b)
               end
           end; lia.
Qed.

Lemma ipToDecimal_decimalToIP (z : Z) :
  ipam.ipToDecimal (ipam.decimalToIP z) = z mod 2 ^ 32.
Proof.
  unfold ipam.ipToDecimal, ipam.decimalToIP, ipam.be_uint32.
  cbn [length Nat.eqb IPv6len firstn fold_left].
  rewrite !uint8_to_of_Z, !Z.shiftr_div_pow2 by lia.
  change (2 ^ 24) with 16777216. change (2 ^ 16) with 65536.
  change (2 ^ 8) with 256. change (2 ^ 32) with 4294967296.
  Z.div_mod_to_equations. lia.
Qed.

Lemma decimalToIP_mod (a b : Z) :
  a mod 2 ^ 32 = b mod 2 ^ 32 -> ipam.decimalToIP a = ipam.decimalToIP b.
Proof.
  intros H. unfold ipam.decimalToIP.
  rewrite !Z.shiftr_div_pow2 by lia.
  change (2 ^ 24) with 16777216. change (2 ^ 16) with 65536.
  change (2 ^ 8) with 256. change (2 ^ 32) with 4294967296 in H.
  repeat (apply f_equal2;
          [apply uint8_of_Z_mod; Z.div_mod_to_equations; lia|]).
  reflexivity.
Qed.

Lemma decimalToIP_inj (a b : Z) :
  ipam.decimalToIP a = ipam.decimalToIP b -> a mod 2 ^ 32 = b mod 2 ^ 32.
Proof.
  intros H. rewrite <- !ipToDecimal_decimalToIP. now rewrite H.
Qed.

(** Addresses that [Equal] identifies are the same integer. *)
Lemma Equal_ipToDecimal (x y : IP) :
  Equal x y = true -> ipam.ipToDecimal x = ipam.ipToDecimal y.
Proof.
  unfold Equal, ipam.ipToDecimal, IPv4len, IPv6len.
  destruct (Nat.eqb (length x) (length y)) eqn:Hl.
  { intros H. apply bytes_eqb_eq in H. now subst. }
  destruct (Nat.eqb (length x) 4) eqn:Hx4, (Nat.eqb (length y) 16) eqn:Hy16,
           (Nat.eqb (length x) 16) eqn:Hx16, (Nat.eqb (length y) 4) eqn:Hy4;
    cbn [andb]; try discriminate;
    repeat match goal with
           | H : Nat.eqb _ _ = true |- _ => apply Nat.eqb_eq in H
           end;
    try lia;
    rewrite andb_true_iff; intros [_ H]; apply bytes_eqb_eq in H;
    now rewrite H.
Qed.

Lemma Equal_decimalToIP (a b : Z) :
  Equal (ipam.decimalToIP a) (ipam.decimalToIP b) = true
  <-> a mod 2 ^ 32 = b mod 2 ^ 32.
Proof.
  split; intros H.
  - apply Equal_ipToDecimal in H. now rewrite !ipToDecimal_decimalToIP in H.
  - rewrite (decimalToIP_mod a b H). apply Equal_refl.
Qed.

(** [Add] steps the integer of the address, modulo the address range. *)
Lemma Add_decimalToIP (z n : Z) :
  ipam.Add (ipam.decimalToIP z) n = ipam.decimalToIP (z + n).
Proof.
  unfold ipam.Add. rewrite ipToDecimal_decimalToIP.
  apply decimalToIP_mod. now rewrite Zplus_mod_idemp_l.
Qed.

Lemma ipToDecimal_Add (ip : IP) (n : Z) :
  ipam.ipToDecimal (ipam.Add ip n) = (ipam.ipToDecimal ip + n) mod 2 ^ 32.
Proof. unfold ipam.Add. apply ipToDecimal_decimalToIP. Qed.

(* ================================================================== *)
(** * Reservations *)

Lemma consecutive_length (z : Z) (k : nat) : length (consecutive z k) = k.
Proof. unfold consecutive. now rewrite length_map, length_seq. Qed.

Lemma consecutive_cons (z : Z) (k : nat) :
  consecutive z (S k) = ipam.decimalToIP z :: consecutive (z + 1) k.
Proof.
  unfold consecutive. cbn [seq map]. rewrite Z.add_0_r. f_equal.
  rewrite <- seq_shift, map_map. apply map_ext. intros i.
  f_equal. lia.
Qed.

Lemma consecutive_snoc (z : Z) (k : nat) :
  consecutive z (S k)
  = consecutive z k ++ [ipam.decimalToIP (z + Z.of_nat k)].
Proof. unfold consecutive. now rewrite seq_S, map_app. Qed.

Lemma consecutive_nth_error (z : Z) (k i : nat) :
  (i < k)%nat ->
  nth_error (consecutive z k) i = Some (ipam.decimalToIP (z + Z.of_nat i)).
Proof.
  intros Hi. unfold consecutive.
  rewrite nth_error_map, nth_error_seq.
  destruct (Nat.ltb_spec i k); [reflexivity | lia].
Qed.

(** Over a run of consecutive addresses that starts at the probe, the
    single pass of [AddReservation] steps the probe past the whole run. *)
Lemma AddReservation_loop_consecutive (k : nat) (z : Z) :
  AddReservation_loop (consecutive z k) (ipam.decimalToIP z)
  = ipam.decimalToIP (z + Z.of_nat k).
Proof.
  revert z. induction k as [|k IH]; intros z.
  - cbn. now rewrite Z.add_0_r.
  - rewrite consecutive_cons. cbn [AddReservation_loop].
    rewrite Equal_refl, Add_decimalToIP, IH. f_equal. lia.
Qed.

Lemma AddReservation_CIDR (s : IPV4Subnet.t) (name comment : string) :
  IPV4Subnet.CIDR (fst (AddReservation s name comment)) = IPV4Subnet.CIDR s.
Proof. reflexivity. Qed.

(** On a subnet whose reservations are the first [k] addresses from offset
    2 on, in order, [AddReservation] appends the address at offset
    [2 + k]. *)
Lemma AddReservation_consecutive (s : IPV4Subnet.t) (name comment : string)
      (k : nat) :
  let z := ipam.ipToDecimal (IPNet.IP (IPV4Subnet.CIDR s)) + 2 in
  ReservedIPs s = consecutive z k ->
  ReservedIPs (fst (AddReservation s name comment)) = consecutive z (S k).
Proof.
  intros z H. unfold AddReservation, ReservedIPs in *. cbn [fst].
  cbn [IPV4Subnet.set_IPReservations IPV4Subnet.IPReservations].
  rewrite map_app, H. cbn [map IPReservation.IPAddress].
  rewrite consecutive_snoc. f_equal. f_equal.
  unfold ipam.Add. fold z. apply AddReservation_loop_consecutive.
Qed.

Lemma AddReservations_CIDR (requests : list (string * string))
      (s : IPV4Subnet.t) :
  IPV4Subnet.CIDR (AddReservations s requests) = IPV4Subnet.CIDR s.
Proof.
  revert s. induction requests as [|r rs IH]; intros s; [reflexivity|].
  cbn [AddReservations fold_left]. fold (AddReservations
    (fst (AddReservation s (fst r) (snd r))) rs).
  now rewrite IH.
Qed.

Lemma AddReservations_consecutive (requests : list (string * string))
      (s : IPV4Subnet.t) (k : nat) :
  let z := ipam.ipToDecimal (IPNet.IP (IPV4Subnet.CIDR s)) + 2 in
  ReservedIPs s = consecutive z k ->
  ReservedIPs (AddReservations s requests)
  = consecutive z (k + length requests).
Proof.
  revert s k. induction requests as [|r rs IH]; intros s k z H.
  - cbn. now rewrite Nat.add_0_r.
  - cbn [AddReservations fold_left length].
    fold (AddReservations (fst (AddReservation s (fst r) (snd r))) rs).
    rewrite (IH _ (S k)).
    + rewrite AddReservation_CIDR. fold z. f_equal. lia.
    + rewrite AddReservation_CIDR. now apply AddReservation_consecutive.
Qed.

(** Distinct positions of a run shorter than the address range hold
    addresses that [Equal] tells apart. *)
Lemma consecutive_distinct (z : Z) (k i j : nat) (a b : IP) :
  Z.of_nat k <= 2 ^ 32 ->
  nth_error (consecutive z k) i = Some a ->
  nth_error (consecutive z k) j = Some b ->
  i <> j -> Equal a b = false.
Proof.
  intros Hk Ha Hb Hij.
  assert (Hi : (i < k)%nat).
  { rewrite <- (consecutive_length z k). apply nth_error_Some. congruence. }
  assert (Hj : (j < k)%nat).
  { rewrite <- (consecutive_length z k). apply nth_error_Some. congruence. }
  rewrite consecutive_nth_error in Ha, Hb by assumption.
  injection Ha as <-. injection Hb as <-.
  destruct (Equal _ _) eqn:E; [|reflexivity].
  apply Equal_decimalToIP in E.
  exfalso. range32.
Qed.

(** C1 (code at the failing input): in 10.0.0.0/24 with the reservations
    10.0.0.3 and 10.0.0.2, made in that order by [AddReservationWithPin],
    [AddReservation] appends 10.0.0.3, an address that is already in the
    reservation list, and not 10.0.0.4, the smallest address from offset 2
    on that is not: its single pass over the list meets 10.0.0.3 before
    the probe has reached it. *)
Example C1_AddReservation_repeats_pinned_address :
  let pinned :=
    fst (AddReservationWithPin
           (fst (AddReservationWithPin (subnet_10_0_0_0_24 [])
                   "x" EmptyString Byte.x03))
           "y" EmptyString Byte.x02) in
  let reserved ip := existsb (Equal ip) (ReservedIPs pinned) in
  ReservedIPs pinned = [ip4 10 0 0 3; ip4 10 0 0 2]
  /\ ReservedIPs (fst (AddReservation pinned "z" EmptyString))
     = [ip4 10 0 0 3; ip4 10 0 0 2; ip4 10 0 0 3]
  /\ reserved (ip4 10 0 0 2) = true
  /\ reserved (ip4 10 0 0 3) = true
  /\ reserved (ip4 10 0 0 4) = false.
Proof. vm_compute. repeat split; reflexivity. Qed.

(** C7: a sequence of [AddReservation] calls on a subnet that starts with
    no reservation makes one reservation per call, the i-th at offset
    [2 + i] from the subnet's address, and (for a sequence no longer than
    the address range) no two of the addresses are equal; in the empty
    10.0.0.0/24, "a", "b", "c" get 10.0.0.2, 10.0.0.3 and 10.0.0.4. *)
Theorem C7_AddReservation_addresses_pairwise_distinct :
  (forall (s : IPV4Subnet.t) (requests : list (string * string)),
      IPV4Subnet.IPReservations s = [] ->
      Z.of_nat (length requests) <= 2 ^ 32 ->
      let addresses := ReservedIPs (AddReservations s requests) in
      length addresses = length requests
      /\ (forall i, (i < length requests)%nat ->
                    nth_error addresses i
                    = Some (ipam.Add (IPNet.IP (IPV4Subnet.CIDR s))
                                     (2 + Z.of_nat i)))
      /\ (forall i j a b,
             nth_error addresses i = Some a ->
             nth_error addresses j = Some b ->
             i <> j -> Equal a b = false))
  /\ ReservedIPs
       (AddReservations (subnet_10_0_0_0_24 [])
          [("a", EmptyString); ("b", EmptyString); ("c", EmptyString)]%string)
     = [ip4 10 0 0 2; ip4 10 0 0 3; ip4 10 0 0 4].
Proof.
  split; [|vm_compute; reflexivity].
  intros s requests Hempty Hlen addresses.
  assert (Hrun : addresses
                 = consecutive
                     (ipam.ipToDecimal (IPNet.IP (IPV4Subnet.CIDR s)) + 2)
                     (length requests)).
  { subst addresses.
    rewrite (AddReservations_consecutive requests s 0); [reflexivity|].
    unfold ReservedIPs. now rewrite Hempty. }
  rewrite Hrun. split; [apply consecutive_length|]. split.
  - intros i Hi. rewrite consecutive_nth_error by assumption.
    unfold ipam.Add. do 2 f_equal. lia.
  - intros i j a b. now apply consecutive_distinct.
Qed.

(** C7, at three requests on the empty 10.0.0.0/24. *)
Lemma C7_witness :
  let requests :=
    [("a", EmptyString); ("b", EmptyString); ("c", EmptyString)]%string in
  let addresses :=
    ReservedIPs (AddReservations (subnet_10_0_0_0_24 []) requests) in
  length addresses = length requests
  /\ (forall i, (i < length requests)%nat ->
                nth_error addresses i
                = Some (ipam.Add (ip4 10 0 0 0) (2 + Z.of_nat i)))
  /\ (forall i j a b,
         nth_error addresses i = Some a ->
         nth_error addresses j = Some b ->
         i <> j -> Equal a b = false).
Proof.
  apply (proj1 C7_AddReservation_addresses_pairwise_distinct
               (subnet_10_0_0_0_24 [])).
  - reflexivity.
  - cbn [length]. lia.
Defined.

(* ================================================================== *)
(** * The DHCP range *)

Lemma int_wrap_small (z : Z) : - 2 ^ 63 <= z < 2 ^ 63 -> int_wrap z = z.
Proof.
  intros H. unfold int_wrap. rewrite Z.mod_small; lia.
Qed.

(** A subnet whose mask is at most 128 bits long (every mask of Go's [net]
    package is) has fewer usable addresses than there are IPv4
    addresses. *)
Lemma UsableHostAddresses_bound (s : IPV4Subnet.t) :
  (IPMask.ones (IPNet.Mask (IPV4Subnet.CIDR s)) <= 128)%nat ->
  UsableHostAddresses s < 2 ^ 32.
Proof.
  intros Hm. unfold UsableHostAddresses, TotalIPAddresses, IPMask.Size.
  cbn [fst].
  set (m := Z.of_nat (IPMask.ones (IPNet.Mask (IPV4Subnet.CIDR s)))).
  assert (Hm' : 0 <= m <= 128) by (subst m; lia). clearbody m.
  destruct (Z.eqb_spec m 32); [lia|].
  destruct (Z.eqb_spec m 31); [lia|].
  destruct (Z.leb_spec 64 ((31 - m) mod 2 ^ 64)) as [Hc|Hc].
  - rewrite int_wrap_small; lia.
  - assert (Hlt : m < 31).
    { destruct (Z.lt_ge_cases m 31) as [|Hge]; [assumption|].
      exfalso. change (2 ^ 64) with 18446744073709551616 in Hc.
      Z.div_mod_to_equations. lia. }
    rewrite Z.mod_small in * by lia.
    rewrite Z.shiftl_mul_pow2 by lia.
    assert (Hp : 2 ^ (31 - m) <= 2 ^ 31)
      by (apply Z.pow_le_mono_r; lia).
    assert (Hp0 : 0 < 2 ^ (31 - m)) by (apply Z.pow_pos_nonneg; lia).
    change (2 ^ 31) with 2147483648 in Hp.
    rewrite !int_wrap_small; rewrite ?int_wrap_small; lia.
Qed.

(** The usable addresses of a /31, a /32, a /30 and a /24. *)
Lemma UsableHostAddresses_examples :
  let usable k :=
    UsableHostAddresses
      (subnet EmptyString (IPNet.mk (ip4 10 0 0 0) (CIDRMask k 32))) in
  usable 31 = 2 /\ usable 32 = 1 /\ usable 30 = 2 /\ usable 24 = 254.
Proof. vm_compute. repeat split; reflexivity. Qed.

Lemma NetIPInSlice_pos (a : IP) (l : list IP) :
  0 < ipam.NetIPInSlice a l -> exists b, In b l /\ Equal b a = true.
Proof.
  unfold ipam.NetIPInSlice. intros H.
  destruct (filter (fun b => Equal b a) l) as [|b rest] eqn:E;
    [cbn in H; lia|].
  exists b. apply (proj1 (filter_In (fun b => Equal b a) b l)).
  rewrite E. now left.
Qed.


(** When the loop of [UpdateDHCPRange] uses up its steps, every probe it
    made was a reserved address. *)
Lemma UpdateDHCPRange_loop_None (steps : nat) (res : list IP) :
  forall (z : Z) (start : IP),
    UpdateDHCPRange_loop steps res (ipam.decimalToIP z) start = None ->
    forall i, (i <= steps)%nat ->
              0 < ipam.NetIPInSlice (ipam.decimalToIP (z + Z.of_nat i)) res.
Proof.
  induction steps as [|steps IH]; intros z start H i Hi.
  - assert (i = 0%nat) as -> by lia. cbn [UpdateDHCPRange_loop] in H.
    rewrite Z.add_0_r.
    destruct (Z.ltb_spec 0 (ipam.NetIPInSlice (ipam.decimalToIP z) res));
      [assumption | discriminate].
  - cbn [UpdateDHCPRange_loop] in H.
    destruct (Z.ltb_spec 0 (ipam.NetIPInSlice (ipam.decimalToIP z) res))
      as [Hpos|]; [|discriminate].
    destruct i as [|i]; [now rewrite Z.add_0_r|].
    rewrite Add_decimalToIP in H.
    replace (z + Z.of_nat (S i)) with (z + 1 + Z.of_nat i) by lia.
    apply (IH _ _ H). lia.
Qed.

(** There are not enough reservations for that: one step per reservation
    is all the loop can take. *)
Lemma UpdateDHCPRange_loop_Some (res : list IP) (z : Z) (start : IP) :
  Z.of_nat (length res) < 2 ^ 32 ->
  exists r, UpdateDHCPRange_loop (length res) res (ipam.decimalToIP z) start
            = Some r.
Proof.
  intros Hlen.
  destruct (UpdateDHCPRange_loop (length res) res (ipam.decimalToIP z) start)
    as [r|] eqn:E; [now exists r|].
  exfalso.
  pose proof (UpdateDHCPRange_loop_None _ _ _ _ E) as Hprobes.
  set (f := fun i : nat => (z + Z.of_nat i) mod 2 ^ 32).
  assert (Hnodup : NoDup (map f (seq 0 (S (length res))))).
  { apply NoDup_map_NoDup_ForallPairs; [|apply seq_NoDup].
    intros i j Hi Hj Hf. apply in_seq in Hi, Hj. unfold f in Hf.
    range32. }
  assert (Hincl : incl (map f (seq 0 (S (length res))))
                       (map ipam.ipToDecimal res)).
  { intros v Hv. apply in_map_iff in Hv. destruct Hv as [i [<- Hi]].
    apply in_seq in Hi.
    destruct (NetIPInSlice_pos _ _ (Hprobes i ltac:(lia))) as [b [Hb Heq]].
    apply Equal_ipToDecimal in Heq.
    rewrite ipToDecimal_decimalToIP in Heq.
    apply in_map_iff. exists b. split; [exact Heq | exact Hb]. }
  pose proof (NoDup_incl_length Hnodup Hincl) as Hle.
  rewrite !length_map, length_seq in Hle. lia.
Qed.

(** [UpdateDHCPRange] exits exactly when there are more reservations than
    usable addresses, and returns otherwise. *)
Lemma UpdateDHCPRange_Fatal_iff (s : IPV4Subnet.t) (hack : bool) :
  (IPMask.ones (IPNet.Mask (IPV4Subnet.CIDR s)) <= 128)%nat ->
  (UpdateDHCPRange s hack = Fatal
   <-> UsableHostAddresses s < Z.of_nat (length (ReservedIPs s)))
  /\ UpdateDHCPRange s hack <> OutOfSteps.
Proof.
  intros Hm. pose proof (UsableHostAddresses_bound s Hm) as Hu.
  unfold UpdateDHCPRange.
  destruct (Z.ltb_spec (UsableHostAddresses s)
                       (Z.of_nat (length (ReservedIPs s)))) as [Hlt|Hge].
  - split; [tauto | discriminate].
  - unfold ipam.Add at 1.
    destruct (UpdateDHCPRange_loop_Some (ReservedIPs s)
                (ipam.ipToDecimal (IPNet.IP (IPV4Subnet.CIDR s))
                 + (Z.of_nat (length (ReservedIPs s)) + 2))
                (ipam.decimalToIP
                   (ipam.ipToDecimal (IPNet.IP (IPV4Subnet.CIDR s))
                    + (Z.of_nat (length (ReservedIPs s)) + 2))))
      as [[ip start] Hr]; [lia|].
    unfold ipam.Add. rewrite Hr.
    split; [split; [discriminate | lia] | discriminate].
Qed.



(** C2 (code at the failing inputs): [UpdateDHCPRange(false)] starts its
    probe at the offset [number of reservations + 2] and looks at no
    reservation higher in the block.  In 10.0.0.0/24 with the one
    reservation 10.0.0.50, made by [AddReservationWithPin], it returns
    with the range 10.0.0.3 to 10.0.0.254 (the broadcast address minus
    one), which holds the reserved 10.0.0.50.  And its collision loop sets
    [DHCPStart] two past the probe while the probe moves by one: with the
    reservations 10.0.0.4 and 10.0.0.6 the probe 10.0.0.4 is reserved,
    [DHCPStart] becomes 10.0.0.6, the next probe 10.0.0.5 is free, and the
    range starts on the reserved 10.0.0.6. *)
Example C2_UpdateDHCPRange_leaves_reserved_addresses_in_range :
  (exists s',
      UpdateDHCPRange
        (fst (AddReservationWithPin (subnet_10_0_0_0_24 [])
                "x" EmptyString Byte.x32)) false
      = Returns s'
      /\ IPV4Subnet.DHCPStart s' = ip4 10 0 0 3
      /\ IPV4Subnet.DHCPEnd s' = ip4 10 0 0 254
      /\ IPV4Subnet.DHCPEnd s'
         = ipam.Add (ipam.Broadcast (IPV4Subnet.CIDR s')) (-1)
      /\ ReservedIPs s' = [ip4 10 0 0 50]
      /\ ipam.ipToDecimal (IPV4Subnet.DHCPStart s')
         <= ipam.ipToDecimal (ip4 10 0 0 50)
         <= ipam.ipToDecimal (IPV4Subnet.DHCPEnd s')
      /\ existsb (Equal (ip4 10 0 0 50)) (ReservedIPs s') = true)
  /\ (exists s',
         UpdateDHCPRange
           (fst (AddReservationWithPin
                   (fst (AddReservationWithPin (subnet_10_0_0_0_24 [])
                           "x" EmptyString Byte.x04))
                   "y" EmptyString Byte.x06)) false
         = Returns s'
         /\ IPV4Subnet.DHCPStart s' = ip4 10 0 0 6
         /\ ReservedIPs s' = [ip4 10 0 0 4; ip4 10 0 0 6]
         /\ existsb (Equal (IPV4Subnet.DHCPStart s')) (ReservedIPs s')
            = true).
Proof.
  split; eexists; (split; [vm_compute; reflexivity|]);
    vm_compute; repeat split; try discriminate.
Qed.



(** C6: whenever [UpdateDHCPRange(true)] completes (the subnet has no more
    reservations than usable addresses), it returns with [DHCPEnd] set to
    [DHCPStart] plus 200, whatever the size of the block. *)
Theorem C6_UpdateDHCPRange_supernet_end_is_start_plus_200 :
  forall s : IPV4Subnet.t,
    (IPMask.ones (IPNet.Mask (IPV4Subnet.CIDR s)) <= 128)%nat ->
    Z.of_nat (length (ReservedIPs s)) <= UsableHostAddresses s ->
    exists s',
      UpdateDHCPRange s true = Returns s'
      /\ IPV4Subnet.DHCPEnd s' = ipam.Add (IPV4Subnet.DHCPStart s') 200
      /\ ipam.ipToDecimal (IPV4Subnet.DHCPEnd s')
         = (ipam.ipToDecimal (IPV4Subnet.DHCPStart s') + 200) mod 2 ^ 32.
Proof.
  intros s Hm Hfits.
  pose proof (UpdateDHCPRange_Fatal_iff s true Hm) as [Hfatal Hsteps].
  destruct (UpdateDHCPRange s true) as [s'| |] eqn:E.
  - clear Hfatal Hsteps. exists s'. split; [reflexivity|].
    assert (Hend : IPV4Subnet.DHCPEnd s'
                   = ipam.Add (IPV4Subnet.DHCPStart s') 200).
    { unfold UpdateDHCPRange in E.
      destruct (_ <? _); [discriminate|].
      destruct (UpdateDHCPRange_loop _ _ _ _) as [[ip start]|];
        [|discriminate].
      injection E as <-. reflexivity. }
    split; [exact Hend|]. rewrite Hend. apply ipToDecimal_Add.
  - assert (UsableHostAddresses s < Z.of_nat (length (ReservedIPs s)))
      by now apply Hfatal.
    lia.
  - now contradiction Hsteps.
Qed.

(** C6, on the four-address block 10.0.0.0/30: the range set is 10.0.0.2
    to 10.0.0.202. *)
Lemma C6_witness :
  exists s',
    UpdateDHCPRange
      (IPV4Subnet.mk EmptyString (IPNet.mk (ip4 10 0 0 0) (CIDRMask 30 32))
         [] EmptyString EmptyString 0 EmptyString [] [] [] [] [])
      true
    = Returns s'
    /\ IPV4Subnet.DHCPEnd s' = ipam.Add (IPV4Subnet.DHCPStart s') 200
    /\ ipam.ipToDecimal (IPV4Subnet.DHCPEnd s')
       = (ipam.ipToDecimal (IPV4Subnet.DHCPStart s') + 200) mod 2 ^ 32.
Proof.
  apply C6_UpdateDHCPRange_supernet_end_is_start_plus_200.
  - vm_compute. lia.
  - vm_compute. discriminate.
Defined.

(* ================================================================== *)
(** * Pinned reservations *)

(** C5: for a subnet whose address is the IPv4 address a.b.c.d, in 4-byte
    or in 16-byte form, [AddReservationWithPin] appends one reservation,
    with the address a.b.c.pin, the name and the comment given, whatever
    reservations the subnet holds; the result points to it.  In
    10.0.0.0/24 a pin of 50 gives 10.0.0.50. *)
Theorem C5_AddReservationWithPin_address :
  (forall (s : IPV4Subnet.t) (name comment : string) (pin a b c d : uint8),
      To4 (IPNet.IP (IPV4Subnet.CIDR s)) = Some [a; b; c; d] ->
      exists r,
        AddReservationWithPin s name comment pin
        = (IPV4Subnet.set_IPReservations s
             (IPV4Subnet.IPReservations s ++ [r]),
           length (IPV4Subnet.IPReservations s))
        /\ IPReservation.IPAddress r = [a; b; c; pin]
        /\ IPReservation.Name r = name
        /\ IPReservation.Comment r = comment)
  /\ (forall (rs : list IPReservation.t) (name comment : string),
         ReservedIPs
           (fst (AddReservationWithPin (subnet_10_0_0_0_24 rs)
                   name comment Byte.x32))
         = ReservedIPs (subnet_10_0_0_0_24 rs) ++ [ip4 10 0 0 50]).
Proof.
  split.
  - intros s name comment pin a b c d H4.
    unfold AddReservationWithPin.
    set (ip := IPNet.IP (IPV4Subnet.CIDR s)) in *.
    eexists. split; [f_equal|].
    + rewrite length_app. cbn [length]. lia.
    + cbn [IPReservation.IPAddress IPReservation.Name IPReservation.Comment].
      split; [|split; reflexivity].
      unfold To4, IPv4len, IPv6len in H4.
      destruct (Nat.eqb (length ip) 4) eqn:E4.
      * injection H4 as ->. reflexivity.
      * destruct (Nat.eqb (length ip) 16) eqn:E16; [|discriminate].
        cbn [andb] in H4.
        destruct (bytes_eqb (firstn 12 ip) v4InV6Prefix); [|discriminate].
        apply Nat.eqb_eq in E16. clearbody ip. clear E4.
        do 16 (destruct ip as [|? ip]; [discriminate E16|]).
        destruct ip; [|discriminate E16].
        cbn [skipn] in H4. injection H4 as -> -> -> ->. reflexivity.
  - intros rs name comment. unfold ReservedIPs.
    cbn [AddReservationWithPin fst subnet_10_0_0_0_24
         IPV4Subnet.set_IPReservations IPV4Subnet.IPReservations].
    rewrite map_app. reflexivity.
Qed.

(** C5, on 10.0.0.0/24 with a reservation already at 10.0.0.50. *)
Lemma C5_witness :
  let s :=
    subnet_10_0_0_0_24
      [IPReservation.mk (ip4 10 0 0 50) "first" EmptyString []] in
  exists r,
    AddReservationWithPin s "second" "x3000c0s1b0" Byte.x32
    = (IPV4Subnet.set_IPReservations s (IPV4Subnet.IPReservations s ++ [r]),
       length (IPV4Subnet.IPReservations s))
    /\ IPReservation.IPAddress r = [Byte.x0a; Byte.x00; Byte.x00; Byte.x32]
    /\ IPReservation.Name r = "second"%string
    /\ IPReservation.Comment r = "x3000c0s1b0"%string.
Proof.
  apply (proj1 C5_AddReservationWithPin_address
               (subnet_10_0_0_0_24
                  [IPReservation.mk (ip4 10 0 0 50) "first" EmptyString []])
               "second"%string "x3000c0s1b0"%string
               Byte.x32 Byte.x0a Byte.x00 Byte.x00 Byte.x00).
  vm_compute. reflexivity.
Defined.

(* ================================================================== *)
(** * Looking subnets up by name *)

Lemma LookUpSubnet_loop_positions (name : string)
      (subnets : list IPV4Subnet.t) :
  forall i found,
    LookUpSubnet_loop name i subnets found
    = found ++ positions name i subnets.
Proof.
  induction subnets as [|v rest IH]; intros i found; cbn.
  - now rewrite app_nil_r.
  - rewrite IH. destruct (String.eqb _ _); [|reflexivity].
    now rewrite <- app_assoc.
Qed.

Lemma positions_length (name : string) (subnets : list IPV4Subnet.t) :
  forall i,
    length (positions name i subnets)
    = length (filter (fun v => String.eqb (IPV4Subnet.Name v) name) subnets).
Proof.
  induction subnets as [|v rest IH]; intros i; cbn; [reflexivity|].
  destruct (String.eqb _ _); cbn; now rewrite IH.
Qed.

Lemma positions_head (name : string) (subnets : list IPV4Subnet.t) :
  forall i p rest,
    positions name i subnets = p :: rest ->
    exists k v,
      p = (i + k)%nat
      /\ nth_error subnets k = Some v
      /\ String.eqb (IPV4Subnet.Name v) name = true
      /\ forall j w, (j < k)%nat -> nth_error subnets j = Some w ->
                     String.eqb (IPV4Subnet.Name w) name = false.
Proof.
  induction subnets as [|v tl IH]; intros i p rest H; cbn in H;
    [discriminate|].
  destruct (String.eqb (IPV4Subnet.Name v) name) eqn:E.
  - injection H as <- _. exists 0%nat, v.
    repeat split; [lia | assumption | intros j w Hj; lia].
  - destruct (IH _ _ _ H) as [k [v' [-> [Hk [Hv' Hmin]]]]].
    exists (S k), v'. repeat split; [lia | assumption | assumption |].
    intros [|j] w Hj Hw; cbn in Hw.
    + now injection Hw as <-.
    + apply (Hmin j w); [lia | assumption].
Qed.

(** C9: [LookUpSubnet] returns the not-found error when no subnet has
    exactly the name; the subnet and no error when exactly one has; and,
    when more than one has, the first of them in insertion order together
    with the error that tells how many were found. *)
Theorem C9_LookUpSubnet_by_number_of_matches :
  forall (iNet : IPV4Network.t) (name : string),
    (matches iNet name = 0%nat ->
     LookUpSubnet iNet name
     = (Fresh IPV4Subnet.zero, Some (ErrSubnetNotFound name)))
    /\ (matches iNet name = 1%nat ->
        exists i v,
          LookUpSubnet iNet name = (InSubnets i, None)
          /\ deref iNet (InSubnets i) = v
          /\ first_with (fun n => String.eqb n name) iNet i v)
    /\ ((1 < matches iNet name)%nat ->
        exists i v,
          LookUpSubnet iNet name
          = (InSubnets i, Some (ErrFoundSubnets (matches iNet name)))
          /\ deref iNet (InSubnets i) = v
          /\ first_with (fun n => String.eqb n name) iNet i v).
Proof.
  intros iNet name. unfold LookUpSubnet, matches, first_with, deref.
  rewrite LookUpSubnet_loop_positions. cbn [app].
  rewrite <- (positions_length name (IPV4Network.Subnets iNet) 0).
  destruct (IPV4Network.Subnets iNet) as [|v0 tl] eqn:Hs.
  { cbn. repeat split; intros; (reflexivity || lia). }
  rewrite <- Hs. replace (Nat.eqb (length _) 0) with false
    by (rewrite Hs; reflexivity).
  destruct (positions name 0 (IPV4Network.Subnets iNet)) as [|p rest] eqn:Hp.
  { cbn. repeat split; intros; (reflexivity || lia). }
  destruct (positions_head _ _ _ _ _ Hp) as [k [v [-> [Hk [Hv Hmin]]]]].
  cbn [Nat.add nth] in *.
  assert (Hnth : nth k (IPV4Network.Subnets iNet) IPV4Subnet.zero = v)
    by (now apply nth_error_nth).
  repeat split.
  - cbn. discriminate.
  - intros H1. rewrite H1. cbn. exists k, v. repeat split; assumption.
  - intros H1. destruct (Nat.eqb_spec (length (k :: rest)) 1); [lia|].
    destruct (Nat.ltb_spec 1 (length (k :: rest))); [|lia].
    exists k, v. repeat split; assumption.
Qed.

(** C9, on a network whose subnets are named "a", "b", "a": "c" is not
    found, "b" is the second subnet, and "a" is the first subnet together
    with the error for two subnets found. *)
Lemma C9_witness :
  let cidr := IPNet.mk (ip4 10 0 0 0) (CIDRMask 16 32) in
  let iNet :=
    network cidr [subnet "a" cidr; subnet "b" cidr; subnet "a" cidr] in
  LookUpSubnet iNet "c"
  = (Fresh IPV4Subnet.zero, Some (ErrSubnetNotFound "c"))
  /\ (exists i v,
         LookUpSubnet iNet "b" = (InSubnets i, None)
         /\ deref iNet (InSubnets i) = v
         /\ first_with (fun n => String.eqb n "b") iNet i v)
  /\ (exists i v,
         LookUpSubnet iNet "a"
         = (InSubnets i, Some (ErrFoundSubnets (matches iNet "a")))
         /\ deref iNet (InSubnets i) = v
         /\ first_with (fun n => String.eqb n "a") iNet i v)
  /\ LookUpSubnet iNet "a" = (InSubnets 0, Some (ErrFoundSubnets 2)).
Proof.
  intros cidr iNet. split; [|split; [|split]].
  - apply (proj1 (C9_LookUpSubnet_by_number_of_matches iNet "c"%string)).
    reflexivity.
  - apply (proj1 (proj2
             (C9_LookUpSubnet_by_number_of_matches iNet "b"%string))).
    reflexivity.
  - apply (proj2 (proj2
             (C9_LookUpSubnet_by_number_of_matches iNet "a"%string))).
    vm_compute. lia.
  - vm_compute. reflexivity.
Defined.

Lemma SubnetbyName_loop_first (name : string) (subnets : list IPV4Subnet.t) :
  forall i v,
    nth_error subnets i = Some v ->
    strings.EqualFold (IPV4Subnet.Name v) name = true ->
    (forall j w, (j < i)%nat -> nth_error subnets j = Some w ->
                 strings.EqualFold (IPV4Subnet.Name w) name = false) ->
    SubnetbyName_loop name subnets = v.
Proof.
  induction subnets as [|v0 tl IH]; intros i v Hi Hv Hmin.
  - destruct i; discriminate.
  - destruct i as [|i]; cbn in Hi |- *.
    + injection Hi as ->. now rewrite Hv.
    + rewrite (Hmin 0%nat v0) by (lia || reflexivity).
      apply (IH i v Hi Hv). intros j w Hj Hw.
      apply (Hmin (S j) w); [lia | exact Hw].
Qed.

Lemma SubnetbyName_loop_none (name : string) (subnets : list IPV4Subnet.t) :
  (forall v, In v subnets ->
             strings.EqualFold (IPV4Subnet.Name v) name = false) ->
  SubnetbyName_loop name subnets = IPV4Subnet.zero.
Proof.
  induction subnets as [|v0 tl IH]; intros H; cbn; [reflexivity|].
  rewrite (H v0) by now left. apply IH. intros v Hv. apply H. now right.
Qed.

(** C10: for a name and subnet names written in ASCII, [SubnetbyName]
    returns (a copy of) the first subnet, in insertion order, whose name
    equals the given one up to the case of its letters, and the blank
    subnet, not an error, when there is none.  [LookUpSubnet] differs on
    both counts: in a network whose one subnet is named "Cabinet_1", the
    name "cabinet_1" finds the subnet through [SubnetbyName] and is not
    found by [LookUpSubnet], and the name "x" gives the blank subnet from
    the one and the not-found error from the other. *)
Theorem C10_SubnetbyName_first_match_ignoring_case :
  (forall (iNet : IPV4Network.t) (name : string),
      ascii_text name = true ->
      ascii_names iNet = true ->
      (forall i v,
          first_with (fun n => strings.EqualFold n name) iNet i v ->
          SubnetbyName iNet name = v)
      /\ ((forall v, In v (IPV4Network.Subnets iNet) ->
                     strings.EqualFold (IPV4Subnet.Name v) name = false) ->
          SubnetbyName iNet name = IPV4Subnet.zero))
  /\ (let cidr := IPNet.mk (ip4 10 0 0 0) (CIDRMask 16 32) in
      let cabinet := subnet "Cabinet_1" cidr in
      let iNet := network cidr [cabinet] in
      strings.EqualFold "Cabinet_1" "cabinet_1" = true
      /\ SubnetbyName iNet "cabinet_1" = cabinet
      /\ LookUpSubnet iNet "cabinet_1"
         = (Fresh IPV4Subnet.zero, Some (ErrSubnetNotFound "cabinet_1"))
      /\ SubnetbyName iNet "x" = IPV4Subnet.zero
      /\ LookUpSubnet iNet "x"
         = (Fresh IPV4Subnet.zero, Some (ErrSubnetNotFound "x"))).
Proof.
  split.
  - intros iNet name _ _. split.
    + intros i v [Hi [Hv Hmin]].
      now apply (SubnetbyName_loop_first name _ i v).
    + apply SubnetbyName_loop_none.
  - vm_compute. repeat split; reflexivity.
Qed.

(** C10, on a network whose subnets are named "other" and "Cabinet_1":
    the name "cabinet_1" gives the second subnet, the name "x" the blank
    one. *)
Lemma C10_witness :
  let cidr := IPNet.mk (ip4 10 0 0 0) (CIDRMask 16 32) in
  let iNet := network cidr [subnet "other" cidr; subnet "Cabinet_1" cidr] in
  SubnetbyName iNet "cabinet_1" = subnet "Cabinet_1" cidr
  /\ SubnetbyName iNet "x" = IPV4Subnet.zero.
Proof.
  intros cidr iNet. split.
  - apply (proj1 (proj1 C10_SubnetbyName_first_match_ignoring_case
                        iNet "cabinet_1"%string eq_refl eq_refl) 1%nat).
    split; [reflexivity|]. split; [vm_compute; reflexivity|].
    intros j w Hj Hw. assert (j = 0%nat) as -> by lia.
    injection Hw as <-. vm_compute. reflexivity.
  - apply (proj2 (proj1 C10_SubnetbyName_first_match_ignoring_case
                        iNet "x"%string eq_refl eq_refl)).
    intros v [<-|[<-|[]]]; vm_compute; reflexivity.
Defined.

(* ================================================================== *)
(** * Blocks *)

(** The first and the last address of a block, by arithmetic: with [h]
    host bits, the first is the address rounded down to a multiple of
    [2 ^ h], and the last is [2 ^ h - 1] further. *)
Lemma first_eq (n : IPNet.t) :
  (IPMask.ones (IPNet.Mask n) <= 32)%nat ->
  let h := 32 - ipam.prefixLen (IPNet.Mask n) in
  ipam.first n = 2 ^ h * (ipam.ipToDecimal (IPNet.IP n) / 2 ^ h).
Proof.
  intros Hm h. unfold ipam.first, ipam.netmask, ipam.hostmask.
  fold h.
  assert (Hh : 0 <= h <= 32)
    by (unfold h, ipam.prefixLen, IPMask.Size; cbn [fst]; lia).
  pose proof (ipToDecimal_range (IPNet.IP n)) as Ha.
  rewrite Z.ldiff_land, Z.land_assoc, Z.land_ones by lia.
  rewrite Z.mod_small by exact Ha.
  rewrite <- Z.ldiff_land, Z.ldiff_ones_r by lia.
  rewrite Z.shiftl_mul_pow2, Z.shiftr_div_pow2 by lia.
  apply Z.mul_comm.
Qed.

Lemma last_eq (n : IPNet.t) :
  (IPMask.ones (IPNet.Mask n) <= 32)%nat ->
  let h := 32 - ipam.prefixLen (IPNet.Mask n) in
  ipam.last n = ipam.first n + 2 ^ h - 1.
Proof.
  intros Hm h. rewrite (first_eq n Hm). fold h.
  unfold ipam.last, ipam.hostmask. fold h.
  assert (Hh : 0 <= h <= 32)
    by (unfold h, ipam.prefixLen, IPMask.Size; cbn [fst]; lia).
  set (a := ipam.ipToDecimal (IPNet.IP n)).
  pose proof (Z.add_lor_land a (Z.ones h)) as Hadd.
  rewrite Z.land_ones in Hadd by lia.
  rewrite Z.ones_equiv in *.
  assert (Hp : 0 < 2 ^ h) by (apply Z.pow_pos_nonneg; lia).
  pose proof (Z.div_mod a (2 ^ h) ltac:(lia)). lia.
Qed.

Lemma first_range (n : IPNet.t) :
  (IPMask.ones (IPNet.Mask n) <= 32)%nat ->
  0 <= ipam.first n <= ipam.ipToDecimal (IPNet.IP n).
Proof.
  intros Hm. rewrite (first_eq n Hm).
  set (h := 32 - ipam.prefixLen (IPNet.Mask n)).
  assert (Hh : 0 <= h <= 32)
    by (unfold h, ipam.prefixLen, IPMask.Size; cbn [fst]; lia).
  pose proof (ipToDecimal_range (IPNet.IP n)) as Ha.
  assert (Hp : 0 < 2 ^ h) by (apply Z.pow_pos_nonneg; lia).
  pose proof (Z.div_mod (ipam.ipToDecimal (IPNet.IP n)) (2 ^ h) ltac:(lia)).
  pose proof (Z.mod_pos_bound (ipam.ipToDecimal (IPNet.IP n)) (2 ^ h) Hp).
  assert (0 <= ipam.ipToDecimal (IPNet.IP n) / 2 ^ h)
    by (apply Z.div_pos; lia).
  nia.
Qed.

Lemma align_idem (h h' x : Z) :
  0 <= h' <= h -> align h' (align h x) = align h x.
Proof.
  intros Hh. unfold align.
  replace (2 ^ h) with (2 ^ h' * 2 ^ (h - h'))
    by (rewrite <- Z.pow_add_r by lia; f_equal; lia).
  assert (Hp : 0 < 2 ^ h') by (apply Z.pow_pos_nonneg; lia).
  rewrite <- !Z.mul_assoc.
  rewrite (Z.mul_comm (2 ^ h') (_ * _)) at 1.
  rewrite Z.div_mul by lia. reflexivity.
Qed.

Lemma align_below (h x y : Z) :
  0 <= h -> align h x <= y < align h x + 2 ^ h -> align h y = align h x.
Proof.
  intros Hh Hy. unfold align in *.
  assert (Hp : 0 < 2 ^ h) by (apply Z.pow_pos_nonneg; lia).
  f_equal. symmetry.
  apply (Z.div_unique_pos y (2 ^ h) (x / 2 ^ h) (y - 2 ^ h * (x / 2 ^ h)));
    lia.
Qed.

Lemma first_align (n : IPNet.t) :
  (IPMask.ones (IPNet.Mask n) <= 32)%nat ->
  ipam.first n
  = align (32 - ipam.prefixLen (IPNet.Mask n))
          (ipam.ipToDecimal (IPNet.IP n)).
Proof. apply first_eq. Qed.

(** Masking an integer of the address range with the mask of a prefix. *)
Lemma land_netmask (m : IPMask.t) (x : Z) :
  (IPMask.ones m <= 32)%nat -> 0 <= x < 2 ^ 32 ->
  Z.land x (ipam.netmask m) = align (32 - ipam.prefixLen m) x.
Proof.
  intros Hm Hx.
  pose proof (first_eq (IPNet.mk (ipam.decimalToIP x) m) Hm) as H.
  unfold ipam.first in H. cbn [IPNet.IP IPNet.Mask] in H.
  rewrite ipToDecimal_decimalToIP, Z.mod_small in H by exact Hx.
  exact H.
Qed.

Lemma host_bits (m : IPMask.t) :
  (IPMask.ones m <= 32)%nat ->
  0 <= 32 - ipam.prefixLen m <= 32 /\ 0 < 2 ^ (32 - ipam.prefixLen m).
Proof.
  intros Hm. unfold ipam.prefixLen, IPMask.Size. cbn [fst].
  split; [lia | apply Z.pow_pos_nonneg; lia].
Qed.

Lemma align_le (h x : Z) : 0 <= h -> 0 <= x -> 0 <= align h x <= x.
Proof.
  intros Hh Hx. unfold align.
  assert (Hp : 0 < 2 ^ h) by (apply Z.pow_pos_nonneg; lia).
  pose proof (Z.div_mod x (2 ^ h) ltac:(lia)).
  pose proof (Z.mod_pos_bound x (2 ^ h) Hp).
  assert (0 <= x / 2 ^ h) by (apply Z.div_pos; lia).
  nia.
Qed.

(** A block aligned to [2 ^ h'] that starts inside a block aligned to
    [2 ^ h], [h' <= h], ends inside it. *)
Lemma align_nested (h h' x : Z) :
  0 <= h' <= h -> 0 <= x ->
  align h' x + 2 ^ h' <= align h (align h' x) + 2 ^ h.
Proof.
  intros Hh Hx. unfold align.
  assert (Hp' : 0 < 2 ^ h') by (apply Z.pow_pos_nonneg; lia).
  assert (Hk : 0 < 2 ^ (h - h')) by (apply Z.pow_pos_nonneg; lia).
  assert (Hsplit : 2 ^ h = 2 ^ h' * 2 ^ (h - h'))
    by (rewrite <- Z.pow_add_r by lia; f_equal; lia).
  set (q := x / 2 ^ h').
  pose proof (Z.div_mod (2 ^ h' * q) (2 ^ h) ltac:(lia)) as Hdm.
  rewrite Hsplit in Hdm at 3. rewrite Z.mul_mod_distr_l in Hdm by lia.
  pose proof (Z.mod_pos_bound q (2 ^ (h - h')) Hk).
  nia.
Qed.

(** [ipam.Contains] is the inclusion of the address ranges. *)
Lemma Contains_range (outer inner : IPNet.t) :
  (IPMask.ones (IPNet.Mask outer) <= 32)%nat ->
  (IPMask.ones (IPNet.Mask inner) <= 32)%nat ->
  ipam.Contains outer inner = true
  <-> ipam.first outer <= ipam.first inner
      /\ ipam.last inner <= ipam.last outer.
Proof.
  intros Ho Hi.
  destruct (host_bits _ Ho) as [Hho Hpo], (host_bits _ Hi) as [Hhi Hpi].
  pose proof (first_range inner Hi) as Hfi.
  pose proof (ipToDecimal_range (IPNet.IP inner)) as Hai.
  pose proof (ipToDecimal_range (IPNet.IP outer)) as Hao.
  unfold ipam.Contains.
  rewrite land_netmask by (assumption || lia).
  rewrite (last_eq outer Ho), (last_eq inner Hi).
  rewrite (first_align outer Ho), (first_align inner Hi) in *.
  set (ho := 32 - ipam.prefixLen (IPNet.Mask outer)) in *.
  set (hi := 32 - ipam.prefixLen (IPNet.Mask inner)) in *.
  set (ao := ipam.ipToDecimal (IPNet.IP outer)) in *.
  set (ai := ipam.ipToDecimal (IPNet.IP inner)) in *.
  rewrite andb_true_iff, Z.eqb_eq, Z.leb_le. split.
  - intros [Hmask Hprefix].
    assert (Hh : 0 <= hi <= ho) by (unfold hi, ho; lia).
    pose proof (align_nested ho hi ai Hh ltac:(lia)) as Hn.
    pose proof (align_le ho (align hi ai) ltac:(lia) ltac:(lia)).
    rewrite Hmask in *. lia.
  - intros [Hfirst Hlast].
    assert (Hpow : 2 ^ hi <= 2 ^ ho) by lia.
    apply Z.pow_le_mono_r_iff in Hpow; [|lia|lia].
    split; [|unfold hi, ho in Hpow; lia].
    apply align_below; lia.
Qed.

Lemma ParseCIDR_first (cidr : IPNet.t) :
  (IPMask.ones (IPNet.Mask cidr) <= 32)%nat ->
  ipam.first (ParseCIDR cidr) = ipam.first cidr.
Proof.
  intros Hm. destruct (host_bits _ Hm) as [Hh Hp].
  pose proof (first_range cidr Hm) as Hf.
  pose proof (ipToDecimal_range (IPNet.IP cidr)) as Ha.
  rewrite (first_align (ParseCIDR cidr)) by exact Hm.
  unfold ParseCIDR. cbn [IPNet.IP IPNet.Mask].
  rewrite ipToDecimal_decimalToIP, Z.mod_small by lia.
  rewrite (first_align cidr Hm). apply align_idem. lia.
Qed.

(** With no sibling allocated, the free-block search returns the block of
    the requested size at the parent's network address. *)
Lemma Free_no_siblings (parent : IPNet.t) (mask : IPMask.t) :
  (IPMask.ones (IPNet.Mask parent) <= IPMask.ones mask <= 32)%nat ->
  ipam.Free parent mask []
  = (IPNet.mk (ipam.decimalToIP (ipam.first parent)) mask, None).
Proof.
  intros [Hle Hm].
  assert (Hp : (IPMask.ones (IPNet.Mask parent) <= 32)%nat) by lia.
  destruct (host_bits _ Hp) as [Hhp Hpp], (host_bits _ Hm) as [Hhm Hpm].
  pose proof (first_range parent Hp) as Hf.
  pose proof (ipToDecimal_range (IPNet.IP parent)) as Ha.
  pose proof (last_eq parent Hp) as Hlast. cbv zeta in Hlast.
  set (candidate := IPNet.mk (ipam.decimalToIP (ipam.first parent)) mask).
  assert (Hcontains : ipam.Contains parent candidate = true).
  { apply Contains_range; [exact Hp | exact Hm |].
    assert (Hfc : ipam.first candidate = ipam.first parent).
    { rewrite (first_align candidate Hm). unfold candidate.
      cbn [IPNet.IP IPNet.Mask].
      rewrite ipToDecimal_decimalToIP, Z.mod_small by lia.
      rewrite (first_align parent Hp). apply align_idem.
      unfold ipam.prefixLen, IPMask.Size. cbn [fst]. lia. }
    rewrite (last_eq candidate Hm), Hlast, Hfc.
    cbn [candidate IPNet.Mask].
    assert (2 ^ (32 - ipam.prefixLen mask)
            <= 2 ^ (32 - ipam.prefixLen (IPNet.Mask parent))).
    { apply Z.pow_le_mono_r; [lia|].
      unfold ipam.prefixLen, IPMask.Size. cbn [fst]. lia. }
    lia. }
  unfold ipam.Free, ipam.candidates.
  assert (Hq : 0 <= (ipam.last parent - ipam.first parent)
                    / ipam.blockSize mask)
    by (apply Z.div_pos; unfold ipam.blockSize; lia).
  destruct (Z.to_nat _) as [|n] eqn:En; [lia|].
  cbn [ipam.search]. fold candidate.
  destruct (Z.ltb_spec (ipam.last parent) (ipam.first parent)); [lia|].
  rewrite Hcontains. reflexivity.
Qed.

(* ================================================================== *)
(** * Adding subnets *)

(** C8: [AddSubnetbyCIDR] returns an error exactly when [ipam.Contains]
    does not hold of the network's block and the requested one, which (for
    prefix lengths of at most 32) is exactly when the requested block's
    address range is not inside the network's.  On success the network has
    one more subnet, the last, with the requested block, name and VLAN id,
    and the result points to it; on error the network is unchanged. *)
Theorem C8_AddSubnetbyCIDR_error_iff_not_contained :
  forall (iNet : IPV4Network.t) (desiredNet : IPNet.t) (name : string)
         (vlanID : Z),
    let myNet := ParseCIDR (IPV4Network.CIDR iNet) in
    let iNet' := fst (AddSubnetbyCIDR iNet desiredNet name vlanID) in
    let result := fst (snd (AddSubnetbyCIDR iNet desiredNet name vlanID)) in
    let err := snd (snd (AddSubnetbyCIDR iNet desiredNet name vlanID)) in
    (err = None <-> ipam.Contains myNet desiredNet = true)
    /\ (err = None ->
        exists sub,
          iNet' = IPV4Network.set_Subnets iNet
                    (IPV4Network.Subnets iNet ++ [sub])
          /\ IPV4Subnet.CIDR sub = desiredNet
          /\ IPV4Subnet.Name sub = name
          /\ IPV4Subnet.VlanID sub = vlanID
          /\ IPV4Subnet.IPReservations sub = []
          /\ result = InSubnets (length (IPV4Network.Subnets iNet))
          /\ deref iNet' result = sub)
    /\ (err <> None ->
        iNet' = iNet /\ err = Some (ErrNotPartOf desiredNet myNet))
    /\ ((IPMask.ones (IPNet.Mask (IPV4Network.CIDR iNet)) <= 32)%nat ->
        (IPMask.ones (IPNet.Mask desiredNet) <= 32)%nat ->
        (err = None
         <-> ipam.first (IPV4Network.CIDR iNet) <= ipam.first desiredNet
             /\ ipam.last desiredNet <= ipam.last (IPV4Network.CIDR iNet))).
Proof.
  intros iNet desiredNet name vlanID myNet iNet' result err.
  assert (Herr : err = None <-> ipam.Contains myNet desiredNet = true).
  { subst err. unfold AddSubnetbyCIDR. fold myNet.
    destruct (ipam.Contains myNet desiredNet); cbn [snd];
      split; (reflexivity || discriminate). }
  split; [exact Herr|]. split; [|split].
  - intros Hok. apply Herr in Hok.
    subst iNet' result. unfold AddSubnetbyCIDR. fold myNet. rewrite Hok.
    cbn [fst snd]. eexists. split; [reflexivity|].
    cbn [IPV4Subnet.CIDR IPV4Subnet.Name IPV4Subnet.VlanID
         IPV4Subnet.IPReservations].
    repeat split.
    + unfold last_index. cbn [IPV4Network.set_Subnets IPV4Network.Subnets].
      rewrite length_app. cbn [length]. f_equal. lia.
    + unfold deref, last_index.
      cbn [IPV4Network.set_Subnets IPV4Network.Subnets].
      rewrite length_app. cbn [length].
      replace (length (IPV4Network.Subnets iNet) + 1 - 1)%nat
        with (length (IPV4Network.Subnets iNet)) by lia.
      now rewrite nth_middle.
  - intros Hfail.
    assert (Hc : ipam.Contains myNet desiredNet = false).
    { destruct (ipam.Contains myNet desiredNet); [|reflexivity].
      exfalso. apply Hfail. now apply Herr. }
    subst iNet' err. unfold AddSubnetbyCIDR. fold myNet. rewrite Hc.
    split; reflexivity.
  - intros Hm Hd. rewrite Herr.
    rewrite (Contains_range myNet desiredNet) by assumption.
    rewrite (last_eq myNet), (last_eq (IPV4Network.CIDR iNet)) by assumption.
    subst myNet. rewrite ParseCIDR_first by assumption. reflexivity.
Qed.

(** C8, on the network 10.0.0.0/25: the block 10.0.0.64/26 is added, the
    block 10.0.0.0/24 is refused. *)
Lemma C8_witness :
  let iNet := network (IPNet.mk (ip4 10 0 0 0) (CIDRMask 25 32)) [] in
  let inside := IPNet.mk (ip4 10 0 0 64) (CIDRMask 26 32) in
  let outside := IPNet.mk (ip4 10 0 0 0) (CIDRMask 24 32) in
  (snd (snd (AddSubnetbyCIDR iNet inside "a" 1)) = None
   <-> ipam.first (IPV4Network.CIDR iNet) <= ipam.first inside
       /\ ipam.last inside <= ipam.last (IPV4Network.CIDR iNet))
  /\ AllocatedSubnets (fst (AddSubnetbyCIDR iNet inside "a" 1)) = [inside]
  /\ (fst (AddSubnetbyCIDR iNet outside "a" 1) = iNet
      /\ snd (snd (AddSubnetbyCIDR iNet outside "a" 1))
         = Some (ErrNotPartOf outside (ParseCIDR (IPV4Network.CIDR iNet)))).
Proof.
  intros iNet inside outside. split; [|split].
  - apply (proj2 (proj2 (proj2
             (C8_AddSubnetbyCIDR_error_iff_not_contained
                iNet inside "a"%string 1))));
      vm_compute; lia.
  - vm_compute. reflexivity.
  - apply (proj1 (proj2 (proj2
             (C8_AddSubnetbyCIDR_error_iff_not_contained
                iNet outside "a"%string 1)))).
    vm_compute. discriminate.
Defined.

(** C3 (code at the failing inputs): the loop of [AddBiggestSubnet] stops
    before the prefix length 29.  A request from /29 (or longer) on fails
    in every network, without a single try.  In the empty network
    10.0.0.0/29 a request from /29 on fails, though [AddSubnet] places a
    /29 there; in 10.0.0.0/28 with 10.0.0.0/29 taken a request from /24 on
    fails, though [AddSubnet] places the /29 block 10.0.0.8/29. *)
Example C3_AddBiggestSubnet_stops_before_29 :
  (forall (iNet : IPV4Network.t) (mask : IPMask.t) (name : string)
          (vlanID : Z),
      29 <= fst (IPMask.Size mask) ->
      AddBiggestSubnet iNet mask name vlanID
      = (iNet, (Fresh IPV4Subnet.zero,
                Some (ErrNoRoom name (IPV4Network.Name iNet)
                                (fst (IPMask.Size mask))))))
  /\ (let n29 := network (IPNet.mk (ip4 10 0 0 0) (CIDRMask 29 32)) [] in
      let taken := IPNet.mk (ip4 10 0 0 0) (CIDRMask 29 32) in
      let n28 :=
        network (IPNet.mk (ip4 10 0 0 0) (CIDRMask 28 32))
                [subnet "first" taken] in
      AddBiggestSubnet n29 (CIDRMask 29 32) "a" 1
      = (n29, (Fresh IPV4Subnet.zero, Some (ErrNoRoom "a" "NMN" 29)))
      /\ snd (AddSubnet n29 (CIDRMask 29 32) "a" 1) = (InSubnets 0, None)
      /\ AllocatedSubnets (fst (AddSubnet n29 (CIDRMask 29 32) "a" 1))
         = [IPNet.mk (ip4 10 0 0 0) (CIDRMask 29 32)]
      /\ AddBiggestSubnet n28 (CIDRMask 24 32) "a" 1
         = (n28, (Fresh IPV4Subnet.zero, Some (ErrNoRoom "a" "NMN" 24)))
      /\ snd (AddSubnet n28 (CIDRMask 29 32) "a" 1) = (InSubnets 1, None)
      /\ AllocatedSubnets (fst (AddSubnet n28 (CIDRMask 29 32) "a" 1))
         = [taken; IPNet.mk (ip4 10 0 0 8) (CIDRMask 29 32)]).
Proof.
  split.
  - intros iNet mask name vlanID Hm. unfold AddBiggestSubnet.
    replace (Z.to_nat (29 - fst (IPMask.Size mask))) with 0%nat by lia.
    reflexivity.
  - vm_compute. repeat split; reflexivity.
Qed.

(** C4: in the network 10.0.0.0/16 with no subnet, three calls of
    [AddSubnet] with a /24 mask return 10.0.0.0/24, 10.0.1.0/24 and
    10.0.2.0/24, in that order.  With no sibling allocated the free-block
    search returns the block of the requested size at the parent's network
    address (for a requested prefix length between the parent's and 32),
    and so [AddSubnet] on a network with no subnet makes that block the
    network's first subnet. *)
Theorem C4_AddSubnet_first_blocks_in_order :
  (let iNet := network (IPNet.mk (ip4 10 0 0 0) (CIDRMask 16 32)) [] in
   let r1 := AddSubnet iNet (CIDRMask 24 32) "a" 1 in
   let r2 := AddSubnet (fst r1) (CIDRMask 24 32) "b" 2 in
   let r3 := AddSubnet (fst r2) (CIDRMask 24 32) "c" 3 in
   (snd r1 = (InSubnets 0, None)
    /\ IPV4Subnet.CIDR (deref (fst r1) (InSubnets 0))
       = IPNet.mk (ip4 10 0 0 0) (CIDRMask 24 32))
   /\ (snd r2 = (InSubnets 1, None)
       /\ IPV4Subnet.CIDR (deref (fst r2) (InSubnets 1))
          = IPNet.mk (ip4 10 0 1 0) (CIDRMask 24 32))
   /\ (snd r3 = (InSubnets 2, None)
       /\ IPV4Subnet.CIDR (deref (fst r3) (InSubnets 2))
          = IPNet.mk (ip4 10 0 2 0) (CIDRMask 24 32)))
  /\ (forall (parent : IPNet.t) (mask : IPMask.t),
         (IPMask.ones (IPNet.Mask parent) <= IPMask.ones mask <= 32)%nat ->
         ipam.Free parent mask []
         = (IPNet.mk (ipam.decimalToIP (ipam.first parent)) mask, None))
  /\ (forall (iNet : IPV4Network.t) (mask : IPMask.t) (name : string)
             (vlanID : Z),
         IPV4Network.Subnets iNet = [] ->
         (IPMask.ones (IPNet.Mask (IPV4Network.CIDR iNet))
          <= IPMask.ones mask <= 32)%nat ->
         exists sub,
           AddSubnet iNet mask name vlanID
           = (IPV4Network.set_Subnets iNet [sub], (InSubnets 0, None))
           /\ IPV4Subnet.CIDR sub
              = IPNet.mk
                  (ipam.decimalToIP (ipam.first (IPV4Network.CIDR iNet)))
                  mask
           /\ IPV4Subnet.Name sub = name
           /\ IPV4Subnet.VlanID sub = vlanID).
Proof.
  split; [vm_compute; repeat split; reflexivity|].
  split; [exact Free_no_siblings|].
  intros iNet mask name vlanID Hempty Hm.
  unfold AddSubnet, AllocatedSubnets. rewrite Hempty. cbn [map].
  rewrite Free_no_siblings by exact Hm.
  rewrite ParseCIDR_first by lia.
  eexists. split; [reflexivity|]. repeat split.
Qed.

(** C4, for a /24 in the parent 10.0.0.0/16 with no sibling. *)
Lemma C4_witness :
  ipam.Free (IPNet.mk (ip4 10 0 0 0) (CIDRMask 16 32)) (CIDRMask 24 32) []
  = (IPNet.mk
       (ipam.decimalToIP
          (ipam.first (IPNet.mk (ip4 10 0 0 0) (CIDRMask 16 32))))
       (CIDRMask 24 32), None)
  /\ ipam.decimalToIP (ipam.first (IPNet.mk (ip4 10 0 0 0) (CIDRMask 16 32)))
     = ip4 10 0 0 0.
Proof.
  split.
  - apply (proj1 (proj2 C4_AddSubnet_first_blocks_in_order)).
    vm_compute. lia.
  - vm_compute. reflexivity.
Defined.

(* ================================================================== *)
(** * More on the address counts and the DHCP range *)

Lemma TotalIPAddresses_by_prefix (s : IPV4Subnet.t) :
  let p := Z.of_nat (IPMask.ones (IPNet.Mask (IPV4Subnet.CIDR s))) in
  (p <= 31 -> TotalIPAddresses s = 2 ^ (32 - p))
  /\ (32 <= p <= 128 -> TotalIPAddresses s = 0).
Proof.
  intros p. unfold TotalIPAddresses, IPMask.Size. cbn [fst]. fold p.
  assert (Hp : 0 <= p) by (unfold p; lia).
  split; intros H.
  - rewrite Z.mod_small
      by (change (2 ^ 64) with 18446744073709551616; lia).
    destruct (Z.leb_spec 64 (31 - p)); [lia|].
    rewrite Z.shiftl_mul_pow2 by lia.
    replace (32 - p) with (Z.succ (31 - p)) by lia.
    rewrite Z.pow_succ_r by lia.
    assert (Hpow : 0 < 2 ^ (31 - p) <= 2 ^ 31)
      by (split; [apply Z.pow_pos_nonneg | apply Z.pow_le_mono_r]; lia).
    change (2 ^ 31) with 2147483648 in Hpow.
    apply int_wrap_small. lia.
  - destruct (Z.leb_spec 64 ((31 - p) mod 2 ^ 64)) as [|Hc]; [reflexivity|].
    exfalso. change (2 ^ 64) with 18446744073709551616 in Hc.
    Z.div_mod_to_equations. lia.
Qed.

Lemma UsableHostAddresses_long_mask (s : IPV4Subnet.t) :
  (32 < IPMask.ones (IPNet.Mask (IPV4Subnet.CIDR s)) <= 128)%nat ->
  UsableHostAddresses s = -2.
Proof.
  intros H. destruct (TotalIPAddresses_by_prefix s) as [_ Hhigh].
  unfold UsableHostAddresses, IPMask.Size. cbn [fst].
  destruct (Z.eqb_spec (Z.of_nat (IPMask.ones (IPNet.Mask (IPV4Subnet.CIDR s))))
                       32); [lia|].
  destruct (Z.eqb_spec (Z.of_nat (IPMask.ones (IPNet.Mask (IPV4Subnet.CIDR s))))
                       31); [lia|].
  rewrite Hhigh by lia. reflexivity.
Qed.

(** X1: the two address counts by the prefix length [p] of the subnet's
    mask.  For [p <= 30], [TotalIPAddresses] is [2 ^ (32 - p)] and
    [UsableHostAddresses] two fewer; a /31 counts 2 and 2; a /32 counts 0
    in total and 1 usable; and a mask longer than 32 bits (an IPv6 mask, up
    to 128 bits) counts 0 in total and -2 usable. *)
Theorem X1_UsableHostAddresses_by_prefix :
  forall s : IPV4Subnet.t,
    let p := Z.of_nat (IPMask.ones (IPNet.Mask (IPV4Subnet.CIDR s))) in
    (p <= 30 ->
     TotalIPAddresses s = 2 ^ (32 - p)
     /\ UsableHostAddresses s = 2 ^ (32 - p) - 2)
    /\ (p = 31 -> TotalIPAddresses s = 2 /\ UsableHostAddresses s = 2)
    /\ (p = 32 -> TotalIPAddresses s = 0 /\ UsableHostAddresses s = 1)
    /\ (33 <= p <= 128 ->
        TotalIPAddresses s = 0 /\ UsableHostAddresses s = -2).
Proof.
  intros s p.
  destruct (TotalIPAddresses_by_prefix s) as [Hlow Hhigh]. fold p in Hlow, Hhigh.
  unfold UsableHostAddresses, IPMask.Size. cbn [fst]. fold p.
  assert (Hp : 0 <= p) by (unfold p; lia).
  split; [|split; [|split]]; intros H; split.
  - apply Hlow. lia.
  - destruct (Z.eqb_spec p 32); [lia|]. destruct (Z.eqb_spec p 31); [lia|].
    rewrite Hlow by lia.
    assert (Hpow : 4 <= 2 ^ (32 - p) <= 2 ^ 32).
    { split; [change 4 with (2 ^ 2)|]; apply Z.pow_le_mono_r; lia. }
    change (2 ^ 32) with 4294967296 in Hpow.
    apply int_wrap_small. lia.
  - rewrite Hlow by lia. now rewrite H.
  - destruct (Z.eqb_spec p 32); [lia|].
    destruct (Z.eqb_spec p 31); [reflexivity|lia].
  - apply Hhigh. lia.
  - destruct (Z.eqb_spec p 32); [reflexivity|lia].
  - apply Hhigh. lia.
  - apply UsableHostAddresses_long_mask. lia.
Qed.

Lemma UpdateDHCPRange_Returns_inv (s s' : IPV4Subnet.t) (flag : bool) :
  UpdateDHCPRange s flag = Returns s' ->
  exists ip start,
    UpdateDHCPRange_loop (length (ReservedIPs s)) (ReservedIPs s)
      (ipam.Add (IPNet.IP (IPV4Subnet.CIDR s))
                (Z.of_nat (length (ReservedIPs s)) + 2))
      (ipam.Add (IPNet.IP (IPV4Subnet.CIDR s))
                (Z.of_nat (length (ReservedIPs s)) + 2))
    = Some (ip, start)
    /\ Z.of_nat (length (ReservedIPs s)) <= UsableHostAddresses s
    /\ s' = IPV4Subnet.set_DHCP s start
              (if flag then ipam.Add start 200
               else ipam.Add (ipam.Broadcast (IPV4Subnet.CIDR s)) (-1)).
Proof.
  unfold UpdateDHCPRange.
  destruct (Z.ltb_spec (UsableHostAddresses s)
                       (Z.of_nat (length (ReservedIPs s)))); [discriminate|].
  destruct (UpdateDHCPRange_loop _ _ _ _) as [[ip start]|]; [|discriminate].
  intros [= <-]. exists ip, start. repeat split. lia.
Qed.

(** X2: on a subnet whose mask has at most 128 bits, [UpdateDHCPRange]
    either exits the process or returns the subnet with only [DHCPStart]
    and [DHCPEnd] changed; its loop never runs out of steps.  It exits
    exactly when there are more reservations than usable addresses, and so
    always when the mask is longer than 32 bits. *)
Theorem X2_UpdateDHCPRange_exits_or_sets_the_range :
  forall (s : IPV4Subnet.t) (flag : bool),
    (IPMask.ones (IPNet.Mask (IPV4Subnet.CIDR s)) <= 128)%nat ->
    (UsableHostAddresses s < Z.of_nat (length (ReservedIPs s)) ->
     UpdateDHCPRange s flag = Fatal)
    /\ (Z.of_nat (length (ReservedIPs s)) <= UsableHostAddresses s ->
        exists start stop,
          UpdateDHCPRange s flag
          = Returns (IPV4Subnet.set_DHCP s start stop))
    /\ ((32 < IPMask.ones (IPNet.Mask (IPV4Subnet.CIDR s)))%nat ->
        UpdateDHCPRange s flag = Fatal).
Proof.
  intros s flag Hm.
  destruct (UpdateDHCPRange_Fatal_iff s flag Hm) as [Hfatal Hsteps].
  assert (Hfits : Z.of_nat (length (ReservedIPs s)) <= UsableHostAddresses s ->
                  exists start stop,
                    UpdateDHCPRange s flag
                    = Returns (IPV4Subnet.set_DHCP s start stop)).
  { intros Hle. destruct (UpdateDHCPRange s flag) as [s'| |] eqn:E.
    - destruct (UpdateDHCPRange_Returns_inv _ _ _ E)
        as [ip [start [_ [_ ->]]]].
      now eexists _, _.
    - assert (UsableHostAddresses s < Z.of_nat (length (ReservedIPs s)))
        by (apply Hfatal; reflexivity).
      lia.
    - now contradiction Hsteps. }
  split; [apply Hfatal|]. split; [exact Hfits|].
  intros Hlong. apply Hfatal.
  rewrite UsableHostAddresses_long_mask; lia.
Qed.

(** X2, on the empty 10.0.0.0/24, where the call returns, and on
    10.0.0.0/30 with three reservations, where it exits. *)
Lemma X2_witness :
  let s := subnet_10_0_0_0_24 [] in
  let full :=
    AddReservations
      (subnet "tiny" (IPNet.mk (ip4 10 0 0 0) (CIDRMask 30 32)))
      [("a", EmptyString); ("b", EmptyString); ("c", EmptyString)]%string in
  (exists start stop,
      UpdateDHCPRange s false
      = Returns (IPV4Subnet.set_DHCP s start stop))
  /\ UpdateDHCPRange full false = Fatal.
Proof.
  intros s full. split.
  - apply (proj1 (proj2 (X2_UpdateDHCPRange_exits_or_sets_the_range s false
                           ltac:(vm_compute; lia)))).
    vm_compute. discriminate.
  - apply (proj1 (X2_UpdateDHCPRange_exits_or_sets_the_range full false
                    ltac:(vm_compute; lia))).
    vm_compute. reflexivity.
Defined.

(** X3: when [UpdateDHCPRange] returns, a second call on its result gives
    what a single call with the second flag gives on the original subnet:
    the range that a call leaves does not depend on the range it finds.
    The start of the range is the same for both values of the flag, and
    the reserved addresses are untouched. *)
Theorem X3_UpdateDHCPRange_last_call_wins :
  forall (s s1 : IPV4Subnet.t) (flag1 flag2 : bool),
    UpdateDHCPRange s flag1 = Returns s1 ->
    UpdateDHCPRange s1 flag2 = UpdateDHCPRange s flag2
    /\ exists s2,
         UpdateDHCPRange s flag2 = Returns s2
         /\ IPV4Subnet.DHCPStart s2 = IPV4Subnet.DHCPStart s1
         /\ ReservedIPs s2 = ReservedIPs s.
Proof.
  intros s s1 flag1 flag2 H1.
  destruct (UpdateDHCPRange_Returns_inv _ _ _ H1)
    as [ip [start [Hloop [Hfits ->]]]].
  split.
  - unfold UpdateDHCPRange. destruct s. reflexivity.
  - unfold UpdateDHCPRange.
    destruct (Z.ltb_spec (UsableHostAddresses s)
                         (Z.of_nat (length (ReservedIPs s)))); [lia|].
    rewrite Hloop. eexists. split; [reflexivity|]. split; reflexivity.
Qed.

(** X3, on the empty 10.0.0.0/24: first with the supernet hack, then
    without. *)
Lemma X3_witness :
  let s := subnet_10_0_0_0_24 [] in
  let s1 := IPV4Subnet.set_DHCP s (ip4 10 0 0 2) (ip4 10 0 0 202) in
  UpdateDHCPRange s1 false = UpdateDHCPRange s false
  /\ exists s2,
       UpdateDHCPRange s false = Returns s2
       /\ IPV4Subnet.DHCPStart s2 = IPV4Subnet.DHCPStart s1
       /\ ReservedIPs s2 = ReservedIPs s.
Proof.
  intros s s1.
  apply (X3_UpdateDHCPRange_last_call_wins s s1 true false).
  vm_compute. reflexivity.
Defined.

(* ================================================================== *)
(** * Looking reservations up by name *)

Lemma LookupReservation_loop_first (resName : string)
      (before after : list IPReservation.t) (r : IPReservation.t) :
  IPReservation.Name r = resName ->
  (forall v, In v before -> IPReservation.Name v <> resName) ->
  LookupReservation_loop resName (before ++ r :: after) = r.
Proof.
  intros Hr. induction before as [|v before IH]; intros Hbefore; cbn.
  - now rewrite Hr, String.eqb_refl.
  - destruct (String.eqb_spec resName (IPReservation.Name v)) as [E|_].
    + exfalso. apply (Hbefore v); [now left | congruence].
    + apply IH. intros w Hw. apply Hbefore. now right.
Qed.

Lemma LookupReservation_loop_none (resName : string)
      (reservations : list IPReservation.t) :
  (forall v, In v reservations -> IPReservation.Name v <> resName) ->
  LookupReservation_loop resName reservations = IPReservation.zero.
Proof.
  induction reservations as [|v rest IH]; intros H; cbn; [reflexivity|].
  destruct (String.eqb_spec resName (IPReservation.Name v)) as [E|_].
  - exfalso. apply (H v); [now left | congruence].
  - apply IH. intros w Hw. apply H. now right.
Qed.

(** A list either has no reservation of a name, or splits at the first
    one, or at the last one. *)
Lemma named_first_split (resName : string) (l : list IPReservation.t) :
  (forall v, In v l -> IPReservation.Name v <> resName)
  \/ exists before r after,
      l = before ++ r :: after
      /\ IPReservation.Name r = resName
      /\ forall v, In v before -> IPReservation.Name v <> resName.
Proof.
  induction l as [|v l IH]; [left; intros v []|].
  destruct (String.eqb_spec (IPReservation.Name v) resName) as [E|N].
  - right. exists [], v, l. repeat split; [assumption | intros w []].
  - destruct IH as [IH | [before [r [after [-> [Hr Hb]]]]]].
    + left. intros w [<-|Hw]; [assumption | now apply IH].
    + right. exists (v :: before), r, after. repeat split; [assumption|].
      intros w [<-|Hw]; [assumption | now apply Hb].
Qed.

(** X4: [LookupReservation] returns the first reservation, in insertion
    order, whose name is exactly the given one, and the zero reservation,
    not an error, when there is none. *)
Theorem X4_LookupReservation_first_match_or_zero :
  forall (s : IPV4Subnet.t) (resName : string),
    (forall before r after,
        IPV4Subnet.IPReservations s = before ++ r :: after ->
        IPReservation.Name r = resName ->
        (forall v, In v before -> IPReservation.Name v <> resName) ->
        LookupReservation s resName = r)
    /\ ((forall v, In v (IPV4Subnet.IPReservations s) ->
                   IPReservation.Name v <> resName) ->
        LookupReservation s resName = IPReservation.zero).
Proof.
  intros s resName. unfold LookupReservation. split.
  - intros before r after -> Hr Hb. now apply LookupReservation_loop_first.
  - apply LookupReservation_loop_none.
Qed.

Lemma LookupReservation_loop_app_found (resName : string)
      (l extra : list IPReservation.t) :
  (exists v, In v l /\ IPReservation.Name v = resName) ->
  LookupReservation_loop resName (l ++ extra)
  = LookupReservation_loop resName l.
Proof.
  intros [v [Hin Hv]].
  destruct (named_first_split resName l) as [Hnone | Hsplit].
  - exfalso. now apply (Hnone v).
  - destruct Hsplit as [before [r [after [-> [Hr Hb]]]]].
    rewrite <- app_assoc. cbn [app].
    now rewrite !LookupReservation_loop_first.
Qed.

Lemma LookupReservation_loop_app_other (resName : string)
      (l : list IPReservation.t) (r : IPReservation.t) :
  IPReservation.Name r <> resName ->
  LookupReservation_loop resName (l ++ [r])
  = LookupReservation_loop resName l.
Proof.
  intros Hr. induction l as [|v l IH]; cbn.
  - destruct (String.eqb_spec resName (IPReservation.Name r));
      [congruence | reflexivity].
  - now rewrite IH.
Qed.

(** X5: after [AddReservation] with a name that no reservation had,
    [LookupReservation] of that name returns the new reservation, the one
    that the result of [AddReservation] points to, with the name and the
    comment given.  With a name that some reservation already had, it
    still returns the earlier reservation.  Lookups of every other name
    are unchanged. *)
Theorem X5_LookupReservation_after_AddReservation :
  forall (s : IPV4Subnet.t) (name comment : string),
    let s' := fst (AddReservation s name comment) in
    let position := snd (AddReservation s name comment) in
    ((forall v, In v (IPV4Subnet.IPReservations s) ->
                IPReservation.Name v <> name) ->
     nth_error (IPV4Subnet.IPReservations s') position
     = Some (LookupReservation s' name)
     /\ IPReservation.Name (LookupReservation s' name) = name
     /\ IPReservation.Comment (LookupReservation s' name) = comment)
    /\ ((exists v, In v (IPV4Subnet.IPReservations s)
                   /\ IPReservation.Name v = name) ->
        LookupReservation s' name = LookupReservation s name)
    /\ (forall other, other <> name ->
                      LookupReservation s' other = LookupReservation s other).
Proof.
  intros s name comment s' position.
  subst s' position. unfold AddReservation, LookupReservation.
  cbn [fst snd IPV4Subnet.set_IPReservations IPV4Subnet.IPReservations].
  set (r := IPReservation.mk _ name comment []).
  split; [|split].
  - intros Hnew.
    rewrite (LookupReservation_loop_first name _ [] r eq_refl Hnew).
    rewrite length_app. cbn [length].
    replace (length (IPV4Subnet.IPReservations s) + 1 - 1)%nat
      with (length (IPV4Subnet.IPReservations s)) by lia.
    rewrite nth_error_app2, Nat.sub_diag by lia. repeat split.
  - apply LookupReservation_loop_app_found.
  - intros other Hother. apply LookupReservation_loop_app_other.
    cbn. congruence.
Qed.

(* ------------------------------------------------------------------ *)

Lemma gomap_get_set_same {V : Type} (m : gomap.t V) (k : string) (v : V) :
  gomap.get (gomap.set m k v) k = Some v.
Proof.
  induction m as [|[k' v'] m IH]; cbn.
  - now rewrite String.eqb_refl.
  - destruct (String.eqb_spec k' k) as [->|N]; cbn.
    + now rewrite String.eqb_refl.
    + destruct (String.eqb_spec k' k); [contradiction | exact IH].
Qed.

Lemma gomap_get_set_other {V : Type} (m : gomap.t V) (k k' : string) (v : V) :
  k' <> k -> gomap.get (gomap.set m k v) k' = gomap.get m k'.
Proof.
  intros N. induction m as [|[k0 v0] m IH]; cbn.
  - destruct (String.eqb_spec k k'); [congruence | reflexivity].
  - destruct (String.eqb_spec k0 k) as [->|N0]; cbn.
    + destruct (String.eqb_spec k k'); [congruence | reflexivity].
    + destruct (String.eqb_spec k0 k'); [reflexivity | exact IH].
Qed.

Lemma by_name_none (name : string) (l : list IPReservation.t) :
  forall m,
    (forall v, In v l -> IPReservation.Name v <> name) ->
    gomap.get (fold_left by_name l m) name = gomap.get m name.
Proof.
  induction l as [|v l IH]; intros m H; cbn; [reflexivity|].
  rewrite IH by (intros w Hw; apply H; now right).
  apply gomap_get_set_other. intros E. apply (H v); [now left | congruence].
Qed.

Lemma by_name_last (name : string) (before after : list IPReservation.t)
      (r : IPReservation.t) :
  forall m,
    IPReservation.Name r = name ->
    (forall v, In v after -> IPReservation.Name v <> name) ->
    gomap.get (fold_left by_name (before ++ r :: after) m) name = Some r.
Proof.
  intros m Hr Hafter. rewrite fold_left_app. cbn [fold_left].
  rewrite by_name_none by exact Hafter.
  unfold by_name at 1. rewrite Hr. apply gomap_get_set_same.
Qed.

(** X6: the map of [ReservationsByName] has no entry for a name that no
    reservation has (indexing it gives the zero reservation), and for a
    name that some have it holds the last of them in insertion order.
    When the names of the reservations are pairwise distinct, indexing the
    map agrees with [LookupReservation]. *)
Theorem X6_ReservationsByName_keeps_the_last :
  forall (s : IPV4Subnet.t) (name : string),
    ((forall v, In v (IPV4Subnet.IPReservations s) ->
                IPReservation.Name v <> name) ->
     gomap.get (ReservationsByName s) name = None
     /\ gomap.index IPReservation.zero (ReservationsByName s) name
        = IPReservation.zero)
    /\ (forall before r after,
           IPV4Subnet.IPReservations s = before ++ r :: after ->
           IPReservation.Name r = name ->
           (forall v, In v after -> IPReservation.Name v <> name) ->
           gomap.get (ReservationsByName s) name = Some r)
    /\ (NoDup (map IPReservation.Name (IPV4Subnet.IPReservations s)) ->
        gomap.index IPReservation.zero (ReservationsByName s) name
        = LookupReservation s name).
Proof.
  intros s name. unfold ReservationsByName, LookupReservation.
  fold by_name.
  assert (Hnone : (forall v, In v (IPV4Subnet.IPReservations s) ->
                             IPReservation.Name v <> name) ->
                  gomap.get (fold_left by_name (IPV4Subnet.IPReservations s)
                                       gomap.make) name = None).
  { intros H. now rewrite by_name_none. }
  split; [|split].
  - intros H. unfold gomap.index. now rewrite Hnone.
  - intros before r after -> Hr Hafter. now apply by_name_last.
  - intros Hnodup. unfold gomap.index.
    destruct (named_first_split name (IPV4Subnet.IPReservations s))
      as [H | [before [r [after [E [Hr Hb]]]]]].
    + now rewrite Hnone, LookupReservation_loop_none.
    + rewrite E in *. rewrite LookupReservation_loop_first by assumption.
      rewrite by_name_last; [reflexivity | assumption |].
      intros v Hv Ev.
      rewrite map_app in Hnodup. cbn [map] in Hnodup.
      apply NoDup_remove_2 in Hnodup. apply Hnodup.
      apply in_or_app. right. rewrite Hr, <- Ev. now apply in_map.
Qed.

(* ================================================================== *)
(** * Reservations for the management switches *)

Lemma mapi_length {A B : Type} (f : nat -> A -> B) (l : list A) :
  forall i0, length (mapi f i0 l) = length l.
Proof. induction l; intros; cbn; [reflexivity | now rewrite IHl]. Qed.

Lemma mapi_app {A B : Type} (f : nat -> A -> B) (a b : list A) :
  forall i0, mapi f i0 (a ++ b) = mapi f i0 a ++ mapi f (i0 + length a) b.
Proof.
  induction a as [|x a IH]; intros i0; cbn [app mapi length].
  - now rewrite Nat.add_0_r.
  - rewrite IH. now rewrite Nat.add_succ_r.
Qed.

Lemma mapi_ext {A B : Type} (f g : nat -> A -> B) (l : list A) :
  forall i0, (forall i x, (i0 <= i)%nat -> f i x = g i x) ->
             mapi f i0 l = mapi g i0 l.
Proof.
  induction l as [|x l IH]; intros i0 H; cbn [mapi]; [reflexivity|].
  rewrite H by lia. f_equal. apply IH. intros i y Hi. apply H. lia.
Qed.

Lemma mapi_shift {A B : Type} (f : nat -> A -> B) (k : nat) (l : list A) :
  forall i0, mapi f (i0 + k) l = mapi (fun i => f (i + k)%nat) i0 l.
Proof.
  induction l as [|x l IH]; intros i0; cbn [mapi]; [reflexivity|].
  f_equal. apply (IH (S i0)).
Qed.

Lemma map_mapi {A B C : Type} (g : B -> C) (f : nat -> A -> B) (l : list A) :
  forall i0, map g (mapi f i0 l) = mapi (fun i x => g (f i x)) i0 l.
Proof. induction l; intros; cbn; [reflexivity | now rewrite IHl]. Qed.

Lemma mapi_mapi {A B C : Type} (g : nat -> B -> C) (f : nat -> A -> B)
      (l : list A) :
  forall i0, mapi g i0 (mapi f i0 l) = mapi (fun i x => g i (f i x)) i0 l.
Proof. induction l; intros; cbn; [reflexivity | now rewrite IHl]. Qed.

Lemma mapi_const {A B : Type} (g : A -> B) (l : list A) :
  forall i0, mapi (fun _ x => g x) i0 l = map g l.
Proof. induction l; intros; cbn; [reflexivity | now rewrite IHl]. Qed.

Lemma flat_map_mapi {A B C : Type} (h : B -> list C) (f : nat -> A -> B)
      (l : list A) :
  forall i0, flat_map h (mapi f i0 l) = concat (mapi (fun i x => h (f i x)) i0 l).
Proof. induction l; intros; cbn; [reflexivity | now rewrite IHl]. Qed.

Lemma concat_mapi_one {A C : Type} (f : nat -> A -> C) (l : list A) :
  forall i0, concat (mapi (fun i x => [f i x]) i0 l) = mapi f i0 l.
Proof. induction l; intros; cbn; [reflexivity | now rewrite IHl]. Qed.

Lemma concat_mapi_none {A C : Type} (l : list A) :
  forall i0, concat (mapi (fun _ _ => @nil C) i0 l) = [].
Proof. induction l; intros; cbn; [reflexivity | now rewrite IHl]. Qed.

Lemma AddReservations_app (s : IPV4Subnet.t) (a b : list (string * string)) :
  AddReservations s (a ++ b) = AddReservations (AddReservations s a) b.
Proof. unfold AddReservations. apply fold_left_app. Qed.

Lemma ReserveNetMgmtIPs_loop_batch (prefix : string) (comments : list string) :
  forall (k : nat) (s : IPV4Subnet.t),
    ReserveNetMgmtIPs_loop prefix (Z.of_nat k) comments s
    = AddReservations s
        (mapi (fun i comment =>
                 (String.append prefix (fmt.d03 (Z.of_nat i + 1)), comment))
              k comments).
Proof.
  induction comments as [|c rest IH]; intros k s; [reflexivity|].
  cbn [ReserveNetMgmtIPs_loop mapi].
  replace (Z.of_nat k + 1) with (Z.of_nat (S k)) by lia.
  rewrite IH. unfold AddReservations at 2. cbn [fold_left fst snd].
  replace (Z.of_nat (S k)) with (Z.of_nat k + 1) by lia. reflexivity.
Qed.

Lemma ReserveNetMgmtIPs_stubs_batch (n : nat) :
  forall (k : nat) (s : IPV4Subnet.t),
    ReserveNetMgmtIPs_stubs n (Z.of_nat k) s
    = ReserveNetMgmtIPs_loop "mgmt-net-stub-" (Z.of_nat k)
        (repeat EmptyString n) s.
Proof.
  induction n as [|n IH]; intros k s; [reflexivity|].
  cbn [ReserveNetMgmtIPs_stubs ReserveNetMgmtIPs_loop repeat].
  replace (Z.of_nat k + 1) with (Z.of_nat (S k)) by lia.
  rewrite IH. reflexivity.
Qed.

(** [ReserveNetMgmtIPs] is the batch of its requests. *)
Lemma ReserveNetMgmtIPs_batch (s : IPV4Subnet.t)
      (spines leafs aggs cdus : list string) (additional : Z) :
  ReserveNetMgmtIPs s spines leafs aggs cdus additional
  = AddReservations s (mgmt_requests spines leafs aggs cdus additional).
Proof.
  unfold ReserveNetMgmtIPs, mgmt_requests, numbered.
  rewrite !AddReservations_app.
  rewrite (ReserveNetMgmtIPs_stubs_batch _ 0).
  now rewrite <- !(ReserveNetMgmtIPs_loop_batch _ _ 0).
Qed.

Lemma numbered_length (prefix : string) (comments : list string) :
  length (numbered prefix comments) = length comments.
Proof. apply mapi_length. Qed.

Lemma numbered_comments (prefix : string) (comments : list string) :
  map snd (numbered prefix comments) = comments.
Proof.
  unfold numbered. rewrite map_mapi. cbn [snd].
  rewrite mapi_const. apply map_id.
Qed.

Lemma entries_addresses (z : Z) (requests : list (string * string)) :
  forall i0,
    map IPReservation.IPAddress (entries z i0 requests)
    = consecutive (z + Z.of_nat i0) (length requests).
Proof.
  unfold entries.
  induction requests as [|r rs IH]; intros i0; [reflexivity|].
  cbn [mapi map length IPReservation.IPAddress].
  rewrite consecutive_cons, IH. do 2 f_equal. lia.
Qed.

(** On a subnet with no reservation, a batch of [AddReservation] calls
    makes the reservations [entries] from offset 2 on. *)
Lemma AddReservations_entries (s : IPV4Subnet.t)
      (requests : list (string * string)) :
  IPV4Subnet.IPReservations s = [] ->
  IPV4Subnet.IPReservations (AddReservations s requests)
  = entries (ipam.ipToDecimal (IPNet.IP (IPV4Subnet.CIDR s)) + 2) 0 requests.
Proof.
  intros Hempty.
  induction requests as [|r rs IH] using rev_ind; [exact Hempty|].
  rewrite AddReservations_app. unfold entries in *. rewrite mapi_app.
  cbn [mapi Nat.add].
  unfold AddReservations at 1. cbn [fold_left].
  unfold AddReservation.
  cbn [fst IPV4Subnet.set_IPReservations IPV4Subnet.IPReservations].
  rewrite IH. f_equal. f_equal. f_equal.
  unfold ReservedIPs. rewrite IH.
  fold (entries (ipam.ipToDecimal (IPNet.IP (IPV4Subnet.CIDR s)) + 2) 0 rs).
  rewrite entries_addresses, AddReservations_CIDR, Z.add_0_r.
  unfold ipam.Add. apply AddReservation_loop_consecutive.
Qed.

(** Reservations are only ever appended. *)
Lemma AddReservations_keeps (s : IPV4Subnet.t)
      (requests : list (string * string)) :
  exists added,
    IPV4Subnet.IPReservations (AddReservations s requests)
    = IPV4Subnet.IPReservations s ++ added
    /\ map (fun r => (IPReservation.Name r, IPReservation.Comment r)) added
       = requests
    /\ Forall (fun r => IPReservation.Aliases r = []) added.
Proof.
  induction requests as [|r rs IH] using rev_ind.
  - exists []. cbn. rewrite app_nil_r. repeat split. constructor.
  - destruct IH as [added [E [Hn Ha]]].
    rewrite AddReservations_app. unfold AddReservations at 1.
    cbn [fold_left]. unfold AddReservation.
    cbn [fst IPV4Subnet.set_IPReservations IPV4Subnet.IPReservations].
    eexists (added ++ [_]). rewrite E, <- app_assoc. split; [reflexivity|].
    split.
    + rewrite map_app, Hn. cbn. now destruct r.
    + apply Forall_app. split; [assumption|]. now repeat constructor.
Qed.

(** X7: [ReserveNetMgmtIPs] keeps the reservations that the subnet has and
    appends one per entry of [spines], [leafs], [aggs] and [cdus], in that
    order, and then [additional] more (none for a negative number).  The
    names are the prefix of the kind (sw-spine-, sw-leaf-, sw-agg-,
    sw-cdu-, mgmt-net-stub-) followed by the three-digit position, counted
    from 1 within the kind; the comments are the entries themselves, empty
    for the stubs; no alias is set.  On a subnet that had no reservation
    the addresses are consecutive from offset 2. *)
Theorem X7_ReserveNetMgmtIPs_appends_numbered_reservations :
  forall (s : IPV4Subnet.t) (spines leafs aggs cdus : list string)
         (additional : Z),
    let s' := ReserveNetMgmtIPs s spines leafs aggs cdus additional in
    let requests := mgmt_requests spines leafs aggs cdus additional in
    (exists added,
        IPV4Subnet.IPReservations s' = IPV4Subnet.IPReservations s ++ added
        /\ map (fun r => (IPReservation.Name r, IPReservation.Comment r)) added
           = requests
        /\ Forall (fun r => IPReservation.Aliases r = []) added)
    /\ Z.of_nat (length requests)
       = Z.of_nat (length spines) + Z.of_nat (length leafs)
         + Z.of_nat (length aggs) + Z.of_nat (length cdus)
         + Z.max 0 additional
    /\ map snd requests
       = spines ++ leafs ++ aggs ++ cdus
         ++ repeat EmptyString (Z.to_nat additional)
    /\ (IPV4Subnet.IPReservations s = [] ->
        ReservedIPs s'
        = consecutive (ipam.ipToDecimal (IPNet.IP (IPV4Subnet.CIDR s)) + 2)
                      (length requests)).
Proof.
  intros s spines leafs aggs cdus additional s' requests.
  subst s'. rewrite ReserveNetMgmtIPs_batch. fold requests.
  split; [apply AddReservations_keeps|]. split; [|split].
  - subst requests. unfold mgmt_requests.
    rewrite !length_app, !numbered_length, repeat_length. lia.
  - subst requests. unfold mgmt_requests.
    now rewrite !map_app, !numbered_comments.
  - intros Hempty. unfold ReservedIPs.
    rewrite AddReservations_entries by assumption.
    rewrite entries_addresses. now rewrite Z.add_0_r.
Qed.

(* ------------------------------------------------------------------ *)

(** What [extractSwitchesfromReservations] reads from the reservations of
    one loop of [ReserveNetMgmtIPs], given what it reads from a
    reservation whose name starts with the loop's prefix. *)
Lemma extract_numbered {S T : Type} (Spine Aggregation Leaf CDU : T)
      (new_switch : string -> string -> T -> IP -> S)
      (z : Z) (prefix : string) (xnames : list string)
      (result : string -> string -> IP -> list S) :
  (forall ip n c,
      cmd.extractSwitches_entry S T Spine Aggregation Leaf CDU new_switch
        (IPReservation.mk ip (String.append prefix n) c [])
      = result c (String.append prefix n) ip) ->
  forall i0,
    flat_map
      (cmd.extractSwitches_entry S T Spine Aggregation Leaf CDU new_switch)
      (entries z i0 (numbered prefix xnames))
    = concat
        (mapi (fun i xname =>
                 result xname
                   (String.append prefix (fmt.d03 (Z.of_nat i + 1)))
                   (ipam.decimalToIP (z + Z.of_nat i0 + Z.of_nat i)))
              0 xnames).
Proof.
  intros H i0. unfold entries, numbered.
  rewrite <- (Nat.add_0_l i0) at 1. rewrite mapi_shift, mapi_mapi, flat_map_mapi.
  f_equal. apply mapi_ext. intros i x _. cbn [fst snd]. rewrite H.
  do 2 f_equal. lia.
Qed.

(** X8: round trip.  On a subnet with no reservation, what
    [extractSwitchesfromReservations] reads from the result of
    [ReserveNetMgmtIPs] is one switch per entry of [spines], [leafs],
    [aggs] and [cdus], in the order of the reservations, each with the
    entry as its xname, its numbered name, the switch type of its kind and
    the address of its reservation.  The stub reservations give no
    switch. *)
Theorem X8_extractSwitches_reads_back_the_reserved_switches :
  forall (S T : Type) (Spine Aggregation Leaf CDU : T)
         (new_switch : string -> string -> T -> IP -> S)
         (s : IPV4Subnet.t) (spines leafs aggs cdus : list string)
         (additional : Z),
    IPV4Subnet.IPReservations s = [] ->
    let z := ipam.ipToDecimal (IPNet.IP (IPV4Subnet.CIDR s)) + 2 in
    let n1 := Z.of_nat (length spines) in
    let n2 := Z.of_nat (length leafs) in
    let n3 := Z.of_nat (length aggs) in
    cmd.extractSwitchesfromReservations S T Spine Aggregation Leaf CDU
      new_switch (ReserveNetMgmtIPs s spines leafs aggs cdus additional)
    = switches new_switch Spine "sw-spine-" z spines
      ++ switches new_switch Leaf "sw-leaf-" (z + n1) leafs
      ++ switches new_switch Aggregation "sw-agg-" (z + n1 + n2) aggs
      ++ switches new_switch CDU "sw-cdu-" (z + n1 + n2 + n3) cdus.
Proof.
  intros S T Spine Aggregation Leaf CDU new_switch
         s spines leafs aggs cdus additional Hempty z n1 n2 n3.
  unfold cmd.extractSwitchesfromReservations.
  rewrite ReserveNetMgmtIPs_batch, AddReservations_entries by assumption.
  fold z. unfold mgmt_requests, entries.
  rewrite !mapi_app, !flat_map_app, !numbered_length. cbn [Nat.add].
  fold (entries z 0 (numbered "sw-spine-" spines)).
  fold (entries z (length spines) (numbered "sw-leaf-" leafs)).
  fold (entries z (length spines + length leafs) (numbered "sw-agg-" aggs)).
  fold (entries z (length spines + length leafs + length aggs)
                (numbered "sw-cdu-" cdus)).
  fold (entries z (length spines + length leafs + length aggs + length cdus)
                (numbered "mgmt-net-stub-"
                          (repeat EmptyString (Z.to_nat additional)))).
  rewrite (extract_numbered Spine Aggregation Leaf CDU new_switch
             z "sw-spine-" spines
             (fun c n ip => [new_switch c n Spine ip]))
    by (intros; reflexivity).
  rewrite (extract_numbered Spine Aggregation Leaf CDU new_switch
             z "sw-leaf-" leafs
             (fun c n ip => [new_switch c n Leaf ip]))
    by (intros; reflexivity).
  rewrite (extract_numbered Spine Aggregation Leaf CDU new_switch
             z "sw-agg-" aggs
             (fun c n ip => [new_switch c n Aggregation ip]))
    by (intros; reflexivity).
  rewrite (extract_numbered Spine Aggregation Leaf CDU new_switch
             z "sw-cdu-" cdus
             (fun c n ip => [new_switch c n CDU ip]))
    by (intros; reflexivity).
  rewrite (extract_numbered Spine Aggregation Leaf CDU new_switch
             z "mgmt-net-stub-" _ (fun _ _ _ => []))
    by (intros; reflexivity).
  rewrite !concat_mapi_one, concat_mapi_none, app_nil_r.
  unfold switches. subst n1 n2 n3.
  repeat (apply f_equal2;
          [apply mapi_ext; intros i x _; do 2 f_equal; lia|]).
  apply mapi_ext; intros i x _; do 2 f_equal; lia.
Qed.

(** X8, on the empty 10.0.0.0/24 with two spines, one leaf, no agg, one
    cdu and two stubs; a switch is the tuple of its four fields, a switch
    type a number. *)
Lemma X8_witness :
  let new_switch (xname name : string) (switchType : nat) (ip : IP) :=
    (xname, name, switchType, ip) in
  cmd.extractSwitchesfromReservations _ _ 1%nat 2%nat 3%nat 4%nat new_switch
    (ReserveNetMgmtIPs (subnet_10_0_0_0_24 [])
       ["x3000c0h33s1"; "x3000c0h34s1"]%string ["x3000c0w14"]%string []
       ["d0w1"]%string 2)
  = [("x3000c0h33s1", "sw-spine-001", 1%nat, ip4 10 0 0 2);
     ("x3000c0h34s1", "sw-spine-002", 1%nat, ip4 10 0 0 3);
     ("x3000c0w14", "sw-leaf-001", 3%nat, ip4 10 0 0 4);
     ("d0w1", "sw-cdu-001", 4%nat, ip4 10 0 0 5)]%string.
Proof.
  intros new_switch.
  rewrite (X8_extractSwitches_reads_back_the_reserved_switches
             _ _ 1%nat 2%nat 3%nat 4%nat new_switch (subnet_10_0_0_0_24 []))
    by reflexivity.
  vm_compute. reflexivity.
Defined.

(* ================================================================== *)
(** * Cabinet subnets *)

Lemma freed_app (myNet : IPNet.t) (mask : IPMask.t) (a b : list IPNet.t) :
  forall taken,
    freed myNet mask taken a -> freed myNet mask (taken ++ a) b ->
    freed myNet mask taken (a ++ b).
Proof.
  induction a as [|x a IH]; intros taken Ha Hb; cbn [app freed] in *.
  - now rewrite app_nil_r in Hb.
  - destruct Ha as [Hx Ha]. split; [exact Hx|].
    apply IH; [exact Ha|]. now rewrite <- app_assoc.
Qed.

Lemma GenSubnets_vlan_spec (iNet : IPV4Network.t) (j : Z)
      (i : CabinetDetail.t) :
  GenSubnets_vlan iNet j i
  = (if CabinetDetail.VlanID i =? 0
     then option_map (fun first => int16_wrap (int16_wrap j + first))
                     (hd_error (IPV4Network.VlanRange iNet))
     else Some (CabinetDetail.VlanID i)).
Proof.
  unfold GenSubnets_vlan. destruct (_ =? 0); [|reflexivity].
  now destruct (IPV4Network.VlanRange iNet).
Qed.

(** The three ways the inner loop of [GenSubnets] ends. *)
Lemma GenSubnets_cabinets_spec (iNet : IPV4Network.t) (myNet : IPNet.t)
      (mask : IPMask.t) (cabinets : list CabinetDetail.t) :
  forall (j0 : nat) (mySubnets : list IPNet.t)
         (myIPv4Subnets : list IPV4Subnet.t),
    match GenSubnets_cabinets iNet myNet mask (Z.of_nat j0) cabinets
            mySubnets myIPv4Subnets with
    | Done (None, (mySubnets', myIPv4Subnets')) =>
        exists added,
          myIPv4Subnets' = myIPv4Subnets ++ added
          /\ mySubnets' = mySubnets ++ map IPV4Subnet.CIDR added
          /\ Forall2 (cabinet_subnet iNet)
                     (mapi (fun j i => (Z.of_nat j, i)) j0 cabinets) added
          /\ freed myNet mask mySubnets (map IPV4Subnet.CIDR added)
    | Done (Some _, _) => True
    | Panics =>
        IPV4Network.VlanRange iNet = []
        /\ exists i, In i cabinets /\ CabinetDetail.VlanID i = 0
    end.
Proof.
  induction cabinets as [|i rest IH]; intros j0 mySubnets myIPv4Subnets.
  - cbn. exists []. rewrite !app_nil_r. repeat split. constructor.
  - cbn [GenSubnets_cabinets].
    destruct (ipam.Free myNet mask mySubnets) as [newSubnet [e|]] eqn:Efree;
      [exact I|].
    pose proof (GenSubnets_vlan_spec iNet (Z.of_nat j0) i) as Hvlan.
    destruct (GenSubnets_vlan iNet (Z.of_nat j0) i) as [tmpVlanID|] eqn:Ev.
    + replace (Z.of_nat j0 + 1) with (Z.of_nat (S j0)) by lia.
      match goal with
      | |- context [GenSubnets_cabinets _ _ _ _ _ ?subs ?vs] =>
          specialize (IH (S j0) subs vs);
          destruct (GenSubnets_cabinets iNet myNet mask (Z.of_nat (S j0))
                      rest subs vs) as [[[e|] [subs' vs']]|]
      end.
      * exact I.
      * destruct IH as [added [Hv [Hs [Hf Hfree]]]].
        eexists (_ :: added). rewrite Hv, Hs, <- !app_assoc.
        split; [reflexivity|]. split; [reflexivity|]. split.
        -- cbn [mapi]. constructor; [|exact Hf].
           unfold cabinet_subnet. cbn. rewrite <- Hvlan. repeat split.
        -- cbn [map freed IPV4Subnet.CIDR]. split; assumption.
      * destruct IH as [Hr [i' [Hin Hz]]]. split; [exact Hr|].
        exists i'. split; [now right | exact Hz].
    + unfold GenSubnets_vlan in Ev.
      destruct (CabinetDetail.VlanID i =? 0) eqn:Ez; [|discriminate].
      destruct (IPV4Network.VlanRange iNet); [|discriminate].
      split; [reflexivity|]. exists i. split; [now left | lia].
Qed.

Lemma GenSubnets_groups_spec (iNet : IPV4Network.t) (myNet : IPNet.t)
      (mask : IPMask.t) (cabinetType : string)
      (cabinetDetails : list CabinetGroupDetail.t) :
  forall (mySubnets : list IPNet.t) (myIPv4Subnets : list IPV4Subnet.t),
    match GenSubnets_groups iNet myNet mask cabinetType cabinetDetails
            mySubnets myIPv4Subnets with
    | Done (None, (mySubnets', myIPv4Subnets')) =>
        exists added,
          myIPv4Subnets' = myIPv4Subnets ++ added
          /\ mySubnets' = mySubnets ++ map IPV4Subnet.CIDR added
          /\ Forall2 (cabinet_subnet iNet)
                     (cabinets_of cabinetType cabinetDetails) added
          /\ freed myNet mask mySubnets (map IPV4Subnet.CIDR added)
    | Done (Some _, _) => True
    | Panics =>
        IPV4Network.VlanRange iNet = []
        /\ exists ji, In ji (cabinets_of cabinetType cabinetDetails)
                      /\ CabinetDetail.VlanID (snd ji) = 0
    end.
Proof.
  induction cabinetDetails as [|group rest IH];
    intros mySubnets myIPv4Subnets.
  - cbn. exists []. rewrite !app_nil_r. repeat split. constructor.
  - cbn [GenSubnets_groups cabinets_of flat_map].
    fold (cabinets_of cabinetType rest).
    destruct (String.eqb cabinetType (CabinetGroupDetail.Kind group)).
    + pose proof (GenSubnets_cabinets_spec iNet myNet mask
                    (CabinetGroupDetail.CabinetDetails group) 0
                    mySubnets myIPv4Subnets) as Hc.
      cbn [Z.of_nat] in Hc.
      destruct (GenSubnets_cabinets iNet myNet mask 0
                  (CabinetGroupDetail.CabinetDetails group)
                  mySubnets myIPv4Subnets) as [[[e|] [subs vs]]|].
      * exact I.
      * destruct Hc as [added1 [Hv1 [Hs1 [Hf1 Hfree1]]]].
        specialize (IH subs vs).
        destruct (GenSubnets_groups iNet myNet mask cabinetType rest subs vs)
          as [[[e|] [subs' vs']]|].
        -- exact I.
        -- destruct IH as [added2 [Hv2 [Hs2 [Hf2 Hfree2]]]].
           exists (added1 ++ added2). subst.
           rewrite map_app, !app_assoc. repeat split.
           ++ now apply Forall2_app.
           ++ now apply freed_app.
        -- destruct IH as [Hr [ji [Hin Hz]]]. split; [exact Hr|].
           exists ji. split; [|exact Hz]. apply in_or_app. now right.
      * destruct Hc as [Hr [i [Hin Hz]]]. split; [exact Hr|].
        assert (Hmapi : forall l j0,
                   In i l ->
                   exists j, In (j, i) (mapi (fun j i => (Z.of_nat j, i)) j0 l)).
        { induction l as [|x l IHl]; intros j0 [].
          - subst. eexists. left. reflexivity.
          - destruct (IHl (S j0) H) as [j Hj]. exists j. now right. }
        destruct (Hmapi _ 0%nat Hin) as [j Hj].
        exists (j, i). split; [|exact Hz]. apply in_or_app. now left.
    + specialize (IH mySubnets myIPv4Subnets).
      destruct (GenSubnets_groups iNet myNet mask cabinetType rest
                  mySubnets myIPv4Subnets) as [[[e|] [subs' vs']]|];
        exact IH.
Qed.

(** X9: what [GenSubnets] leaves when it returns.  On success the network
    differs only in its subnets: the former ones, followed by one subnet per
    cabinet of the groups of the requested kind, in order.  Each is named
    cabinet_<id>, has the cabinet's VLAN id or, when that is 0, the first
    id of the network's VLAN range plus the position of the cabinet in its
    group (a sum of [int16]s); its gateway is at offset 1, its DHCP range
    goes from offset 2 to the address before the broadcast address, and it
    has no reservation and no network name.  Each block is what
    [ipam.Free] returns with the former blocks and the earlier new ones
    allocated.  When it returns an error the network is unchanged. *)
Theorem X9_GenSubnets_appends_one_subnet_per_cabinet :
  forall (iNet : IPV4Network.t) (cabinetDetails : list CabinetGroupDetail.t)
         (mask : IPMask.t) (cabinetType : string),
    (forall iNet',
        GenSubnets iNet cabinetDetails mask cabinetType = Done (iNet', None) ->
        exists added,
          iNet' = IPV4Network.set_Subnets iNet
                    (IPV4Network.Subnets iNet ++ added)
          /\ Forall2 (cabinet_subnet iNet)
                     (cabinets_of cabinetType cabinetDetails) added
          /\ freed (ParseCIDR (IPV4Network.CIDR iNet)) mask
                   (AllocatedSubnets iNet) (map IPV4Subnet.CIDR added))
    /\ (forall iNet' err,
           GenSubnets iNet cabinetDetails mask cabinetType
           = Done (iNet', Some err) ->
           iNet' = iNet).
Proof.
  intros iNet cabinetDetails mask cabinetType.
  pose proof (GenSubnets_groups_spec iNet (ParseCIDR (IPV4Network.CIDR iNet))
                mask cabinetType cabinetDetails (AllocatedSubnets iNet)
                (IPV4Network.Subnets iNet)) as H.
  unfold GenSubnets.
  destruct (GenSubnets_groups _ _ _ _ _ _ _) as [[[e|] [subs vs]]|].
  - split; [discriminate|].
    intros iNet' err E. now injection E as <- _.
  - split; [|discriminate].
    intros iNet' E. injection E as <-.
    destruct H as [added [-> [_ [Hf Hfree]]]]. now exists added.
  - split; discriminate.
Qed.

(** X9, for two river cabinets and /24 blocks in 10.100.0.0/22. *)
Lemma X9_witness :
  let mask := CIDRMask 24 32 in
  let iNet' := generated hmn_10_100_0_0_22 river_3000_3001 mask "river" in
  (exists added,
      iNet' = IPV4Network.set_Subnets hmn_10_100_0_0_22
                (IPV4Network.Subnets hmn_10_100_0_0_22 ++ added)
      /\ Forall2 (cabinet_subnet hmn_10_100_0_0_22)
                 (cabinets_of "river" river_3000_3001) added
      /\ freed (ParseCIDR (IPV4Network.CIDR hmn_10_100_0_0_22)) mask
               (AllocatedSubnets hmn_10_100_0_0_22)
               (map IPV4Subnet.CIDR added))
  /\ map (fun v => (IPV4Subnet.Name v, IPV4Subnet.CIDR v, IPV4Subnet.VlanID v))
         (IPV4Network.Subnets iNet')
     = [("cabinet_3000"%string, IPNet.mk (ip4 10 100 0 0) mask, 2000);
        ("cabinet_3001"%string, IPNet.mk (ip4 10 100 1 0) mask, 2001)].
Proof.
  intros mask iNet'. split.
  - apply (proj1 (X9_GenSubnets_appends_one_subnet_per_cabinet
                    hmn_10_100_0_0_22 river_3000_3001 mask "river"%string)).
    vm_compute. reflexivity.
  - vm_compute. reflexivity.
Defined.

(** A subnet with no reservation and a prefix of at most 32 bits gets the
    range from offset 2 to the address before the broadcast address. *)
Lemma UpdateDHCPRange_no_reservation (s : IPV4Subnet.t) (flag : bool) :
  IPV4Subnet.IPReservations s = [] ->
  (IPMask.ones (IPNet.Mask (IPV4Subnet.CIDR s)) <= 32)%nat ->
  UpdateDHCPRange s flag
  = Returns
      (IPV4Subnet.set_DHCP s
         (ipam.Add (IPNet.IP (IPV4Subnet.CIDR s)) 2)
         (if flag
          then ipam.Add (ipam.Add (IPNet.IP (IPV4Subnet.CIDR s)) 2) 200
          else ipam.Add (ipam.Broadcast (IPV4Subnet.CIDR s)) (-1))).
Proof.
  intros Hempty Hm. unfold UpdateDHCPRange, ReservedIPs.
  rewrite Hempty. cbn [map length Z.of_nat Z.add].
  destruct (Z.ltb_spec (UsableHostAddresses s) 0) as [Hneg|_].
  - exfalso. revert Hneg. unfold UsableHostAddresses.
    pose proof (TotalIPAddresses_by_prefix s) as [Ht _]. cbv zeta in Ht.
    unfold IPMask.Size. cbn [fst].
    set (p := Z.of_nat (IPMask.ones (IPNet.Mask (IPV4Subnet.CIDR s)))) in *.
    destruct (Z.eqb_spec p 32); [lia|].
    destruct (Z.eqb_spec p 31); [lia|].
    rewrite Ht by lia.
    assert (4 <= 2 ^ (32 - p) <= 2 ^ 32).
    { split.
      - change 4 with (2 ^ 2). apply Z.pow_le_mono_r; lia.
      - apply Z.pow_le_mono_r; lia. }
    rewrite int_wrap_small; lia.
  - reflexivity.
Qed.

(** X10: the DHCP range that [GenSubnets] gives a new subnet (with a mask
    of at most 32 bits) is the one that [UpdateDHCPRange] computes: without
    the supernet hack the call returns the subnet unchanged, with it only
    the end moves, to 200 past the start. *)
Theorem X10_GenSubnets_range_is_fixed_by_UpdateDHCPRange :
  forall (iNet iNet' : IPV4Network.t)
         (cabinetDetails : list CabinetGroupDetail.t) (mask : IPMask.t)
         (cabinetType : string) (v : IPV4Subnet.t),
    GenSubnets iNet cabinetDetails mask cabinetType = Done (iNet', None) ->
    In v (IPV4Network.Subnets iNet') ->
    ~ In v (IPV4Network.Subnets iNet) ->
    (IPMask.ones (IPNet.Mask (IPV4Subnet.CIDR v)) <= 32)%nat ->
    UpdateDHCPRange v false = Returns v
    /\ UpdateDHCPRange v true
       = Returns (IPV4Subnet.set_DHCP v (IPV4Subnet.DHCPStart v)
                    (ipam.Add (IPV4Subnet.DHCPStart v) 200)).
Proof.
  intros iNet iNet' cabinetDetails mask cabinetType v Hgen Hin Hnew Hm.
  pose proof (GenSubnets_groups_spec iNet (ParseCIDR (IPV4Network.CIDR iNet))
                mask cabinetType cabinetDetails (AllocatedSubnets iNet)
                (IPV4Network.Subnets iNet)) as H.
  unfold GenSubnets in Hgen.
  destruct (GenSubnets_groups _ _ _ _ _ _ _) as [[[e|] [subs vs]]|];
    try discriminate.
  injection Hgen as <-.
  destruct H as [added [-> [_ [Hf _]]]].
  cbn [IPV4Network.set_Subnets IPV4Network.Subnets] in Hin.
  apply in_app_or in Hin. destruct Hin as [Hold|Hadded]; [contradiction|].
  assert (Hv : exists ji, cabinet_subnet iNet ji v).
  { clear - Hf Hadded. induction Hf as [|ji w l l' Hw _ IH]; [destruct Hadded|].
    destruct Hadded as [->|Hin]; [now exists ji | now apply IH]. }
  destruct Hv as [ji [_ [_ [_ [Hstart [Hend [Hres _]]]]]]].
  rewrite !UpdateDHCPRange_no_reservation by assumption.
  rewrite <- Hstart, <- Hend. split; [|reflexivity].
  f_equal. now destruct v.
Qed.

(** X10, for the subnet of cabinet 3001 in 10.100.0.0/22. *)
Lemma X10_witness :
  let iNet' :=
    generated hmn_10_100_0_0_22 river_3000_3001 (CIDRMask 24 32) "river" in
  let v := nth 1 (IPV4Network.Subnets iNet') IPV4Subnet.zero in
  (IPV4Subnet.DHCPStart v = ip4 10 100 1 2
   /\ IPV4Subnet.DHCPEnd v = ip4 10 100 1 254)
  /\ UpdateDHCPRange v false = Returns v
  /\ UpdateDHCPRange v true
     = Returns (IPV4Subnet.set_DHCP v (IPV4Subnet.DHCPStart v)
                  (ipam.Add (IPV4Subnet.DHCPStart v) 200)).
Proof.
  intros iNet' v. split; [vm_compute; split; reflexivity|].
  apply (X10_GenSubnets_range_is_fixed_by_UpdateDHCPRange
           hmn_10_100_0_0_22 iNet' river_3000_3001 (CIDRMask 24 32)
           "river"%string v).
  - vm_compute. reflexivity.
  - right. left. reflexivity.
  - intros [].
  - vm_compute. lia.
Defined.

(* ------------------------------------------------------------------ *)
(** The digits and the sign have no upper-case letter. *)
Lemma fold_string_of_uint (u : Decimal.uint) :
  strings.fold (DecimalString.NilEmpty.string_of_uint u)
  = DecimalString.NilEmpty.string_of_uint u.
Proof. induction u; cbn [DecimalString.NilEmpty.string_of_uint strings.fold];
         [reflexivity | rewrite IHu; reflexivity ..]. Qed.

Lemma fold_d (n : Z) : strings.fold (fmt.d n) = fmt.d n.
Proof.
  unfold fmt.d, DecimalString.NilZero.string_of_int,
    DecimalString.NilZero.string_of_uint.
  destruct (Z.to_int n) as [u|u]; destruct u;
    try reflexivity;
    cbn [strings.fold DecimalString.NilEmpty.string_of_uint];
    rewrite fold_string_of_uint; reflexivity.
Qed.

Lemma d_inj (a b : Z) : fmt.d a = fmt.d b -> a = b.
Proof.
  unfold fmt.d. intros H.
  assert (Hnn : forall n, Z.to_int n <> Decimal.Pos Decimal.Nil
                          /\ Z.to_int n <> Decimal.Neg Decimal.Nil).
  { intros [|p|p]; cbn; split; try discriminate;
      intros E; injection E as E;
      now apply DecimalPos.Unsigned.to_uint_nonnil in E. }
  apply DecimalZ.to_int_inj.
  assert (E : Some (Z.to_int a) = Some (Z.to_int b)).
  { rewrite <- (DecimalString.NilZero.isi (Z.to_int a)) by apply Hnn.
    rewrite <- (DecimalString.NilZero.isi (Z.to_int b)) by apply Hnn.
    now rewrite H. }
  now injection E.
Qed.

Lemma fold_append (a b : string) :
  strings.fold (String.append a b)
  = String.append (strings.fold a) (strings.fold b).
Proof. induction a; cbn; [reflexivity | now rewrite IHa]. Qed.

Lemma append_inj (a b c : string) :
  String.append a b = String.append a c -> b = c.
Proof. induction a; cbn; intros H; [exact H | injection H; auto]. Qed.

(** Two cabinet names are equal up to case exactly when the ids are. *)
Lemma EqualFold_cabinet (a b : Z) :
  strings.EqualFold (String.append "cabinet_" (fmt.d a))
                    (String.append "cabinet_" (fmt.d b)) = true
  <-> a = b.
Proof.
  unfold strings.EqualFold. rewrite !fold_append, !fold_d.
  rewrite String.eqb_eq. split; [|now intros ->].
  intros H. apply append_inj in H. now apply d_inj.
Qed.

(** X11: after a successful [GenSubnets], [SubnetbyName] of the name
    cabinet_<id>, as [genCabinetMap] asks for it, returns the subnet made
    for the first cabinet with that id among those visited, provided no
    former subnet of the network has that name up to case. *)
Theorem X11_SubnetbyName_finds_the_cabinet_subnet :
  forall (iNet iNet' : IPV4Network.t)
         (cabinetDetails : list CabinetGroupDetail.t) (mask : IPMask.t)
         (cabinetType : string)
         (before after : list (Z * CabinetDetail.t)) (ji : Z * CabinetDetail.t),
    GenSubnets iNet cabinetDetails mask cabinetType = Done (iNet', None) ->
    cabinets_of cabinetType cabinetDetails = before ++ ji :: after ->
    (forall ji', In ji' before ->
                 CabinetDetail.ID (snd ji') <> CabinetDetail.ID (snd ji)) ->
    (forall v, In v (IPV4Network.Subnets iNet) ->
               strings.EqualFold
                 (IPV4Subnet.Name v)
                 (String.append "cabinet_" (fmt.d (CabinetDetail.ID (snd ji))))
               = false) ->
    let v := SubnetbyName iNet'
               (String.append "cabinet_" (fmt.d (CabinetDetail.ID (snd ji)))) in
    nth_error (IPV4Network.Subnets iNet')
              (length (IPV4Network.Subnets iNet) + length before)
    = Some v
    /\ cabinet_subnet iNet ji v.
Proof.
  intros iNet iNet' cabinetDetails mask cabinetType before after ji
         Hgen Hsplit Hfirst Hold v.
  pose proof (GenSubnets_groups_spec iNet (ParseCIDR (IPV4Network.CIDR iNet))
                mask cabinetType cabinetDetails (AllocatedSubnets iNet)
                (IPV4Network.Subnets iNet)) as H.
  unfold GenSubnets in Hgen.
  destruct (GenSubnets_groups _ _ _ _ _ _ _) as [[[e|] [subs vs]]|];
    try discriminate.
  injection Hgen as <-.
  destruct H as [added [-> [_ [Hf _]]]].
  rewrite Hsplit in Hf.
  apply Forall2_app_inv_l in Hf.
  destruct Hf as [added1 [added2 [Hf1 [Hf2 ->]]]].
  inversion Hf2 as [|? w ? added3 Hw Hf3]; subst.
  assert (Hlen : length added1 = length before)
    by (symmetry; eapply Forall2_length; eassumption).
  assert (Hv : v = w).
  { subst v. unfold SubnetbyName.
    cbn [IPV4Network.set_Subnets IPV4Network.Subnets].
    apply (SubnetbyName_loop_first _ _
             (length (IPV4Network.Subnets iNet) + length added1)).
    - rewrite nth_error_app2 by lia.
      replace (_ + _ - _)%nat with (length added1) by lia.
      now rewrite nth_error_app2, Nat.sub_diag by lia.
    - destruct Hw as [-> _]. now apply EqualFold_cabinet.
    - intros j u Hj Hu.
      destruct (Nat.ltb_spec j (length (IPV4Network.Subnets iNet))) as [Hlt|Hge].
      + rewrite nth_error_app1 in Hu by assumption.
        apply Hold. eapply nth_error_In; eassumption.
      + rewrite nth_error_app2 in Hu by assumption.
        rewrite nth_error_app1 in Hu by lia.
        apply nth_error_In in Hu.
        assert (Hex : exists ji', In ji' before /\ cabinet_subnet iNet ji' u).
        { clear - Hf1 Hu.
          induction Hf1 as [|ji' w' l l' Hw' _ IH]; [destruct Hu|].
          destruct Hu as [->|Hin].
          - exists ji'. split; [now left | assumption].
          - destruct (IH Hin) as [x [Hx Hc]]. exists x. split; [now right|assumption]. }
        destruct Hex as [ji' [Hin [Hname _]]]. rewrite Hname.
        destruct (strings.EqualFold _ _) eqn:E; [|reflexivity].
        apply EqualFold_cabinet in E. now apply Hfirst in E. }
  rewrite Hv. split; [|exact Hw].
  cbn [IPV4Network.set_Subnets IPV4Network.Subnets].
  rewrite nth_error_app2 by lia.
  replace (_ + _ - _)%nat with (length added1) by lia.
  now rewrite nth_error_app2, Nat.sub_diag by lia.
Qed.

(** X11, for cabinet 3001, the second of two river cabinets in
    10.100.0.0/22. *)
Lemma X11_witness :
  let iNet' :=
    generated hmn_10_100_0_0_22 river_3000_3001 (CIDRMask 24 32) "river" in
  let cabinet := CabinetDetail.mk 3001 EmptyString 0 in
  let v := SubnetbyName iNet' (String.append "cabinet_" (fmt.d 3001)) in
  nth_error (IPV4Network.Subnets iNet') 1 = Some v
  /\ cabinet_subnet hmn_10_100_0_0_22 (1, cabinet) v.
Proof.
  intros iNet' cabinet.
  apply (X11_SubnetbyName_finds_the_cabinet_subnet
           hmn_10_100_0_0_22 iNet' river_3000_3001 (CIDRMask 24 32)
           "river"%string [(0, CabinetDetail.mk 3000 EmptyString 0)] []
           (1, cabinet)).
  - vm_compute. reflexivity.
  - reflexivity.
  - intros ji' [<-|[]]. cbn. lia.
  - intros v [].
Defined.

(* ================================================================== *)
(** * Subnets added and looked up *)

Lemma positions_app (name : string) (a b : list IPV4Subnet.t) :
  forall i,
    positions name i (a ++ b)
    = positions name i a ++ positions name (i + length a) b.
Proof.
  induction a as [|v a IH]; intros i; cbn [app positions length].
  - now rewrite Nat.add_0_r.
  - rewrite IH, Nat.add_succ_r. now destruct (String.eqb _ _).
Qed.

Lemma positions_bound (name : string) (subnets : list IPV4Subnet.t) :
  forall i p, In p (positions name i subnets) ->
              (i <= p < i + length subnets)%nat.
Proof.
  induction subnets as [|v rest IH]; intros i p Hp; cbn in Hp; [destruct Hp|].
  cbn [length].
  destruct (String.eqb _ _); [destruct Hp as [<-|Hp]; [lia|]|];
    apply IH in Hp; lia.
Qed.

(** [LookUpSubnet] after one more subnet, named [name], has been appended
    to the network. *)
Lemma LookUpSubnet_after_append (iNet : IPV4Network.t) (sub : IPV4Subnet.t) :
  let iNet' :=
    IPV4Network.set_Subnets iNet (IPV4Network.Subnets iNet ++ [sub]) in
  let name := IPV4Subnet.Name sub in
  (matches iNet name = 0%nat ->
   LookUpSubnet iNet' name
   = (InSubnets (length (IPV4Network.Subnets iNet)), None))
  /\ ((0 < matches iNet name)%nat ->
      exists i,
        (i < length (IPV4Network.Subnets iNet))%nat
        /\ fst (LookUpSubnet iNet name) = InSubnets i
        /\ LookUpSubnet iNet' name
           = (InSubnets i, Some (ErrFoundSubnets (S (matches iNet name)))))
  /\ (forall other, other <> name ->
                    LookUpSubnet iNet' other = LookUpSubnet iNet other).
Proof.
  intros iNet' name. subst iNet' name. unfold LookUpSubnet, matches.
  cbn [IPV4Network.set_Subnets IPV4Network.Subnets].
  rewrite !LookUpSubnet_loop_positions. cbn [app].
  rewrite <- !(positions_length _ _ 0).
  rewrite length_app. cbn [length].
  replace (Nat.eqb (length (IPV4Network.Subnets iNet) + 1) 0) with false
    by (symmetry; apply Nat.eqb_neq; lia).
  split; [|split].
  - intros H0. rewrite positions_app. cbn [positions Nat.add].
    rewrite String.eqb_refl.
    destruct (positions _ 0 (IPV4Network.Subnets iNet)); [|discriminate].
    reflexivity.
  - intros Hpos.
    destruct (positions (IPV4Subnet.Name sub) 0 (IPV4Network.Subnets iNet))
      as [|p rest] eqn:Ep; [cbn in Hpos; lia|].
    assert (Hp : (0 <= p < 0 + length (IPV4Network.Subnets iNet))%nat).
    { apply (positions_bound (IPV4Subnet.Name sub)). rewrite Ep. now left. }
    exists p. split; [lia|].
    rewrite positions_app. cbn [positions Nat.add].
    rewrite String.eqb_refl, Ep.
    destruct (IPV4Network.Subnets iNet) as [|v0 tl] eqn:Es;
      [cbn in Hp; lia|].
    replace (Nat.eqb (length (v0 :: tl)) 0) with false by reflexivity.
    split.
    + cbn [length app nth]. now destruct rest.
    + cbn [app length nth]. rewrite length_app. cbn [length].
      replace (Nat.eqb (S (length rest + 1)) 1) with false
        by (symmetry; apply Nat.eqb_neq; lia).
      replace (Nat.ltb 1 (S (length rest + 1))) with true
        by (symmetry; apply Nat.ltb_lt; lia).
      do 3 f_equal. lia.
  - intros other Hother. rewrite !LookUpSubnet_loop_positions.
    rewrite positions_app. cbn [positions app].
    destruct (String.eqb_spec (IPV4Subnet.Name sub) other) as [E|_];
      [congruence|].
    rewrite app_nil_r.
    destruct (IPV4Network.Subnets iNet) as [|v0 tl]; [reflexivity|].
    reflexivity.
Qed.

(** What a successful [AddSubnet] or [AddSubnetbyCIDR] does to the
    network. *)
Lemma AddSubnet_success (iNet iNet' : IPV4Network.t) (mask : IPMask.t)
      (name : string) (vlanID : Z) (p : SubnetPtr) :
  AddSubnet iNet mask name vlanID = (iNet', (p, None)) ->
  exists sub,
    iNet' = IPV4Network.set_Subnets iNet (IPV4Network.Subnets iNet ++ [sub])
    /\ p = InSubnets (length (IPV4Network.Subnets iNet))
    /\ IPV4Subnet.Name sub = name
    /\ IPV4Subnet.VlanID sub = vlanID
    /\ IPV4Subnet.NetName sub = IPV4Network.Name iNet
    /\ IPV4Subnet.Gateway sub = ipam.Add (IPNet.IP (IPV4Subnet.CIDR sub)) 1
    /\ ipam.Free (ParseCIDR (IPV4Network.CIDR iNet)) mask
                 (AllocatedSubnets iNet)
       = (IPV4Subnet.CIDR sub, None).
Proof.
  unfold AddSubnet.
  destruct (ipam.Free _ _ _) as [newSubnet [e|]]; [discriminate|].
  intros H. injection H as <- <-. eexists. split; [reflexivity|].
  split.
  - unfold last_index. cbn [IPV4Network.set_Subnets IPV4Network.Subnets].
    rewrite length_app. cbn [length]. f_equal. lia.
  - cbn. repeat split.
Qed.

Lemma AddSubnet_failure (iNet iNet' : IPV4Network.t) (mask : IPMask.t)
      (name : string) (vlanID : Z) (p : SubnetPtr) (e : error) :
  AddSubnet iNet mask name vlanID = (iNet', (p, Some e)) ->
  iNet' = iNet /\ p = Fresh IPV4Subnet.zero.
Proof.
  unfold AddSubnet.
  destruct (ipam.Free _ _ _) as [newSubnet [e'|]]; [|discriminate].
  intros H. now injection H as <- <-.
Qed.

Lemma AddSubnetbyCIDR_success (iNet iNet' : IPV4Network.t)
      (desiredNet : IPNet.t) (name : string) (vlanID : Z) (p : SubnetPtr) :
  AddSubnetbyCIDR iNet desiredNet name vlanID = (iNet', (p, None)) ->
  exists sub,
    iNet' = IPV4Network.set_Subnets iNet (IPV4Network.Subnets iNet ++ [sub])
    /\ p = InSubnets (length (IPV4Network.Subnets iNet))
    /\ IPV4Subnet.Name sub = name.
Proof.
  unfold AddSubnetbyCIDR.
  destruct (ipam.Contains _ _); [|discriminate].
  intros H. injection H as <- <-. eexists. split; [reflexivity|].
  split; [|reflexivity].
  unfold last_index. cbn [IPV4Network.set_Subnets IPV4Network.Subnets].
  rewrite length_app. cbn [length]. f_equal. lia.
Qed.

(** X12: after a successful [AddSubnet] or [AddSubnetbyCIDR] the result
    points to a subnet of the given name.  [LookUpSubnet] of that name
    returns the same pointer and no error when no subnet had the name
    before; when some had, it returns the earlier subnet, as before the
    call, and not the new one, together with the error for one more subnet
    found.  Lookups of every other name are unchanged. *)
Theorem X12_LookUpSubnet_after_adding_a_subnet :
  forall (iNet iNet' : IPV4Network.t) (name : string) (vlanID : Z)
         (p : SubnetPtr),
    (exists mask, AddSubnet iNet mask name vlanID = (iNet', (p, None)))
    \/ (exists desiredNet,
           AddSubnetbyCIDR iNet desiredNet name vlanID = (iNet', (p, None))) ->
    IPV4Subnet.Name (deref iNet' p) = name
    /\ (matches iNet name = 0%nat -> LookUpSubnet iNet' name = (p, None))
    /\ ((0 < matches iNet name)%nat ->
        fst (LookUpSubnet iNet' name) = fst (LookUpSubnet iNet name)
        /\ fst (LookUpSubnet iNet' name) <> p
        /\ snd (LookUpSubnet iNet' name)
           = Some (ErrFoundSubnets (S (matches iNet name))))
    /\ (forall other, other <> name ->
                      LookUpSubnet iNet' other = LookUpSubnet iNet other).
Proof.
  intros iNet iNet' name vlanID p H.
  assert (Hsub : exists sub,
             iNet' = IPV4Network.set_Subnets iNet
                       (IPV4Network.Subnets iNet ++ [sub])
             /\ p = InSubnets (length (IPV4Network.Subnets iNet))
             /\ IPV4Subnet.Name sub = name).
  { destruct H as [[mask H]|[desiredNet H]].
    - apply AddSubnet_success in H.
      destruct H as [sub [H1 [H2 [H3 _]]]]. now exists sub.
    - now apply AddSubnetbyCIDR_success in H. }
  destruct Hsub as [sub [-> [-> <-]]].
  destruct (LookUpSubnet_after_append iNet sub) as [H0 [Hpos Hother]].
  split; [|split; [|split]].
  - unfold deref. cbn [IPV4Network.set_Subnets IPV4Network.Subnets].
    now rewrite nth_middle.
  - exact H0.
  - intros Hm. destruct (Hpos Hm) as [i [Hi [Hfst Heq]]].
    rewrite Heq, Hfst. cbn [fst snd]. repeat split.
    intros E. injection E as E. lia.
  - exact Hother.
Qed.

(** X12, for a first subnet, bootstrap_dhcp, added to the empty
    10.0.0.0/16. *)
Lemma X12_witness :
  let iNet := network (IPNet.mk (ip4 10 0 0 0) (CIDRMask 16 32)) [] in
  let iNet' := fst (AddSubnet iNet (CIDRMask 24 32) "bootstrap_dhcp" 2) in
  LookUpSubnet iNet' "bootstrap_dhcp" = (InSubnets 0, None)
  /\ LookUpSubnet iNet' "uai_macvlan" = LookUpSubnet iNet "uai_macvlan".
Proof.
  intros iNet iNet'.
  assert (H : (exists mask,
                  AddSubnet iNet mask "bootstrap_dhcp" 2
                  = (iNet', (InSubnets 0, None)))
              \/ (exists desiredNet,
                     AddSubnetbyCIDR iNet desiredNet "bootstrap_dhcp" 2
                     = (iNet', (InSubnets 0, None)))).
  { left. exists (CIDRMask 24 32). vm_compute. reflexivity. }
  split.
  - apply (proj1 (proj2 (X12_LookUpSubnet_after_adding_a_subnet
                           iNet iNet' "bootstrap_dhcp"%string 2
                           (InSubnets 0) H))).
    reflexivity.
  - apply (proj2 (proj2 (proj2 (X12_LookUpSubnet_after_adding_a_subnet
                                  iNet iNet' "bootstrap_dhcp"%string 2
                                  (InSubnets 0) H)))).
    discriminate.
Defined.

(* ------------------------------------------------------------------ *)

Lemma AddBiggestSubnet_loop_all_fail (name : string) (vlanID : Z)
      (iNet : IPV4Network.t) (n : nat) :
  forall i,
    (forall k, i <= k < i + Z.of_nat n ->
               snd (snd (AddSubnet iNet (CIDRMask k 32) name vlanID)) <> None) ->
    AddBiggestSubnet_loop n i iNet name vlanID = (iNet, None).
Proof.
  induction n as [|n IH]; intros i H; [reflexivity|].
  cbn [AddBiggestSubnet_loop].
  destruct (AddSubnet iNet (CIDRMask i 32) name vlanID)
    as [iNet' [p [e|]]] eqn:E.
  - apply AddSubnet_failure in E. destruct E as [-> _].
    apply IH. intros k Hk. apply H. lia.
  - exfalso. apply (H i); [lia|]. now rewrite E.
Qed.

Lemma AddBiggestSubnet_loop_first (name : string) (vlanID : Z)
      (iNet : IPV4Network.t) (n : nat) :
  forall i j,
    i <= j < i + Z.of_nat n ->
    (forall k, i <= k < j ->
               snd (snd (AddSubnet iNet (CIDRMask k 32) name vlanID)) <> None) ->
    snd (snd (AddSubnet iNet (CIDRMask j 32) name vlanID)) = None ->
    AddBiggestSubnet_loop n i iNet name vlanID
    = (fst (AddSubnet iNet (CIDRMask j 32) name vlanID),
       Some (fst (snd (AddSubnet iNet (CIDRMask j 32) name vlanID)))).
Proof.
  induction n as [|n IH]; intros i j Hj Hfail Hok; [lia|].
  cbn [AddBiggestSubnet_loop].
  destruct (AddSubnet iNet (CIDRMask i 32) name vlanID)
    as [iNet' [p [e|]]] eqn:E.
  - apply AddSubnet_failure in E as E'. destruct E' as [-> _].
    assert (i <> j) by (intros ->; rewrite E in Hok; discriminate).
    apply IH; [lia | | exact Hok]. intros k Hk. apply Hfail. lia.
  - destruct (Z.eq_dec i j) as [->|N].
    + now rewrite E.
    + exfalso. apply (Hfail i); [lia|]. now rewrite E.
Qed.

(** X13: [AddBiggestSubnet] returns what [AddSubnet] returns at the first
    prefix length, from the mask's on and below 29, at which [AddSubnet]
    succeeds, always with a 32-bit mask of that length; when [AddSubnet]
    fails at all of them the network is unchanged and the error is the
    no-room error with the mask's prefix length. *)
Theorem X13_AddBiggestSubnet_is_the_first_AddSubnet_that_succeeds :
  forall (iNet : IPV4Network.t) (mask : IPMask.t) (name : string)
         (vlanID : Z),
    let maskSize := fst (IPMask.Size mask) in
    let try i := AddSubnet iNet (CIDRMask i 32) name vlanID in
    (forall i,
        maskSize <= i < 29 ->
        (forall k, maskSize <= k < i -> snd (snd (try k)) <> None) ->
        snd (snd (try i)) = None ->
        AddBiggestSubnet iNet mask name vlanID = try i)
    /\ ((forall k, maskSize <= k < 29 -> snd (snd (try k)) <> None) ->
        AddBiggestSubnet iNet mask name vlanID
        = (iNet, (Fresh IPV4Subnet.zero,
                  Some (ErrNoRoom name (IPV4Network.Name iNet) maskSize)))).
Proof.
  intros iNet mask name vlanID maskSize try. unfold AddBiggestSubnet.
  fold maskSize. split.
  - intros i Hi Hfail Hok.
    rewrite (AddBiggestSubnet_loop_first name vlanID iNet _ maskSize i);
      [| lia | exact Hfail | exact Hok].
    subst try. cbv beta in *.
    destruct (AddSubnet iNet (CIDRMask i 32) name vlanID) as [n [p e]].
    cbn [fst snd] in *. now subst e.
  - intros Hfail.
    rewrite AddBiggestSubnet_loop_all_fail; [reflexivity|].
    intros k Hk. apply Hfail. lia.
Qed.

(** X13, in the empty 10.0.0.0/28 with a request from /24 on: /24 to /27
    fail, /28 is placed. *)
Lemma X13_witness :
  let iNet := network (IPNet.mk (ip4 10 0 0 0) (CIDRMask 28 32)) [] in
  AddBiggestSubnet iNet (CIDRMask 24 32) "a" 1
  = AddSubnet iNet (CIDRMask 28 32) "a" 1
  /\ AllocatedSubnets (fst (AddBiggestSubnet iNet (CIDRMask 24 32) "a" 1))
     = [IPNet.mk (ip4 10 0 0 0) (CIDRMask 28 32)].
Proof.
  intros iNet. split; [|vm_compute; reflexivity].
  apply (proj1 (X13_AddBiggestSubnet_is_the_first_AddSubnet_that_succeeds
                  iNet (CIDRMask 24 32) "a"%string 1) 28).
  - vm_compute. split; [discriminate | reflexivity].
  - intros k Hk.
    assert (Hcases : k = 24 \/ k = 25 \/ k = 26 \/ k = 27)
      by (revert Hk; vm_compute (fst _); lia).
    destruct Hcases as [->|[->|[->| ->]]]; vm_compute; discriminate.
  - vm_compute. reflexivity.
Defined.

(* ------------------------------------------------------------------ *)

Lemma EqualFold_refl (s : string) : strings.EqualFold s s = true.
Proof. apply String.eqb_refl. Qed.

(** The subnet that [SubnetbyName] returns when some subnet has the name
    up to case: the first such. *)
Lemma SubnetbyName_loop_found (name : string) (subnets : list IPV4Subnet.t) :
  forall i v,
    nth_error subnets i = Some v ->
    strings.EqualFold (IPV4Subnet.Name v) name = true ->
    exists j,
      (j <= i)%nat
      /\ nth_error subnets j = Some (SubnetbyName_loop name subnets)
      /\ strings.EqualFold (IPV4Subnet.Name (SubnetbyName_loop name subnets))
                           name = true
      /\ forall k w, (k < j)%nat -> nth_error subnets k = Some w ->
                     strings.EqualFold (IPV4Subnet.Name w) name = false.
Proof.
  induction subnets as [|v0 tl IH]; intros i v Hi Hv.
  - destruct i; discriminate.
  - cbn [SubnetbyName_loop].
    destruct (strings.EqualFold (IPV4Subnet.Name v0) name) eqn:E0.
    + exists 0%nat. repeat split; [lia | assumption | intros k w Hk; lia].
    + destruct i as [|i]; cbn in Hi; [injection Hi as ->; congruence|].
      destruct (IH i v Hi Hv) as [j [Hj [Hnth [Hname Hmin]]]].
      exists (S j). repeat split; [lia | exact Hnth | exact Hname |].
      intros [|k] w Hk Hw; cbn in Hw.
      * now injection Hw as <-.
      * apply (Hmin k w); [lia | exact Hw].
Qed.

(** X14: for a name and subnet names written in ASCII, whenever
    [LookUpSubnet] returns one of the network's subnets, with or without
    the error for several found, that subnet has exactly
    the name, and [SubnetbyName] of the same name returns a subnet at that
    position or before it whose name is equal up to case: the same subnet
    when no earlier one has a name equal up to case. *)
Theorem X14_SubnetbyName_finds_what_LookUpSubnet_finds :
  forall (iNet : IPV4Network.t) (name : string) (i : nat)
         (err : option error),
    ascii_text name = true ->
    ascii_names iNet = true ->
    LookUpSubnet iNet name = (InSubnets i, err) ->
    IPV4Subnet.Name (deref iNet (InSubnets i)) = name
    /\ (exists j,
           (j <= i)%nat
           /\ nth_error (IPV4Network.Subnets iNet) j
              = Some (SubnetbyName iNet name)
           /\ strings.EqualFold (IPV4Subnet.Name (SubnetbyName iNet name))
                                name = true)
    /\ ((forall k w, (k < i)%nat ->
                     nth_error (IPV4Network.Subnets iNet) k = Some w ->
                     strings.EqualFold (IPV4Subnet.Name w) name = false) ->
        SubnetbyName iNet name = deref iNet (InSubnets i)).
Proof.
  intros iNet name i err _ _ H.
  assert (Hi : exists v,
             nth_error (IPV4Network.Subnets iNet) i = Some v
             /\ IPV4Subnet.Name v = name).
  { revert H. unfold LookUpSubnet.
    rewrite LookUpSubnet_loop_positions. cbn [app].
    destruct (Nat.eqb _ 0); [discriminate|].
    destruct (positions name 0 (IPV4Network.Subnets iNet)) as [|p rest] eqn:Ep;
      [discriminate|].
    destruct (positions_head _ _ _ _ _ Ep) as [k [v [-> [Hk [Hv _]]]]].
    cbn [Nat.add nth].
    intros H. exists v. apply String.eqb_eq in Hv.
    destruct (Nat.eqb _ 1); [|destruct (Nat.ltb 1 _)];
      try discriminate; injection H as <- _; now split. }
  destruct Hi as [v [Hnth Hname]].
  assert (Hderef : deref iNet (InSubnets i) = v)
    by (unfold deref; now apply nth_error_nth).
  assert (Hfold : strings.EqualFold (IPV4Subnet.Name v) name = true)
    by (rewrite Hname; apply EqualFold_refl).
  split; [now rewrite Hderef|]. split.
  - destruct (SubnetbyName_loop_found name _ i v Hnth Hfold)
      as [j [Hj [Hn [Hf _]]]].
    now exists j.
  - intros Hmin. rewrite Hderef.
    now apply (SubnetbyName_loop_first name _ i v).
Qed.

(** X14, for the name "b" in a network whose subnets are named "a" and
    "b". *)
Lemma X14_witness :
  let cidr := IPNet.mk (ip4 10 0 0 0) (CIDRMask 16 32) in
  let iNet := network cidr [subnet "a" cidr; subnet "b" cidr] in
  IPV4Subnet.Name (deref iNet (InSubnets 1)) = "b"%string
  /\ (exists j,
         (j <= 1)%nat
         /\ nth_error (IPV4Network.Subnets iNet) j
            = Some (SubnetbyName iNet "b")
         /\ strings.EqualFold (IPV4Subnet.Name (SubnetbyName iNet "b")) "b"
            = true)
  /\ ((forall k w, (k < 1)%nat ->
                   nth_error (IPV4Network.Subnets iNet) k = Some w ->
                   strings.EqualFold (IPV4Subnet.Name w) "b" = false) ->
      SubnetbyName iNet "b" = deref iNet (InSubnets 1)).
Proof.
  intros cidr iNet.
  apply (X14_SubnetbyName_finds_what_LookUpSubnet_finds
           iNet "b"%string 1%nat None eq_refl eq_refl).
  vm_compute. reflexivity.
Defined.

Lemma fold_empty (s : string) : strings.fold s = EmptyString -> s = EmptyString.
Proof. destruct s; [reflexivity | discriminate]. Qed.

(** X22: for a name that is not empty, and with it and the subnet names
    written in ASCII, [SubnetbyName] returns a subnet with an empty name
    exactly when no subnet of the network has the name up to case; this is
    the test by which [MakeBasecampGlobals] detects a missing subnet. *)
Theorem X22_SubnetbyName_blank_name_iff_no_match :
  forall (iNet : IPV4Network.t) (name : string),
    name <> EmptyString ->
    ascii_text name = true ->
    ascii_names iNet = true ->
    (IPV4Subnet.Name (SubnetbyName iNet name) = EmptyString
     <-> forall v, In v (IPV4Network.Subnets iNet) ->
                   strings.EqualFold (IPV4Subnet.Name v) name = false).
Proof.
  intros iNet name Hname _ _. unfold SubnetbyName. split.
  - intros Hblank v Hin.
    destruct (strings.EqualFold (IPV4Subnet.Name v) name) eqn:E;
      [|reflexivity].
    exfalso. apply In_nth_error in Hin. destruct Hin as [i Hi].
    destruct (SubnetbyName_loop_found name _ i v Hi E)
      as [j [_ [_ [Hfold _]]]].
    rewrite Hblank in Hfold. unfold strings.EqualFold in Hfold.
    apply String.eqb_eq in Hfold. cbn [strings.fold] in Hfold.
    symmetry in Hfold. now apply fold_empty in Hfold.
  - intros Hnone. now rewrite SubnetbyName_loop_none.
Qed.

(** X22, for uai_macvlan in a network whose one subnet is
    bootstrap_dhcp. *)
Lemma X22_witness :
  let cidr := IPNet.mk (ip4 10 0 0 0) (CIDRMask 16 32) in
  let iNet := network cidr [subnet "bootstrap_dhcp" cidr] in
  IPV4Subnet.Name (SubnetbyName iNet "uai_macvlan") = EmptyString
  <-> forall v, In v (IPV4Network.Subnets iNet) ->
                strings.EqualFold (IPV4Subnet.Name v) "uai_macvlan" = false.
Proof.
  intros cidr iNet.
  apply (X22_SubnetbyName_blank_name_iff_no_match iNet "uai_macvlan"%string);
    [discriminate | reflexivity | reflexivity].
Defined.

(* ================================================================== *)
(** * More on reservations *)

(** A 4-byte address is the address of its integer. *)
Lemma decimalToIP_ipToDecimal (ip : IP) :
  length ip = 4%nat -> ipam.decimalToIP (ipam.ipToDecimal ip) = ip.
Proof.
  intros H4.
  destruct ip as [|a [|b [|c [|d [|? ?]]]]]; try discriminate H4.
  unfold ipam.ipToDecimal, ipam.be_uint32, ipam.decimalToIP.
  cbn [length Nat.eqb IPv6len firstn fold_left].
  pose proof (uint8_to_Z_range a). pose proof (uint8_to_Z_range b).
  pose proof (uint8_to_Z_range c). pose proof (uint8_to_Z_range d).
  rewrite !Z.shiftr_div_pow2 by lia.
  change (2 ^ 24) with 16777216. change (2 ^ 16) with 65536.
  change (2 ^ 8) with 256.
  transitivity [uint8_of_Z (uint8_to_Z a); uint8_of_Z (uint8_to_Z b);
                uint8_of_Z (uint8_to_Z c); uint8_of_Z (uint8_to_Z d)];
    [|now rewrite !uint8_of_to_Z].
  repeat (apply f_equal2;
          [apply uint8_of_Z_mod; Z.div_mod_to_equations; lia|]).
  reflexivity.
Qed.

(** On 4-byte addresses [Equal] is equality of the integers. *)
Lemma Equal_decimalToIP_4 (t : Z) (v : IP) :
  0 <= t < 2 ^ 32 -> length v = 4%nat ->
  (Equal (ipam.decimalToIP t) v = true <-> t = ipam.ipToDecimal v).
Proof.
  intros Ht Hv. split.
  - intros E. apply Equal_ipToDecimal in E.
    rewrite ipToDecimal_decimalToIP, Z.mod_small in E by lia. exact E.
  - intros ->. rewrite decimalToIP_ipToDecimal by assumption.
    apply Equal_refl.
Qed.

(** The single pass of [AddReservation] over addresses in ascending
    order: the probe ends on the first integer from [t] on that is not in
    the list. *)
Lemma AddReservation_loop_ascending (l : list IP) :
  forall t,
    Forall (fun v => length v = 4%nat) l ->
    StronglySorted Z.lt (map ipam.ipToDecimal l) ->
    0 <= t -> t + Z.of_nat (length l) < 2 ^ 32 ->
    exists t',
      AddReservation_loop l (ipam.decimalToIP t) = ipam.decimalToIP t'
      /\ t <= t' <= t + Z.of_nat (length l)
      /\ ~ In t' (map ipam.ipToDecimal l)
      /\ forall z, t <= z < t' -> In z (map ipam.ipToDecimal l).
Proof.
  induction l as [|v rest IH]; intros t H4 Hsorted Ht Hlen.
  - exists t. cbn. split; [reflexivity|]. split; [lia|].
    split; [intros []|]. intros z Hz. lia.
  - cbn [length] in Hlen. cbn [map] in Hsorted.
    inversion H4 as [|? ? Hv H4']; subst.
    inversion Hsorted as [|? ? Hsorted' Hmin]; subst.
    cbn [AddReservation_loop].
    destruct (Equal (ipam.decimalToIP t) v) eqn:E.
    + apply Equal_decimalToIP_4 in E; [|lia|assumption].
      rewrite Add_decimalToIP.
      destruct (IH (t + 1) H4' Hsorted') as [t' [Hloop [Hr [Hfree Hfull]]]];
        try lia.
      exists t'. split; [exact Hloop|]. split; [cbn [length]; lia|]. split.
      * cbn [map]. intros [Hhead|Htail]; [lia | contradiction].
      * intros z Hz. cbn [map]. destruct (Z.eq_dec z t) as [->|N];
          [now left | right; apply Hfull; lia].
    + assert (N : t <> ipam.ipToDecimal v).
      { intros Heq. apply (Equal_decimalToIP_4 t v) in Heq;
          [congruence | lia | assumption]. }
      destruct (IH t H4' Hsorted') as [t' [Hloop [Hr [Hfree Hfull]]]];
        try lia.
      exists t'. split; [exact Hloop|]. split; [cbn [length]; lia|].
      assert (Hne : t' <> ipam.ipToDecimal v).
      { intros ->.
        assert (Hin : In t (map ipam.ipToDecimal rest)) by (apply Hfull; lia).
        rewrite Forall_forall in Hmin. apply Hmin in Hin. lia. }
      split.
      * cbn [map]. intros [Hhead|Htail]; [congruence | contradiction].
      * intros z Hz. cbn [map]. right. now apply Hfull.
Qed.

(** X15: when the reserved addresses are 4-byte addresses in strictly
    ascending order, and the probe cannot pass the end of the address
    range, [AddReservation] appends the smallest address from offset 2 on
    that no reservation has: no reserved address is [Equal] to it, and
    every address between offset 2 and it is reserved. *)
Theorem X15_AddReservation_smallest_free_address_when_ascending :
  forall (s : IPV4Subnet.t) (name comment : string),
    let reserved := map ipam.ipToDecimal (ReservedIPs s) in
    let t := ipam.ipToDecimal (IPNet.IP (IPV4Subnet.CIDR s)) + 2 in
    Forall (fun v => length v = 4%nat) (ReservedIPs s) ->
    StronglySorted Z.lt reserved ->
    t + Z.of_nat (length reserved) < 2 ^ 32 ->
    exists r,
      IPV4Subnet.IPReservations (fst (AddReservation s name comment))
      = IPV4Subnet.IPReservations s ++ [r]
      /\ t <= ipam.ipToDecimal (IPReservation.IPAddress r)
              <= t + Z.of_nat (length reserved)
      /\ ~ In (ipam.ipToDecimal (IPReservation.IPAddress r)) reserved
      /\ (forall z, t <= z < ipam.ipToDecimal (IPReservation.IPAddress r) ->
                    In z reserved)
      /\ existsb (Equal (IPReservation.IPAddress r)) (ReservedIPs s) = false.
Proof.
  intros s name comment reserved t H4 Hsorted Hlen.
  pose proof (ipToDecimal_range (IPNet.IP (IPV4Subnet.CIDR s))) as Hbase.
  subst reserved. rewrite length_map in Hlen.
  destruct (AddReservation_loop_ascending (ReservedIPs s) t H4 Hsorted)
    as [t' [Hloop [Hr [Hfree Hfull]]]]; [lia | lia |].
  unfold AddReservation. cbn [fst IPV4Subnet.set_IPReservations
                                  IPV4Subnet.IPReservations].
  eexists. split; [reflexivity|]. cbn [IPReservation.IPAddress].
  unfold ipam.Add. fold t. rewrite Hloop.
  rewrite ipToDecimal_decimalToIP, Z.mod_small, length_map by lia.
  repeat split; try lia; try assumption.
  destruct (existsb _ _) eqn:E; [|reflexivity].
  apply existsb_exists in E. destruct E as [v [Hin E]].
  exfalso. apply Hfree.
  rewrite Forall_forall in H4.
  apply Equal_decimalToIP_4 in E; [|lia|now apply H4].
  rewrite E. now apply in_map.
Qed.

(** X15, in 10.0.0.0/24 with 10.0.0.2, 10.0.0.3 and 10.0.0.5 reserved:
    the next reservation is 10.0.0.4. *)
Lemma X15_witness :
  let at_ d := IPReservation.mk (ip4 10 0 0 d) EmptyString EmptyString [] in
  let s := subnet_10_0_0_0_24 [at_ 2; at_ 3; at_ 5] in
  let reserved := map ipam.ipToDecimal (ReservedIPs s) in
  let t := ipam.ipToDecimal (IPNet.IP (IPV4Subnet.CIDR s)) + 2 in
  (exists r,
      IPV4Subnet.IPReservations (fst (AddReservation s "d" EmptyString))
      = IPV4Subnet.IPReservations s ++ [r]
      /\ t <= ipam.ipToDecimal (IPReservation.IPAddress r)
              <= t + Z.of_nat (length reserved)
      /\ ~ In (ipam.ipToDecimal (IPReservation.IPAddress r)) reserved
      /\ (forall z, t <= z < ipam.ipToDecimal (IPReservation.IPAddress r) ->
                    In z reserved)
      /\ existsb (Equal (IPReservation.IPAddress r)) (ReservedIPs s) = false)
  /\ ReservedIPs (fst (AddReservation s "d" EmptyString))
     = [ip4 10 0 0 2; ip4 10 0 0 3; ip4 10 0 0 5; ip4 10 0 0 4].
Proof.
  intros at_ s reserved t. split; [|vm_compute; reflexivity].
  apply (X15_AddReservation_smallest_free_address_when_ascending
           s "d"%string EmptyString).
  - repeat constructor.
  - vm_compute. repeat constructor.
  - vm_compute. reflexivity.
Defined.

(* ------------------------------------------------------------------ *)

Lemma Split_comma_nonempty (s : string) : strings.Split_comma s <> [].
Proof.
  destruct s as [|c s]; cbn; [discriminate|].
  destruct (Ascii.eqb c ","); [discriminate|].
  destruct (strings.Split_comma s); discriminate.
Qed.

Lemma concat_cons (sep x : string) (l : list string) :
  l <> [] ->
  String.concat sep (x :: l)
  = String.append x (String.append sep (String.concat sep l)).
Proof. destruct l; [congruence | reflexivity]. Qed.

(** Joining the pieces of a split gives the text back. *)
Lemma Join_Split_comma (s : string) :
  strings.Join_comma (strings.Split_comma s) = s.
Proof.
  unfold strings.Join_comma.
  induction s as [|c s IH]; [reflexivity|].
  cbn [strings.Split_comma].
  destruct (Ascii.eqb_spec c ","%char) as [->|N].
  - rewrite concat_cons by apply Split_comma_nonempty.
    cbn. now rewrite IH.
  - pose proof (Split_comma_nonempty s) as Hne.
    destruct (strings.Split_comma s) as [|piece pieces]; [congruence|].
    destruct pieces as [|p2 ps].
    + cbn in *. now rewrite IH.
    + rewrite concat_cons by discriminate.
      rewrite concat_cons in IH by discriminate.
      cbn [String.append] in IH |- *. now rewrite IH.
Qed.

Lemma Split_comma_length (s : string) :
  length (strings.Split_comma s)
  = S (count_occ ascii_dec (list_ascii_of_string s) ","%char).
Proof.
  induction s as [|c s IH]; [reflexivity|].
  cbn [strings.Split_comma list_ascii_of_string count_occ].
  destruct (Ascii.eqb_spec c ","%char) as [->|N].
  - destruct (ascii_dec "," ","); [|congruence]. cbn [length]. now rewrite IH.
  - destruct (ascii_dec c ","); [congruence|].
    pose proof (Split_comma_nonempty s) as Hne.
    destruct (strings.Split_comma s); [congruence|]. exact IH.
Qed.

Lemma Split_comma_no_comma (s : string) :
  Forall (fun piece => ~ In ","%char (list_ascii_of_string piece))
         (strings.Split_comma s).
Proof.
  induction s as [|c s IH]; [repeat constructor; intros []|].
  cbn [strings.Split_comma].
  destruct (Ascii.eqb_spec c ","%char) as [->|N].
  - constructor; [intros [] | exact IH].
  - pose proof (Split_comma_nonempty s) as Hne.
    destruct (strings.Split_comma s) as [|piece pieces]; [congruence|].
    inversion IH as [|? ? Hp Hps]; subst.
    constructor; [|exact Hps].
    cbn [list_ascii_of_string]. intros [E|Hin]; [congruence | contradiction].
Qed.

(** X16: [AddReservationWithPin] sets the aliases to the pieces of the
    comment between commas: joined by commas they give the comment back,
    there is one more alias than the comment has commas (so one empty
    alias for an empty comment), and no alias contains a comma.
    [AddReservation] sets no alias. *)
Theorem X16_AddReservationWithPin_aliases_split_the_comment :
  forall (s : IPV4Subnet.t) (name comment : string) (pin : uint8),
    let r := nth (snd (AddReservationWithPin s name comment pin))
                 (IPV4Subnet.IPReservations
                    (fst (AddReservationWithPin s name comment pin)))
                 IPReservation.zero in
    strings.Join_comma (IPReservation.Aliases r) = comment
    /\ length (IPReservation.Aliases r)
       = S (count_occ ascii_dec (list_ascii_of_string comment) ","%char)
    /\ Forall (fun alias => ~ In ","%char (list_ascii_of_string alias))
              (IPReservation.Aliases r)
    /\ (comment = EmptyString -> IPReservation.Aliases r = [EmptyString])
    /\ IPReservation.Aliases
         (nth (snd (AddReservation s name comment))
              (IPV4Subnet.IPReservations (fst (AddReservation s name comment)))
              IPReservation.zero)
       = [].
Proof.
  intros s name comment pin r. subst r.
  unfold AddReservationWithPin, AddReservation.
  cbn [fst snd IPV4Subnet.set_IPReservations IPV4Subnet.IPReservations].
  rewrite !length_app. cbn [length].
  replace (length (IPV4Subnet.IPReservations s) + 1 - 1)%nat
    with (length (IPV4Subnet.IPReservations s)) by lia.
  rewrite !nth_middle. cbn [IPReservation.Aliases].
  split; [apply Join_Split_comma|].
  split; [apply Split_comma_length|].
  split; [apply Split_comma_no_comma|].
  split; [now intros ->|reflexivity].
Qed.

(** X17: [AddReservationWithPin] always reserves an address of 4 bytes,
    so it keeps every reserved address 4 bytes long.  When the subnet's
    address is neither 4 nor 16 bytes long, it reserves 0.0.0.0, whatever
    the pin. *)
Theorem X17_AddReservationWithPin_reserves_four_bytes :
  forall (s : IPV4Subnet.t) (name comment : string) (pin : uint8),
    let four := Forall (fun ip : IP => length ip = 4%nat) in
    let pinned := fst (AddReservationWithPin s name comment pin) in
    (exists ip,
        ReservedIPs pinned = ReservedIPs s ++ [ip] /\ length ip = 4%nat)
    /\ (four (ReservedIPs s) -> four (ReservedIPs pinned))
    /\ (length (IPNet.IP (IPV4Subnet.CIDR s)) <> 4%nat ->
        length (IPNet.IP (IPV4Subnet.CIDR s)) <> 16%nat ->
        ReservedIPs pinned
        = ReservedIPs s ++ [[Byte.x00; Byte.x00; Byte.x00; Byte.x00]]).
Proof.
  intros s name comment pin four pinned. subst four pinned.
  unfold AddReservationWithPin, ReservedIPs.
  cbn [fst IPV4Subnet.set_IPReservations IPV4Subnet.IPReservations].
  rewrite !map_app. cbn [map IPReservation.IPAddress].
  assert (Hlen : length
                   (if Nat.eqb (length (IPNet.IP (IPV4Subnet.CIDR s))) 16
                    then [nth 12 (IPNet.IP (IPV4Subnet.CIDR s)) Byte.x00;
                          nth 13 (IPNet.IP (IPV4Subnet.CIDR s)) Byte.x00;
                          nth 14 (IPNet.IP (IPV4Subnet.CIDR s)) Byte.x00;
                          pin]
                    else if Nat.eqb (length (IPNet.IP (IPV4Subnet.CIDR s))) 4
                         then [nth 0 (IPNet.IP (IPV4Subnet.CIDR s)) Byte.x00;
                               nth 1 (IPNet.IP (IPV4Subnet.CIDR s)) Byte.x00;
                               nth 2 (IPNet.IP (IPV4Subnet.CIDR s)) Byte.x00;
                               pin]
                         else [Byte.x00; Byte.x00; Byte.x00; Byte.x00])
                 = 4%nat).
  { destruct (Nat.eqb _ 16); [reflexivity|].
    destruct (Nat.eqb _ 4); reflexivity. }
  split; [|split].
  - eexists. split; [reflexivity | exact Hlen].
  - intros H. apply Forall_app. split; [exact H|].
    constructor; [exact Hlen | constructor].
  - intros N4 N16.
    destruct (Nat.eqb_spec (length (IPNet.IP (IPV4Subnet.CIDR s))) 4);
      [contradiction|].
    destruct (Nat.eqb_spec (length (IPNet.IP (IPV4Subnet.CIDR s))) 16);
      [contradiction|].
    reflexivity.
Qed.

(* ------------------------------------------------------------------ *)

Lemma PopulateIds_loop_spec (n : nat) :
  forall (cabID : Z) (details : list CabinetDetail.t),
    PopulateIds_loop n cabID details
    = details
      ++ map (fun k => CabinetDetail.mk (cabID + Z.of_nat k) EmptyString 0)
             (seq 0 n).
Proof.
  induction n as [|n IH]; intros cabID details.
  - cbn. now rewrite app_nil_r.
  - cbn [PopulateIds_loop]. rewrite IH, <- app_assoc. f_equal.
    cbn [seq map app]. rewrite Z.add_0_r. f_equal.
    rewrite <- seq_shift, map_map. apply map_ext. intros k.
    f_equal. lia.
Qed.

(** X18: [PopulateIds], for [int] values of the two numbers.  A group
    that already has at least [Cabinets] details is unchanged.  A group
    with fewer keeps them and gets, after them, the ids [StartingCabinet],
    ..., [StartingCabinet + Cabinets - 1] when that sum does not overflow,
    and nothing when it does.  A second call changes nothing, and for a
    group that had no details [Length] is the same before and after. *)
Theorem X18_PopulateIds_appends_the_numbered_cabinets :
  forall (cgd : CabinetGroupDetail.t),
    let details := CabinetGroupDetail.CabinetDetails cgd in
    let total := CabinetGroupDetail.Cabinets cgd in
    let start := CabinetGroupDetail.StartingCabinet cgd in
    - 2 ^ 63 <= start < 2 ^ 63 ->
    - 2 ^ 63 <= total < 2 ^ 63 ->
    (total <= Z.of_nat (length details) -> PopulateIds cgd = cgd)
    /\ (Z.of_nat (length details) < total -> start + total < 2 ^ 63 ->
        CabinetIDs (PopulateIds cgd)
        = CabinetIDs cgd
          ++ map (fun k => start + Z.of_nat k) (seq 0 (Z.to_nat total))
        /\ firstn (length details)
                  (CabinetGroupDetail.CabinetDetails (PopulateIds cgd))
           = details)
    /\ (Z.of_nat (length details) < total -> 2 ^ 63 <= start + total ->
        PopulateIds cgd = cgd)
    /\ PopulateIds (PopulateIds cgd) = PopulateIds cgd
    /\ (details = [] -> start + total < 2 ^ 63 ->
        Length (PopulateIds cgd) = Length cgd).
Proof.
  intros cgd details total start Hstart Htotal.
  assert (Hsmall : total <= Z.of_nat (length details) -> PopulateIds cgd = cgd).
  { intros H. unfold PopulateIds. fold details total.
    destruct (Z.ltb_spec (Z.of_nat (length details)) total); [lia|].
    reflexivity. }
  assert (Hfill : Z.of_nat (length details) < total -> start + total < 2 ^ 63 ->
                  PopulateIds cgd
                  = CabinetGroupDetail.set_CabinetDetails cgd
                      (details
                       ++ map (fun k => CabinetDetail.mk (start + Z.of_nat k)
                                                         EmptyString 0)
                              (seq 0 (Z.to_nat total)))).
  { intros Hlt Hsum. unfold PopulateIds. fold details total start.
    destruct (Z.ltb_spec (Z.of_nat (length details)) total); [|lia].
    rewrite int_wrap_small by lia. rewrite PopulateIds_loop_spec.
    replace (start + total - start) with total by lia. reflexivity. }
  assert (Hwrap : Z.of_nat (length details) < total -> 2 ^ 63 <= start + total ->
                  PopulateIds cgd = cgd).
  { intros Hlt Hsum. unfold PopulateIds. fold details total start.
    destruct (Z.ltb_spec (Z.of_nat (length details)) total); [|lia].
    assert (Hw : int_wrap (start + total) = start + total - 2 ^ 64).
    { unfold int_wrap.
      replace (start + total + 2 ^ 63)
        with (start + total - 2 ^ 63 + 1 * 2 ^ 64) by lia.
      rewrite Z.mod_add by lia. rewrite Z.mod_small; lia. }
    rewrite Hw.
    replace (Z.to_nat (start + total - 2 ^ 64 - start)) with 0%nat by lia.
    cbn [PopulateIds_loop]. subst details. now destruct cgd. }
  split; [exact Hsmall|]. split; [|split; [exact Hwrap|split]].
  - intros Hlt Hsum. rewrite (Hfill Hlt Hsum). unfold CabinetIDs.
    cbn [CabinetGroupDetail.set_CabinetDetails
         CabinetGroupDetail.CabinetDetails].
    fold details. rewrite map_app, map_map. cbn [CabinetDetail.ID].
    split; [reflexivity|].
    now rewrite firstn_app, Nat.sub_diag, firstn_all, app_nil_r.
  - destruct (Z.ltb_spec (Z.of_nat (length details)) total) as [Hlt|Hge];
      [|now rewrite (Hsmall Hge), (Hsmall Hge)].
    destruct (Z.ltb_spec (start + total) (2 ^ 63)) as [Hsum|Hsum];
      [|now rewrite (Hwrap Hlt Hsum), (Hwrap Hlt Hsum)].
    rewrite (Hfill Hlt Hsum). unfold PopulateIds at 1.
    cbn [CabinetGroupDetail.set_CabinetDetails
         CabinetGroupDetail.CabinetDetails CabinetGroupDetail.Cabinets].
    fold total.
    rewrite length_app, length_map, length_seq.
    destruct (Z.ltb_spec (Z.of_nat (length details + Z.to_nat total)) total);
      [lia | reflexivity].
  - intros Hempty Hsum. unfold Length at 2. fold details total.
    rewrite Hempty. cbn [length Nat.eqb].
    destruct (Z.ltb_spec (Z.of_nat (length details)) total) as [Hlt|Hge].
    + rewrite (Hfill Hlt Hsum). unfold Length.
      cbn [CabinetGroupDetail.set_CabinetDetails
           CabinetGroupDetail.CabinetDetails CabinetGroupDetail.Cabinets].
      rewrite Hempty in *. cbn [app length] in *.
      rewrite length_map, length_seq.
      destruct (Nat.eqb_spec (Z.to_nat total) 0); lia.
    + rewrite (Hsmall Hge). unfold Length. fold details total.
      now rewrite Hempty.
Qed.

(** X18, for three river cabinets from 3000 on. *)
Lemma X18_witness :
  let cgd := CabinetGroupDetail.mk "river" 3 3000 [] in
  CabinetIDs (PopulateIds cgd) = [3000; 3001; 3002]
  /\ PopulateIds (PopulateIds cgd) = PopulateIds cgd
  /\ Length (PopulateIds cgd) = Length cgd.
Proof.
  intros cgd.
  assert (Hstart : - 2 ^ 63 <= CabinetGroupDetail.StartingCabinet cgd < 2 ^ 63)
    by (vm_compute; split; [discriminate | reflexivity]).
  assert (Htotal : - 2 ^ 63 <= CabinetGroupDetail.Cabinets cgd < 2 ^ 63)
    by (vm_compute; split; [discriminate | reflexivity]).
  pose proof (X18_PopulateIds_appends_the_numbered_cabinets cgd Hstart Htotal)
    as [_ [Hfill [_ [Hidem Hlen]]]].
  split; [|split].
  - apply (proj1 (Hfill ltac:(vm_compute; reflexivity)
                        ltac:(vm_compute; reflexivity))).
  - exact Hidem.
  - apply Hlen; [reflexivity | vm_compute; reflexivity].
Defined.

(* ------------------------------------------------------------------ *)

Lemma appendIfMissing_loop_spec (slice : list string) (item : string)
      (rest : list string) :
  cmd.appendIfMissing_loop slice rest item
  = if in_dec string_dec item rest then slice else slice ++ [item].
Proof.
  induction rest as [|ele rest IH]; cbn [cmd.appendIfMissing_loop];
    [reflexivity|].
  destruct (String.eqb_spec ele item) as [->|N].
  - destruct (in_dec string_dec item (item :: rest)) as [_|N];
      [reflexivity | exfalso; apply N; now left].
  - rewrite IH.
    destruct (in_dec string_dec item rest) as [Hin|Hout],
             (in_dec string_dec item (ele :: rest)) as [Hin'|Hout'];
      try reflexivity.
    + exfalso. apply Hout'. now right.
    + exfalso. destruct Hin'; [congruence | contradiction].
Qed.

(** X19: [appendIfMissing] returns the slice itself when it holds the
    item and the slice with the item appended when it does not.  The
    result holds the item and the members of the slice, and nothing else;
    it has no duplicate when the slice has none; and a second call with
    the same item changes nothing. *)
Theorem X19_appendIfMissing_keeps_the_list_duplicate_free :
  forall (slice : list string) (item : string),
    let result := cmd.appendIfMissing slice item in
    (In item slice -> result = slice)
    /\ (~ In item slice -> result = slice ++ [item])
    /\ In item result
    /\ (forall x, In x result <-> In x slice \/ x = item)
    /\ (NoDup slice -> NoDup result)
    /\ cmd.appendIfMissing result item = result.
Proof.
  intros slice item result. subst result. unfold cmd.appendIfMissing.
  rewrite !appendIfMissing_loop_spec.
  destruct (in_dec string_dec item slice) as [Hin|Hout].
  - repeat split; try tauto.
    + intros [H| ->]; assumption.
    + destruct (in_dec string_dec item slice); [reflexivity | contradiction].
  - destruct (in_dec string_dec item (slice ++ [item])) as [_|N];
      [|exfalso; apply N, in_or_app; right; now left].
    repeat split; try tauto.
    + apply in_or_app. right. now left.
    + intros H. apply in_app_or in H. destruct H as [H|[<-|[]]]; auto.
    + intros [H| ->]; apply in_or_app; [now left | right; now left].
    + intros Hnd. apply NoDup_app; [exact Hnd | repeat constructor; intros [] |].
      intros a Ha [<-|[]]. contradiction.
Qed.

Lemma stringInSlice_In (a : string) (l : list string) :
  pit.stringInSlice a l = true <-> In a l.
Proof.
  induction l as [|b rest IH]; cbn; [split; [discriminate | intros []]|].
  destruct (String.eqb_spec b a) as [->|N].
  - split; auto.
  - rewrite IH. split; [now right | intros [E|H]; [congruence | exact H]].
Qed.

(** X20: [AddReservationAlias], for a [stringInSlice] that decides
    membership (as the one of package [pit] does).  Afterwards the alias
    is among the aliases: a reservation that had it is unchanged, one that
    had not gets it appended.  No duplicate is introduced, a second call
    changes nothing, and address, name and comment are untouched. *)
Theorem X20_AddReservationAlias_adds_a_missing_alias_once :
  forall (stringInSlice : string -> list string -> bool)
         (iReserv : IPReservation.t) (alias : string),
    (forall a l, stringInSlice a l = true <-> In a l) ->
    let after := AddReservationAlias stringInSlice iReserv alias in
    In alias (IPReservation.Aliases after)
    /\ (In alias (IPReservation.Aliases iReserv) -> after = iReserv)
    /\ (~ In alias (IPReservation.Aliases iReserv) ->
        IPReservation.Aliases after = IPReservation.Aliases iReserv ++ [alias])
    /\ (NoDup (IPReservation.Aliases iReserv) ->
        NoDup (IPReservation.Aliases after))
    /\ AddReservationAlias stringInSlice after alias = after
    /\ IPReservation.IPAddress after = IPReservation.IPAddress iReserv
    /\ IPReservation.Name after = IPReservation.Name iReserv
    /\ IPReservation.Comment after = IPReservation.Comment iReserv.
Proof.
  intros stringInSlice iReserv alias Hspec after. subst after.
  unfold AddReservationAlias.
  destruct (stringInSlice alias (IPReservation.Aliases iReserv)) eqn:E;
    cbn [negb].
  - apply Hspec in E as Hin. rewrite E. cbn [negb]. repeat split; tauto.
  - assert (Hout : ~ In alias (IPReservation.Aliases iReserv)).
    { intros H. apply Hspec in H. congruence. }
    cbn [IPReservation.set_Aliases IPReservation.Aliases].
    assert (Hin : In alias (IPReservation.Aliases iReserv ++ [alias]))
      by (apply in_or_app; right; now left).
    apply Hspec in Hin as E'. rewrite E'. cbn [negb].
    repeat split; try tauto.
    intros Hnd. apply NoDup_app; [exact Hnd | repeat constructor; intros [] |].
    intros a Ha [<-|[]]. contradiction.
Qed.

(** X20, with [stringInSlice] of package [pit]. *)
Lemma X20_witness :
  let r := IPReservation.mk (ip4 10 0 0 2) "ncn-w001" "x3000c0s7b0n0"
                            ["ncn-w001-nmn"]%string in
  let after := AddReservationAlias pit.stringInSlice r "time-nmn" in
  IPReservation.Aliases after = ["ncn-w001-nmn"; "time-nmn"]%string
  /\ AddReservationAlias pit.stringInSlice after "time-nmn" = after.
Proof.
  intros r after.
  pose proof (X20_AddReservationAlias_adds_a_missing_alias_once
                pit.stringInSlice r "time-nmn"%string stringInSlice_In)
    as [_ [_ [Hnew [_ [Hidem _]]]]].
  split; [|exact Hidem].
  apply Hnew. intros [H|[]]. discriminate H.
Defined.

(* ================================================================== *)
(** * Reservations updated with the NCNs *)

(** One NCN changes neither the address of the entry nor the aliases it
    already has. *)
Lemma updateReservations_ncn_keeps (LogicalNCN : Type)
      (Xname Hostname Subrole : LogicalNCN -> string)
      (NetName : string) (r : IPReservation.t) (ncn : LogicalNCN) :
  let r' :=
    cmd.updateReservations_ncn LogicalNCN Xname Hostname Subrole
                               NetName r ncn in
  IPReservation.IPAddress r' = IPReservation.IPAddress r
  /\ exists added,
      IPReservation.Aliases r' = IPReservation.Aliases r ++ added.
Proof.
  cbv zeta. unfold cmd.updateReservations_ncn, cmd.append_alias.
  repeat match goal with
         | |- context [if ?b then _ else _] => destruct b
         end;
    cbn [IPReservation.set_Aliases IPReservation.set_Name
         IPReservation.set_Comment IPReservation.IPAddress
         IPReservation.Aliases IPReservation.Name IPReservation.Comment];
    (split; [reflexivity|]);
    rewrite <- ?app_assoc; eexists;
    solve [reflexivity | symmetry; apply app_nil_r].
Qed.

(** An NCN whose xname the comment of the entry does not carry leaves the
    entry as it is. *)
Lemma updateReservations_ncn_untouched (LogicalNCN : Type)
      (Xname Hostname Subrole : LogicalNCN -> string)
      (NetName : string) (r : IPReservation.t) (ncn : LogicalNCN) :
  IPReservation.Comment r <> Xname ncn ->
  IPReservation.Comment r <> String.append (Xname ncn) "-mgmt" ->
  cmd.updateReservations_ncn LogicalNCN Xname Hostname Subrole NetName r ncn
  = r.
Proof.
  intros N1 N2. unfold cmd.updateReservations_ncn.
  destruct (String.eqb_spec (IPReservation.Comment r) (Xname ncn));
    [contradiction|].
  destruct (String.eqb_spec (IPReservation.Comment r)
                            (String.append (Xname ncn) "-mgmt"));
    [contradiction | reflexivity].
Qed.

Lemma updateReservations_entry_keeps (LogicalNCN : Type)
      (Xname Hostname Subrole : LogicalNCN -> string)
      (NetName : string) (logicalNcns : list LogicalNCN)
      (r : IPReservation.t) :
  let r' :=
    cmd.updateReservations_entry LogicalNCN Xname Hostname Subrole
                                 NetName logicalNcns r in
  IPReservation.IPAddress r' = IPReservation.IPAddress r
  /\ (exists added,
         IPReservation.Aliases r' = IPReservation.Aliases r ++ added)
  /\ (NetName = "NMN"%string ->
      exists front,
        IPReservation.Aliases r'
        = front ++ [String.append (IPReservation.Name r') ".local"]).
Proof.
  cbv zeta. unfold cmd.updateReservations_entry.
  assert (Hfold : forall l r0,
             let r1 :=
               fold_left (cmd.updateReservations_ncn
                            LogicalNCN Xname Hostname Subrole NetName)
                         l r0 in
             IPReservation.IPAddress r1 = IPReservation.IPAddress r0
             /\ exists added,
                 IPReservation.Aliases r1
                 = IPReservation.Aliases r0 ++ added).
  { induction l as [|ncn l IH]; intros r0; cbn [fold_left].
    - split; [reflexivity|]. exists []. now rewrite app_nil_r.
    - destruct (IH (cmd.updateReservations_ncn
                      LogicalNCN Xname Hostname Subrole NetName r0 ncn))
        as [Ha [added Hal]].
      destruct (updateReservations_ncn_keeps
                  LogicalNCN Xname Hostname Subrole NetName r0 ncn)
        as [Ha0 [added0 Hal0]].
      split; [congruence|]. exists (added0 ++ added).
      now rewrite Hal, Hal0, app_assoc. }
  destruct (Hfold logicalNcns r) as [Ha [added Hal]].
  destruct (String.eqb_spec NetName "NMN") as [E|N];
    unfold cmd.append_alias;
    cbn [IPReservation.set_Aliases IPReservation.IPAddress
         IPReservation.Aliases IPReservation.Name].
  - split; [exact Ha|]. split.
    + eexists. rewrite Hal, <- app_assoc. reflexivity.
    + intros _. eexists. reflexivity.
  - split; [exact Ha|]. split; [now exists added | contradiction].
Qed.

Lemma updateReservations_ReservedIPs (LogicalNCN : Type)
      (Xname Hostname Subrole : LogicalNCN -> string)
      (s : IPV4Subnet.t) (logicalNcns : list LogicalNCN) :
  ReservedIPs (cmd.updateReservations LogicalNCN Xname Hostname Subrole
                 s logicalNcns)
  = ReservedIPs s.
Proof.
  unfold ReservedIPs, cmd.updateReservations.
  cbn [IPV4Subnet.set_IPReservations IPV4Subnet.IPReservations].
  rewrite map_map. apply map_ext. intros r.
  apply (updateReservations_entry_keeps LogicalNCN Xname Hostname Subrole
           _ logicalNcns r).
Qed.

(** X21: [updateReservations] changes no address and removes no alias:
    every reservation keeps its address and its aliases, new ones coming
    after them.  In the NMN the last alias of every reservation is its
    name followed by .local; in another network a reservation whose
    comment is no NCN's xname, with or without -mgmt, is unchanged.  And
    [UpdateDHCPRange] commutes with it: on the updated subnet it exits or
    returns as it does on the original one, and with the same range. *)
Theorem X21_updateReservations_keeps_addresses_and_aliases :
  forall (LogicalNCN : Type) (Xname Hostname Subrole : LogicalNCN -> string)
         (s : IPV4Subnet.t) (logicalNcns : list LogicalNCN) (flag : bool),
    let update s :=
      cmd.updateReservations LogicalNCN Xname Hostname Subrole s logicalNcns in
    ReservedIPs (update s) = ReservedIPs s
    /\ Forall2 (fun r r' => exists added,
                    IPReservation.Aliases r' = IPReservation.Aliases r ++ added)
               (IPV4Subnet.IPReservations s)
               (IPV4Subnet.IPReservations (update s))
    /\ (IPV4Subnet.NetName s = "NMN"%string ->
        Forall (fun r' => exists front,
                    IPReservation.Aliases r'
                    = front ++ [String.append (IPReservation.Name r') ".local"])
               (IPV4Subnet.IPReservations (update s)))
    /\ (IPV4Subnet.NetName s <> "NMN"%string ->
        forall r,
          In r (IPV4Subnet.IPReservations s) ->
          (forall ncn, In ncn logicalNcns ->
                       IPReservation.Comment r <> Xname ncn
                       /\ IPReservation.Comment r
                          <> String.append (Xname ncn) "-mgmt") ->
          In r (IPV4Subnet.IPReservations (update s)))
    /\ UpdateDHCPRange (update s) flag
       = match UpdateDHCPRange s flag with
         | Returns s1 => Returns (update s1)
         | Fatal => Fatal
         | OutOfSteps => OutOfSteps
         end.
Proof.
  intros LogicalNCN Xname Hostname Subrole s logicalNcns flag update.
  split; [apply updateReservations_ReservedIPs|].
  split; [|split; [|split]].
  - subst update. unfold cmd.updateReservations.
    cbn [IPV4Subnet.set_IPReservations IPV4Subnet.IPReservations].
    induction (IPV4Subnet.IPReservations s) as [|r rs IH]; cbn [map];
      constructor; [|exact IH].
    apply (updateReservations_entry_keeps LogicalNCN Xname Hostname Subrole
             _ logicalNcns r).
  - intros E. subst update. unfold cmd.updateReservations.
    cbn [IPV4Subnet.set_IPReservations IPV4Subnet.IPReservations].
    apply Forall_map, Forall_forall. intros r _.
    now apply (updateReservations_entry_keeps
                 LogicalNCN Xname Hostname Subrole _ logicalNcns r).
  - intros N r Hin Hother. subst update. unfold cmd.updateReservations.
    cbn [IPV4Subnet.set_IPReservations IPV4Subnet.IPReservations].
    apply in_map_iff. exists r. split; [|exact Hin].
    unfold cmd.updateReservations_entry.
    destruct (String.eqb_spec (IPV4Subnet.NetName s) "NMN"); [contradiction|].
    clear Hin. induction logicalNcns as [|ncn l IH]; [reflexivity|].
    cbn [fold_left].
    rewrite updateReservations_ncn_untouched
      by (apply Hother; now left).
    apply IH. intros ncn' Hin'. apply Hother. now right.
  - unfold UpdateDHCPRange.
    subst update. cbv beta. rewrite updateReservations_ReservedIPs.
    replace (UsableHostAddresses
               (cmd.updateReservations LogicalNCN Xname Hostname Subrole
                  s logicalNcns))
      with (UsableHostAddresses s) by reflexivity.
    destruct (_ <? _); [reflexivity|].
    cbn [cmd.updateReservations IPV4Subnet.set_IPReservations
         IPV4Subnet.CIDR].
    destruct (UpdateDHCPRange_loop _ _ _ _) as [[ip start]|]; reflexivity.
Qed.
